(** * dpdata-xyz: the trajectory conversion pipeline of [chushihua.py]

    A shallow embedding of the frame-oriented core of the tool: the column
    and label readers, the consistency validator, the plain and extended
    trajectory serializers and the extended trajectory parser, followed by
    the properties of the specification that were checked against it.

    Conventions of the embedding.
    - A Python [str] is a [text], a list of characters.  A character is a
      code point below 256 and is classified exactly as CPython classifies
      that code point ([str.isspace], [str.isdigit], the [\w] class of
      [re]).
    - What Python prints is an [event] of the log; what it raises is an
      [exn].  A computation is a log together with either an exception or a
      value: the log written before a [raise] is kept, as on a terminal.
    - A file system is a partial map from paths to file contents; a file
      opened in text mode is iterated line by line after universal-newline
      translation.
    - The limits are those of CPython and of a Linux file system as they
      come: [int()] converts no string of more than 4300 digits, and no
      file is opened under a name of more than 255 bytes. *)

From Stdlib Require Import Ascii String List Arith Lia Bool PeanoNat.
From Stdlib Require Import ZArith Sorted.
From Stdlib Require Import Numbers.DecimalString.
Import ListNotations.

Set Implicit Arguments.

(* ================================================================== *)
(** ** Text *)
(* ================================================================== *)

Definition text := list ascii.

(** [txt "abc"] is the text of a literal. *)
Definition txt (s : string) : text := list_ascii_of_string s.

Definition text_eq_dec : forall a b : text, {a = b} + {a <> b} :=
  list_eq_dec ascii_dec.

Definition text_eqb (a b : text) : bool :=
  if text_eq_dec a b then true else false.

Definition SP : ascii := " "%char.
Definition LF : ascii := "010"%char.
Definition CR : ascii := "013"%char.
Definition DQ : ascii := "034"%char.
Definition EQ : ascii := "="%char.
Definition COLON : ascii := ":"%char.
Definition USCORE : ascii := "_"%char.

Definition between (lo hi n : nat) : bool := (lo <=? n) && (n <=? hi).

(** [str.isspace] on one code point. *)
Definition isspace (c : ascii) : bool :=
  let n := nat_of_ascii c in
  between 9 13 n || between 28 32 n || (n =? 133) || (n =? 160).

(** [str.isdigit] on one code point: the decimal digits and the
    superscripts one, two and three. *)
Definition isdigit_char (c : ascii) : bool :=
  let n := nat_of_ascii c in
  between 48 57 n || (n =? 178) || (n =? 179) || (n =? 185).

(** The digits [int()] accepts. *)
Definition isdecimal_char (c : ascii) : bool :=
  between 48 57 (nat_of_ascii c).

(** The class [\w] of [re] on a [str] pattern: alphanumerics and the
    underscore. *)
Definition isword (c : ascii) : bool :=
  let n := nat_of_ascii c in
  between 48 57 n || between 65 90 n || (n =? 95) || between 97 122 n
  || (n =? 170) || (n =? 178) || (n =? 179) || (n =? 181) || (n =? 185)
  || (n =? 186) || between 188 190 n || between 192 214 n
  || between 216 246 n || between 248 255 n.

Definition notspace (c : ascii) : bool := negb (isspace c).

(** The two negated classes of the patterns of the parser: any character
    but the space, any character but the double quote. *)
Definition notsp (c : ascii) : bool := negb (Ascii.eqb c SP).

Definition notdq (c : ascii) : bool := negb (Ascii.eqb c DQ).

(** [str.lstrip()], [str.rstrip()], [str.strip()]. *)
Fixpoint lstrip (s : text) : text :=
  match s with
  | [] => []
  | c :: s' => if isspace c then lstrip s' else s
  end.

Definition rstrip (s : text) : text := rev (lstrip (rev s)).

Definition strip (s : text) : text := lstrip (rstrip s).

(** [str.split()] with no argument: runs of whitespace separate the
    tokens, and no empty token is produced.  [cur] is the token being
    read. *)
Fixpoint split_ws_from (cur : text) (s : text) : list text :=
  match s with
  | [] => match cur with [] => [] | _ => [cur] end
  | c :: s' =>
      if isspace c then
        match cur with
        | [] => split_ws_from [] s'
        | _ => cur :: split_ws_from [] s'
        end
      else split_ws_from (cur ++ [c]) s'
  end.

Definition split_ws (s : text) : list text := split_ws_from [] s.

(** [str.split(sep)] for a one-character separator. *)
Fixpoint split_on_from (sep : ascii) (cur : text) (s : text) : list text :=
  match s with
  | [] => [cur]
  | c :: s' =>
      if Ascii.eqb c sep then cur :: split_on_from sep [] s'
      else split_on_from sep (cur ++ [c]) s'
  end.

Definition split_on (sep : ascii) (s : text) : list text :=
  split_on_from sep [] s.

(** [sep.join(l)]. *)
Fixpoint join (sep : text) (l : list text) : text :=
  match l with
  | [] => []
  | x :: l' =>
      match l' with
      | [] => x
      | _ => x ++ sep ++ join sep l'
      end
  end.

(** [str.isdigit()]: non-empty and every character a digit. *)
Definition isdigit (s : text) : bool :=
  match s with
  | [] => false
  | _ => forallb isdigit_char s
  end.

(** [value.replace(" ", "_")]. *)
Definition replace_space (s : text) : text :=
  map (fun c => if Ascii.eqb c SP then USCORE else c) s.

(** [str(n)] for a non-negative integer. *)
Definition str_of_nat (n : nat) : text :=
  txt (NilEmpty.string_of_uint (Nat.to_uint n)).

(** The whitespace [int()] ignores around a numeral: of the code points
    below 256, those of [str.isspace] except the separators 28 to 31. *)
Definition isspace_int (c : ascii) : bool :=
  let n := nat_of_ascii c in
  between 9 13 n || (n =? 32) || (n =? 133) || (n =? 160).

Fixpoint lstrip_int (s : text) : text :=
  match s with
  | [] => []
  | c :: s' => if isspace_int c then lstrip_int s' else s
  end.

Definition strip_int (s : text) : text :=
  lstrip_int (rev (lstrip_int (rev s))).

(** The literals of [int()]: optional surrounding whitespace, an optional
    sign, then decimal digits with single underscores allowed between
    digits.  [prev] tells whether the previous character was a digit. *)
Fixpoint int_digits (prev : bool) (s : text) : bool :=
  match s with
  | [] => prev
  | c :: s' =>
      if isdecimal_char c then int_digits true s'
      else if Ascii.eqb c USCORE then prev && int_digits false s'
      else false
  end.

(** What [int()] reads the digits from: the string without the whitespace
    around it and without its sign. *)
Definition int_body (s : text) : text :=
  match strip_int s with
  | [] => []
  | c :: s' => if Ascii.eqb c "+" || Ascii.eqb c "-" then s' else c :: s'
  end.

Definition int_literal (s : text) : bool := int_digits false (int_body s).

(** [sys.get_int_max_str_digits()]: the interpreter converts no string of
    more digits. *)
Definition int_max_str_digits : nat := 4300.

(** The digits that count for the limit: leading zeros do, underscores do
    not. *)
Definition int_digit_count (s : text) : nat :=
  length (filter isdecimal_char s).

(** Whether [int(s)] returns: [s] is a literal of no more digits than the
    limit. *)
Definition int_accepts (s : text) : bool :=
  int_literal s && (int_digit_count (int_body s) <=? int_max_str_digits).

(** The bytes of a file name: names are encoded in UTF-8, one byte for a
    code point below 128 and two for the others below 256. *)
Definition utf8_length (s : text) : nat :=
  list_sum (map (fun c => if nat_of_ascii c <? 128 then 1 else 2) s).

(** The longest file name the file system accepts, in bytes. *)
Definition NAME_MAX : nat := 255.

Definition file_name_ok (name : text) : bool := utf8_length name <=? NAME_MAX.

(** [l[a:b]] for [0 <= a <= b]. *)
Definition slice {A : Type} (l : list A) (a b : nat) : list A :=
  firstn (b - a) (skipn a l).

(** The longest prefix whose characters satisfy [p], and the rest. *)
Fixpoint span (p : ascii -> bool) (s : text) : text * text :=
  match s with
  | [] => ([], [])
  | c :: s' =>
      if p c then let (a, b) := span p s' in (c :: a, b) else ([], s)
  end.

Fixpoint strip_prefix (p s : text) : option text :=
  match p, s with
  | [], _ => Some s
  | a :: p', b :: s' => if Ascii.eqb a b then strip_prefix p' s' else None
  | _ :: _, [] => None
  end.

(** Text-mode reading with universal newlines: [\r\n] and [\r] become
    [\n]; iterating over the file yields the lines, each with its
    terminator, the last one possibly without. *)
Fixpoint universal_newlines (s : text) : text :=
  match s with
  | [] => []
  | c :: s' =>
      if Ascii.eqb c CR then
        match s' with
        | d :: s'' =>
            if Ascii.eqb d LF then LF :: universal_newlines s''
            else LF :: universal_newlines s'
        | [] => [LF]
        end
      else c :: universal_newlines s'
  end.

Fixpoint lines_from (cur : text) (s : text) : list text :=
  match s with
  | [] => match cur with [] => [] | _ => [cur] end
  | c :: s' =>
      if Ascii.eqb c LF then (cur ++ [c]) :: lines_from [] s'
      else lines_from (cur ++ [c]) s'
  end.

Definition file_lines (content : text) : list text :=
  lines_from [] (universal_newlines content).

(* ================================================================== *)
(** ** Printed messages, exceptions, computations *)
(* ================================================================== *)

Inductive field := Coordinates | Energies | Forces | Box.

(** The texts the program prints or raises, one constructor per format
    string, with the values interpolated into it. *)
Inductive message :=
| FrameCountMismatch (f : field) (num_frames n : nat)
| LabelCountMismatch (label : text) (n num_frames : nat)
| CoordLengthMismatch (i expected got : nat)
| ForceLengthMismatch (i expected got : nat)
| ValidationFailed
| BlankLineSkipped (path : text) (line_num : nat)
| FileDoesNotExist (path : text)
| ProcessingFrame (i num_atoms : nat)
| MissingLabelValue (i : nat) (label : text)
| MissingEnergy (i : nat)
| MissingCoordinates (i : nat)
| MissingAtomType (i j : nat)
| IncompleteCoordinates (i j : nat)
| IncompleteForces (i j : nat)
| ListIndexOutOfRange
| NoneHasNoLen
| NoSuchFile (path : text)
| InvalidIntLiteral (s : text)
| ExceedsDigitLimit (limit digits : nat)
| FileNameTooLong (name : text)
| NotAFloat (s : text)
| WrongType.

Inductive exn_kind :=
  IndexError | ValueError | TypeError | FileNotFoundError | OSError.

(** The digits and underscores [int()] scans before it converts. *)
Definition int_run (s : text) : text :=
  fst (span (fun c => isdecimal_char c || Ascii.eqb c USCORE) (int_body s)).

(** What [int(s)] says when it raises its [ValueError]: a well-formed run
    of more digits than the limit is refused before what follows it is
    looked at; anything else is an invalid literal. *)
Definition int_error (s : text) : message :=
  let digits := int_digit_count (int_run s) in
  if int_digits false (int_run s) && (int_max_str_digits <? digits)
  then ExceedsDigitLimit int_max_str_digits digits
  else InvalidIntLiteral s.

Record exn := Exn { exn_kind_of : exn_kind; exn_message : message }.

Inductive event :=
| Printed (m : message)
| XyzContentError (e : exn)       (* "生成 XYZ 内容时出错：{e}" *)
| ExtxyzContentError (e : exn)    (* "生成 ExtXYZ 内容时出错：{e}" *)
| SplitError (e : exn).           (* "Error in split_extxyz: {e}" *)

Definition outcome (A : Type) : Type := (exn + A)%type.

Definition M (A : Type) : Type := (list event * outcome A)%type.

Definition ret {A : Type} (a : A) : M A := ([], inr a).

Definition raise {A : Type} (k : exn_kind) (m : message) : M A :=
  ([], inl (Exn k m)).

Definition print (m : message) : M unit := ([Printed m], inr tt).

Definition bind {A B : Type} (c : M A) (k : A -> M B) : M B :=
  match c with
  | (log, inl e) => (log, inl e)
  | (log, inr a) => let (log', r) := k a in (log ++ log', r)
  end.

Declare Scope py_scope.
Delimit Scope py_scope with py.
Notation "x <- c ;; k" := (bind c (fun x => k))
  (at level 61, c at next level, right associativity) : py_scope.
Notation "c ;; k" := (bind c (fun _ => k))
  (at level 61, right associativity) : py_scope.
Open Scope py_scope.

(** [for x in l: f(x)], collecting what each iteration produces. *)
Fixpoint for_each {A B : Type} (f : A -> M B) (l : list A) : M (list B) :=
  match l with
  | [] => ret []
  | x :: l' => y <- f x ;; ys <- for_each f l' ;; ret (y :: ys)
  end.

(** [l[i]]. *)
Definition getitem {A : Type} (l : list A) (i : nat) : M A :=
  match nth_error l i with
  | Some x => ret x
  | None => raise IndexError ListIndexOutOfRange
  end.

(** [try: c except Exception as e: print(h e); return d]. *)
Definition try_except {A : Type} (c : M A) (h : exn -> event) (d : A) : M A :=
  match c with
  | (log, inl e) => (log ++ [h e], inr d)
  | (log, inr a) => (log, inr a)
  end.

(* ================================================================== *)
(** ** Readers *)
(* ================================================================== *)

(** The files the readers are given: a path names a readable text file or
    nothing at all.  Directories and files that cannot be read or decoded
    are not part of it. *)
Definition filesystem := text -> option text.

Definition rows := list (list text).

(** The loop of [read_file] over the lines of an open file. *)
Fixpoint read_rows (file_path : text) (line_num : nat) (lines : list text)
  : M rows :=
  match lines with
  | [] => ret []
  | line :: rest =>
      let stripped_line := strip line in
      match stripped_line with
      | [] =>
          print (BlankLineSkipped file_path line_num) ;;
          read_rows file_path (S line_num) rest
      | _ =>
          data <- read_rows file_path (S line_num) rest ;;
          ret (split_ws stripped_line :: data)
      end
  end.

Definition read_file (fs : filesystem) (file_path : text) : M rows :=
  match fs file_path with
  | None => raise FileNotFoundError (NoSuchFile file_path)
  | Some content => read_rows file_path 1 (file_lines content)
  end.

(** A label value: [read_label_file] yields strings; the serializer also
    accepts a list of strings, which it joins. *)
Inductive label_value :=
| LStr (s : text)
| LList (l : list text).

Fixpoint read_label_lines (file_path : text) (line_num : nat)
  (lines : list text) : M (list label_value) :=
  match lines with
  | [] => ret []
  | line :: rest =>
      let stripped_line := strip line in
      match stripped_line with
      | [] =>
          print (BlankLineSkipped file_path line_num) ;;
          read_label_lines file_path (S line_num) rest
      | _ =>
          data <- read_label_lines file_path (S line_num) rest ;;
          ret (LStr stripped_line :: data)
      end
  end.

(** [None] is the absent result of a path that does not exist. *)
Definition read_label_file (fs : filesystem) (file_path : text)
  : M (option (list label_value)) :=
  match fs file_path with
  | None => print (FileDoesNotExist file_path) ;; ret None
  | Some content =>
      data <- read_label_lines file_path 1 (file_lines content) ;;
      ret (Some data)
  end.

(** A Python [dict] with string keys: insertion-ordered, one entry per
    key. *)
Definition dict (V : Type) := list (text * V).

Fixpoint dict_get {V : Type} (k : text) (d : dict V) : option V :=
  match d with
  | [] => None
  | (k', v) :: d' => if text_eq_dec k k' then Some v else dict_get k d'
  end.

Fixpoint dict_set {V : Type} (k : text) (v : V) (d : dict V) : dict V :=
  match d with
  | [] => [(k, v)]
  | (k', v') :: d' =>
      if text_eq_dec k k' then (k', v) :: d' else (k', v') :: dict_set k v d'
  end.

Definition label_table := dict (option (list label_value)).

(** What the column reader guarantees of its rows: no row is empty, no
    token is empty or contains whitespace. *)
Definition token_ok (tok : text) : bool :=
  match tok with
  | [] => false
  | _ => forallb notspace tok
  end.

Definition row_ok (row : list text) : bool :=
  match row with
  | [] => false
  | _ => forallb token_ok row
  end.

Definition rows_ok (data : rows) : bool := forallb row_ok data.

(** A line that survives writing and reading back: not empty, no
    whitespace at either end, no line terminator inside. *)
Definition nocr (c : ascii) : bool := negb (Ascii.eqb c CR).

Definition nolf (c : ascii) : bool := negb (Ascii.eqb c LF).

Definition noeol (c : ascii) : bool := nolf c && nocr c.

Definition line_ok (l : text) : bool :=
  match l with
  | [] => false
  | c :: _ => notspace c && notspace (last l c) && forallb noeol l
  end.

(** A computation returns [a], whatever it printed. *)
Definition returns {A : Type} (c : M A) (a : A) : Prop := snd c = inr a.

(* ================================================================== *)
(** ** Consistency validator *)
(* ================================================================== *)

Definition count_check (f : field) (num_frames : nat) (data : option rows)
  : list message :=
  match data with
  | Some d =>
      if length d =? num_frames then []
      else [FrameCountMismatch f num_frames (length d)]
  | None => []
  end.

(** The loop over [labels.items()]: [len(None)] raises. *)
Fixpoint label_count_checks (num_frames : nat) (labels : label_table)
  : M (list message) :=
  match labels with
  | [] => ret []
  | (label_name, label_values) :: rest =>
      match label_values with
      | None => raise TypeError NoneHasNoLen
      | Some vs =>
          errs <- label_count_checks num_frames rest ;;
          ret ((if length vs =? num_frames then []
                else [LabelCountMismatch label_name (length vs) num_frames])
               ++ errs)
      end
  end.

(** The body of the loop over frame indices. *)
Definition frame_length_checks (atom_types coordinates : rows)
  (forces : option rows) (i : nat) : M (list message) :=
  atoms <- getitem atom_types i ;;
  let num_atoms := length atoms in
  let expected_coord_length := num_atoms * 3 in
  coord <- getitem coordinates i ;;
  let e1 :=
    if length coord =? expected_coord_length then []
    else [CoordLengthMismatch i expected_coord_length (length coord)] in
  match forces with
  | None => ret e1
  | Some fs =>
      let expected_force_length := num_atoms * 3 in
      force <- getitem fs i ;;
      ret (e1 ++
           if length force =? expected_force_length then []
           else [ForceLengthMismatch i expected_force_length (length force)])
  end.

(** The violations of frame [i], when the frame has its rows. *)
Definition frame_violations (atoms coord : list text)
  (force : option (list text)) (i : nat) : list message :=
  (if length coord =? length atoms * 3 then []
   else [CoordLengthMismatch i (length atoms * 3) (length coord)])
  ++ match force with
     | Some f =>
         if length f =? length atoms * 3 then []
         else [ForceLengthMismatch i (length atoms * 3) (length f)]
     | None => []
     end.

Fixpoint print_all (errors : list message) : M unit :=
  match errors with
  | [] => ret tt
  | e :: rest => print e ;; print_all rest
  end.

Definition validate_data_consistency (atom_types coordinates energies : rows)
  (forces box : option rows) (labels : label_table) : M unit :=
  let num_frames := length atom_types in
  let errors0 :=
    count_check Coordinates num_frames (Some coordinates)
    ++ count_check Energies num_frames (Some energies)
    ++ count_check Forces num_frames forces
    ++ count_check Box num_frames box in
  errors1 <- label_count_checks num_frames labels ;;
  errors2 <- for_each (frame_length_checks atom_types coordinates forces)
               (seq 0 num_frames) ;;
  let errors := errors0 ++ errors1 ++ concat errors2 in
  match errors with
  | [] => ret tt
  | _ => print_all errors ;; raise ValueError ValidationFailed
  end.

(* ================================================================== *)
(** ** Plain trajectory serializer *)
(* ================================================================== *)

Definition NL : text := [LF].

Definition xyz_atom_line (atoms coord_row : list text) (i j : nat) : M text :=
  if length atoms <=? j then raise IndexError (MissingAtomType i j)
  else
    atom <- getitem atoms j ;;
    let coord_start := j * 3 in
    let coord_end := (j + 1) * 3 in
    if length coord_row <? coord_end
    then raise IndexError (IncompleteCoordinates i j)
    else
      let coord := slice coord_row coord_start coord_end in
      ret (atom ++ txt " " ++ join (txt " ") coord).

Definition xyz_frame (atom_types coordinates energies : rows) (i : nat)
  : M (list text) :=
  atoms <- getitem atom_types i ;;
  let num_atoms := length atoms in
  print (ProcessingFrame i num_atoms) ;;
  if length energies <=? i then raise IndexError (MissingEnergy i)
  else
    energy_row <- getitem energies i ;;
    energy <- getitem energy_row 0 ;;
    let head :=
      [ txt "     " ++ str_of_nat num_atoms;
        txt " i = " ++ str_of_nat i ++ txt ", E = " ++ energy ] in
    if length coordinates <=? i then raise IndexError (MissingCoordinates i)
    else
      coord_row <- getitem coordinates i ;;
      if negb (length coord_row =? num_atoms * 3)
      then raise ValueError
             (CoordLengthMismatch i (num_atoms * 3) (length coord_row))
      else
        atom_lines <- for_each (xyz_atom_line atoms coord_row i)
                        (seq 0 num_atoms) ;;
        ret (head ++ atom_lines).

Definition generate_xyz_content (atom_types coordinates energies : rows)
  : M text :=
  let num_frames := length atom_types in
  content <- for_each (xyz_frame atom_types coordinates energies)
               (seq 0 num_frames) ;;
  ret (join NL (concat content)).

(* ================================================================== *)
(** ** Extended trajectory serializer *)
(* ================================================================== *)

(** The value written for a label: ["None"] for the empty string, a list
    joined with spaces, and every space replaced by an underscore. *)
Definition render_label_value (v : label_value) : text :=
  let value :=
    match v with
    | LStr [] => txt "None"
    | LStr s => s
    | LList l => join (txt " ") l
    end in
  replace_space value.

(** [values[i]] when [values is not None and i < len(values)]. *)
Definition label_value_at (values : option (list label_value)) (i : nat)
  : option label_value :=
  match values with
  | Some vs => nth_error vs i
  | None => None
  end.

(** The loop over [labels.items()] in frame [i]: the text appended to the
    metadata line. *)
Fixpoint label_tokens (i : nat) (labels : label_table) : M text :=
  match labels with
  | [] => ret []
  | (label, values) :: rest =>
      tok <-
        match label_value_at values i with
        | Some v => ret (txt " " ++ label ++ [EQ] ++ render_label_value v)
        | None => print (MissingLabelValue i label) ;; ret []
        end ;;
      toks <- label_tokens i rest ;;
      ret (tok ++ toks)
  end.

Definition closed_pbc : text := txt "F F F".

Definition pbc_value (pbc_option : text) (box : option rows) (i : nat)
  : text :=
  if text_eqb pbc_option (txt "box") then
    match box with
    | Some b =>
        match nth_error b i with
        | Some row => join (txt " ") row
        | None => closed_pbc
        end
    | None => closed_pbc
    end
  else closed_pbc.

Definition properties_token (forces : option rows) : text :=
  txt "Properties=species:S:1:pos:R:3"
  ++ match forces with Some _ => txt ":forces:R:3" | None => [] end.

(** The metadata line of frame [i]. *)
Definition metadata_line (energies : rows) (forces box : option rows)
  (labels : label_table) (pbc_option : text) (i : nat) : M text :=
  label_part <- label_tokens i labels ;;
  energy_row <- getitem energies i ;;
  energy <- getitem energy_row 0 ;;
  ret (properties_token forces ++ label_part
       ++ txt " energy=" ++ energy
       ++ txt " pbc=" ++ [DQ] ++ pbc_value pbc_option box i ++ [DQ]).

Definition extxyz_atom_line (atoms coord_row : list text)
  (force_row : option (list text)) (i j : nat) : M text :=
  if length atoms <=? j then raise IndexError (MissingAtomType i j)
  else
    atom <- getitem atoms j ;;
    let coord_start := j * 3 in
    let coord_end := (j + 1) * 3 in
    if length coord_row <? coord_end
    then raise IndexError (IncompleteCoordinates i j)
    else
      let coord := slice coord_row coord_start coord_end in
      let line := atom ++ txt " " ++ join (txt " ") coord in
      match force_row with
      | None => ret line
      | Some fr =>
          let force_start := j * 3 in
          let force_end := (j + 1) * 3 in
          if length fr <? force_end
          then raise IndexError (IncompleteForces i j)
          else
            let force := slice fr force_start force_end in
            ret (line ++ txt " " ++ join (txt " ") force)
      end.

Definition extxyz_frame (atom_types coordinates energies : rows)
  (forces box : option rows) (labels : label_table) (pbc_option : text)
  (i : nat) : M (list text) :=
  atoms <- getitem atom_types i ;;
  let num_atoms := length atoms in
  print (ProcessingFrame i num_atoms) ;;
  if length energies <=? i then raise IndexError (MissingEnergy i)
  else
    line <- metadata_line energies forces box labels pbc_option i ;;
    let head := [str_of_nat num_atoms; line] in
    let expected_coord_length := num_atoms * 3 in
    coord_row <- getitem coordinates i ;;
    if negb (length coord_row =? expected_coord_length)
    then raise ValueError
           (CoordLengthMismatch i expected_coord_length (length coord_row))
    else
      force_row <-
        match forces with
        | None => ret None
        | Some fs =>
            let expected_force_length := num_atoms * 3 in
            fr <- getitem fs i ;;
            if negb (length fr =? expected_force_length)
            then raise ValueError
                   (ForceLengthMismatch i expected_force_length (length fr))
            else ret (Some fr)
        end ;;
      atom_lines <- for_each (extxyz_atom_line atoms coord_row force_row i)
                      (seq 0 num_atoms) ;;
      ret (head ++ atom_lines).

Definition generate_extxyz_content (atom_types coordinates energies : rows)
  (forces box : option rows) (labels : label_table) (pbc_option : text)
  : M text :=
  let num_frames := length atom_types in
  content <- for_each
               (extxyz_frame atom_types coordinates energies forces box
                  labels pbc_option)
               (seq 0 num_frames) ;;
  ret (join NL (concat content)).

(* ================================================================== *)
(** ** The text of a validated frame *)
(* ================================================================== *)

(** What the extended serializer writes for frame [i] of a collection that
    passed the validator, without the checks that cannot fail then. *)

(** The fields of the line of atom [j]: species, position and, with
    forces, force. *)
Definition atom_fields (atoms coord_row : list text)
  (force_row : option (list text)) (j : nat) : list text :=
  nth j atoms []
  :: slice coord_row (j * 3) ((j + 1) * 3)
  ++ match force_row with
     | Some fr => slice fr (j * 3) ((j + 1) * 3)
     | None => []
     end.

Definition atom_lines_text (atoms coord_row : list text)
  (force_row : option (list text)) : list text :=
  map (fun j => join (txt " ") (atom_fields atoms coord_row force_row j))
    (seq 0 (length atoms)).

(** The labels of frame [i] as pairs of a name and the value written. *)
Definition frame_labels (i : nat) (labels : label_table)
  : list (text * text) :=
  concat
    (map (fun l : text * option (list label_value) =>
            match label_value_at (snd l) i with
            | Some v => [(fst l, render_label_value v)]
            | None => []
            end) labels).

Definition label_chunk (kv : text * text) : text :=
  txt " " ++ fst kv ++ [EQ] ++ snd kv.

Definition first_token (row : list text) : text := hd [] row.

(** A metadata line: the properties, the labels, the energy, the pbc
    token between double quotes. *)
Definition metadata_shape (props : text) (kvs : list (text * text))
  (energy pbc : text) : text :=
  props
  ++ concat (map label_chunk kvs)
  ++ txt " energy=" ++ energy
  ++ txt " pbc=" ++ [DQ] ++ pbc ++ [DQ].

Definition metadata_text (energies : rows) (forces box : option rows)
  (labels : label_table) (pbc_option : text) (i : nat) : text :=
  metadata_shape (properties_token forces) (frame_labels i labels)
    (first_token (nth i energies [])) (pbc_value pbc_option box i).

Definition force_row_at (forces : option rows) (i : nat)
  : option (list text) :=
  match forces with
  | Some fs => Some (nth i fs [])
  | None => None
  end.

Definition frame_text (atom_types coordinates energies : rows)
  (forces box : option rows) (labels : label_table) (pbc_option : text)
  (i : nat) : list text :=
  let atoms := nth i atom_types [] in
  str_of_nat (length atoms)
  :: metadata_text energies forces box labels pbc_option i
  :: atom_lines_text atoms (nth i coordinates []) (force_row_at forces i).

Definition extxyz_text (atom_types coordinates energies : rows)
  (forces box : option rows) (labels : label_table) (pbc_option : text)
  : text :=
  join NL
    (concat
       (map (frame_text atom_types coordinates energies forces box labels
               pbc_option)
          (seq 0 (length atom_types)))).

(** A column file: one line per row, the tokens separated by a space. *)
Definition column_text (data : rows) : text :=
  concat (map (fun row => join (txt " ") row ++ NL) data).

(* ================================================================== *)
(** ** Collections that can be written and read back *)
(* ================================================================== *)

Definition noeq (c : ascii) : bool := negb (Ascii.eqb c EQ).

(** A label value as [read_label_file] gives it, a string, with neither
    a line terminator nor a double quote. *)
Definition label_value_ok (v : label_value) : bool :=
  match v with
  | LStr s => forallb (fun c => noeol c && notdq c) s
  | LList _ => false
  end.

Definition reserved (name : text) : bool :=
  text_eqb name (txt "Properties") || text_eqb name (txt "pbc")
  || text_eqb name (txt "energy").

(** A label name the parser finds again: a word, none of the keys of the
    metadata line. *)
Definition label_name_ok (name : text) : bool :=
  match name with
  | [] => false
  | _ => forallb isword name && negb (reserved name)
  end.

Fixpoint distinct (names : list text) : bool :=
  match names with
  | [] => true
  | n :: rest => negb (existsb (text_eqb n) rest) && distinct rest
  end.

Definition labels_ok (labels : label_table) : bool :=
  forallb
    (fun l : text * option (list label_value) =>
       label_name_ok (fst l)
       && match snd l with
          | Some vs => forallb label_value_ok vs
          | None => false
          end) labels
  && distinct (map fst labels).

(** A label of a frame as it must be written to be found again. *)
Definition chunk_ok (kv : text * text) : bool :=
  label_name_ok (fst kv)
  && match snd kv with
     | [] => false
     | _ => forallb (fun c => notsp c && noeol c && notdq c) (snd kv)
     end.

Definition energies_ok (energies : rows) : bool :=
  rows_ok energies
  && forallb (fun row => forallb notdq (first_token row)) energies.

Definition optional_rows_ok (data : option rows) : bool :=
  match data with
  | Some d => rows_ok d
  | None => true
  end.

(** Box tokens contain neither a double quote nor an equals sign. *)
Definition box_ok (box : option rows) : bool :=
  match box with
  | Some b =>
      rows_ok b
      && forallb (forallb (forallb (fun c => notdq c && noeq c))) b
  | None => true
  end.

Definition collection_ok (atom_types coordinates energies : rows)
  (forces box : option rows) (labels : label_table) : bool :=
  rows_ok atom_types && rows_ok coordinates && energies_ok energies
  && optional_rows_ok forces && box_ok box && labels_ok labels.

(** The limits of the interpreter and of the file system: the number of
    atoms of a frame is written with no more digits than [int()] converts,
    and the file [<name>.txt] of a label has a name the file system
    accepts. *)
Definition within_limits (atom_types : rows) (labels : label_table) : bool :=
  forallb
    (fun atoms : list text =>
       length (str_of_nat (length atoms)) <=? int_max_str_digits) atom_types
  && forallb
       (fun l : text * option (list label_value) =>
          file_name_ok (fst l ++ txt ".txt")) labels.

(** What the parser writes to the box stream for a box row. *)
Definition box_row_text (row : list text) : text :=
  if text_eqb (join (txt " ") row) closed_pbc then []
  else join (txt " ") row ++ NL.

(* ================================================================== *)
(** ** Conversion entry points and the frame projection *)
(* ================================================================== *)

(** [os.path.basename]: what follows the last slash. *)
Fixpoint basename_from (cur : text) (p : text) : text :=
  match p with
  | [] => cur
  | c :: p' =>
      if Ascii.eqb c "/" then basename_from [] p'
      else basename_from (cur ++ [c]) p'
  end.

Definition basename (p : text) : text := basename_from [] p.

Definition isdot (c : ascii) : bool := Ascii.eqb c ".".

(** [os.path.splitext(b)[0]] for a base name: cut at the last dot, unless
    only dots precede it. *)
Definition splitext_root (b : text) : text :=
  let (_, rest) := span (fun c => negb (isdot c)) (rev b) in
  match rest with
  | [] => b
  | _ :: before_rev =>
      if existsb (fun c => negb (isdot c)) before_rev then rev before_rev
      else b
  end.

Definition label_name_of (path : text) : text :=
  splitext_root (basename path).

(** The loop of [generate_extxyz] that fills [labels]. *)
Fixpoint read_labels (fs : filesystem) (labels : label_table)
  (label_files : list text) : M label_table :=
  match label_files with
  | [] => ret labels
  | label_file :: rest =>
      values <- read_label_file fs label_file ;;
      read_labels fs (dict_set (label_name_of label_file) values labels) rest
  end.

Definition read_optional (fs : filesystem) (file : option text)
  : M (option rows) :=
  match file with
  | Some path => data <- read_file fs path ;; ret (Some data)
  | None => ret None
  end.

Section Projection.

(** [float(token)]: the floating-point type and its parser are those of
    the interpreter. *)
Variable float : Type.
Variable py_float : text -> option float.

Record frame_view := FrameView {
  view_frame : nat;
  view_atoms : list text;
  view_coords : list (list float)
}.

Definition to_float (tok : text) : M float :=
  match py_float tok with
  | Some x => ret x
  | None => raise ValueError (NotAFloat tok)
  end.

Definition project_frame (atom_types coordinates : rows) (i : nat)
  : M frame_view :=
  atoms <- getitem atom_types i ;;
  coords <- for_each
              (fun j =>
                 coord_row <- getitem coordinates i ;;
                 for_each to_float (slice coord_row (j * 3) ((j + 1) * 3)))
              (seq 0 (length atoms)) ;;
  ret (FrameView i atoms coords).

Definition project_frames (atom_types coordinates : rows)
  : M (list frame_view) :=
  for_each (project_frame atom_types coordinates)
    (seq 0 (length atom_types)).

(** [generate_xyz]: [None] when the content could not be generated,
    otherwise the text written to the output file and the frames. *)
Definition generate_xyz (fs : filesystem)
  (atom_types_file coordinates_file energies_file : text)
  : M (option (text * list frame_view)) :=
  atom_types <- read_file fs atom_types_file ;;
  coordinates <- read_file fs coordinates_file ;;
  energies <- read_file fs energies_file ;;
  validate_data_consistency atom_types coordinates energies None None [] ;;
  xyz_content <-
    try_except
      (c <- generate_xyz_content atom_types coordinates energies ;;
       ret (Some c))
      XyzContentError None ;;
  match xyz_content with
  | None => ret None
  | Some c =>
      frames <- project_frames atom_types coordinates ;;
      ret (Some (c, frames))
  end.

(** [generate_extxyz], as last defined in the module. *)
Definition generate_extxyz (fs : filesystem)
  (atom_types_file coordinates_file energies_file : text)
  (forces_file box_file : option text) (label_files : option (list text))
  (pbc_option : text) : M (option (text * list frame_view)) :=
  atom_types <- read_file fs atom_types_file ;;
  coordinates <- read_file fs coordinates_file ;;
  energies <- read_file fs energies_file ;;
  forces <- read_optional fs forces_file ;;
  box <- read_optional fs box_file ;;
  labels <-
    match label_files with
    | Some files => read_labels fs [] files
    | None => ret []
    end ;;
  validate_data_consistency atom_types coordinates energies forces box
    labels ;;
  extxyz_content <-
    try_except
      (c <- generate_extxyz_content atom_types coordinates energies forces
              box labels pbc_option ;;
       ret (Some c))
      ExtxyzContentError None ;;
  match extxyz_content with
  | None => ret None
  | Some c =>
      frames <- project_frames atom_types coordinates ;;
      ret (Some (c, frames))
  end.

End Projection.

(* ================================================================== *)
(** ** Extended trajectory parser *)
(* ================================================================== *)

(** The frames read so far and the frame being read. *)
Definition frame_scan := (list (list text) * list text)%type.

(** [if current_frame: frames.append(current_frame)]. *)
Definition flush (current_frame : list text) : list (list text) :=
  match current_frame with
  | [] => []
  | _ => [current_frame]
  end.

Definition push_line (st : frame_scan) (s : text) : frame_scan :=
  let (frames, current_frame) := st in
  if isdigit s then (frames ++ flush current_frame, [s])
  else (frames, current_frame ++ [s]).

(** The body of the loop over the lines of the file. *)
Definition scan_line (st : frame_scan) (line : text) : frame_scan :=
  push_line st (strip line).

Definition collect_frames (lines : list text) : list (list text) :=
  let (frames, current_frame) := fold_left scan_line lines ([], []) in
  frames ++ flush current_frame.

(** A frame as the serializer writes it: a line of digits, then lines
    that are not. *)
Definition frame_shape (frame : list text) : bool :=
  match frame with
  | [] => false
  | d :: rest => isdigit d && forallb (fun l => negb (isdigit l)) rest
  end.

(** [properties_str.split('=')[1].split(':')], each part split on [':']
    again. *)
Definition parse_properties (properties_str : text) : M (list (list text)) :=
  p <- getitem (split_on EQ properties_str) 1 ;;
  ret (map (split_on COLON) (split_on COLON p)).

(** A match of [(\w+)=([^ ]+)] anchored at the head of [s]: the longest
    run of word characters, an equals sign, the longest run of characters
    other than the space.  Giving back word characters cannot help, since
    the character after a shorter key is a word character and not the
    equals sign. *)
Definition match_label_at (s : text) : option (text * text) :=
  let (key, r) := span isword s in
  match key, r with
  | _ :: _, c :: r' =>
      if Ascii.eqb c EQ then
        let (value, _) := span notsp r' in
        match value with
        | [] => None
        | _ => Some (key, value)
        end
      else None
  | _, _ => None
  end.

(** What may follow a match of the label pattern: the end of the line, or
    a space. *)
Definition at_space (rest : text) : Prop :=
  match rest with
  | [] => True
  | c :: _ => c = SP
  end.

(** [re.findall]: leftmost matches, not overlapping; [skip] counts the
    characters of the current match still to be passed. *)
Fixpoint findall_labels_from (skip : nat) (s : text) : list (text * text) :=
  match s with
  | [] => []
  | _ :: s' =>
      match skip with
      | S k => findall_labels_from k s'
      | 0 =>
          match match_label_at s with
          | Some (key, value) =>
              (key, value)
              :: findall_labels_from (length key + length value) s'
          | None => findall_labels_from 0 s'
          end
      end
  end.

Definition findall_labels (line : text) : list (text * text) :=
  findall_labels_from 0 line.

Definition parse_labels (line : text) : dict text :=
  fold_left
    (fun labels kv =>
       let (key, value) := kv : text * text in
       if text_eqb key (txt "Properties") || text_eqb key (txt "pbc")
       then labels
       else dict_set key value labels)
    (findall_labels line) [].

(** A match of the pattern of [parse_pbc] anchored at the head of [s]:
    the prefix [pbc=], a double quote, the longest non-empty run of
    characters other than the double quote, and a closing double quote. *)
Definition match_pbc_at (s : text) : option text :=
  match strip_prefix (txt "pbc=" ++ [DQ]) s with
  | Some r =>
      let (value, r') := span notdq r in
      match value, r' with
      | _ :: _, _ :: _ => Some value
      | _, _ => None
      end
  | None => None
  end.

(** [re.search]: the leftmost match. *)
Fixpoint parse_pbc (line : text) : option text :=
  match match_pbc_at line with
  | Some v => Some v
  | None =>
      match line with
      | [] => None
      | _ :: line' => parse_pbc line'
      end
  end.

(** The working directory: file name to content.  Writing to a file
    opened for appending creates the file or extends it. *)
Fixpoint append_file (name data : text) (d : dict text) : dict text :=
  match d with
  | [] => [(name, data)]
  | (n, c) :: d' =>
      if text_eq_dec name n then (n, c ++ data) :: d'
      else (n, c) :: append_file name data d'
  end.

(** [with open(os.path.join(temp_dir, name), 'a') as f: f.write(data)].
    The file system refuses a name of more than [NAME_MAX] bytes; the
    message names the file, here without the directory. *)
Definition open_append (name data : text) (out : dict text) : M (dict text) :=
  if file_name_ok name then ret (append_file name data out)
  else raise OSError (FileNameTooLong name).

(** The loop over [labels.items()]: one file per label. *)
Fixpoint write_label_files (labels : dict text) (out : dict text)
  : M (dict text) :=
  match labels with
  | [] => ret out
  | (key, value) :: rest =>
      out' <- open_append (key ++ txt ".txt") (value ++ NL) out ;;
      write_label_files rest out'
  end.

(** Whether every label file of a frame can be opened. *)
Definition label_files_ok (labels : dict text) : bool :=
  forallb (fun kv : text * text => file_name_ok (fst kv ++ txt ".txt")) labels.

(** The working directory after the loop, when every file was opened. *)
Definition write_labels (labels : dict text) (out : dict text) : dict text :=
  fold_left
    (fun o kv => append_file (fst kv ++ txt ".txt") (snd kv ++ NL) o)
    labels out.

Definition energy_of (labels : dict text) : text :=
  match dict_get (txt "energy") labels with
  | Some e => e
  | None => []
  end.

(** [if pbc and pbc != "F F F"]. *)
Definition box_line_written (pbc : option text) : option text :=
  match pbc with
  | Some p =>
      match p with
      | [] => None
      | _ => if text_eqb p closed_pbc then None else Some p
      end
  | None => None
  end.

Definition write_box_file (pbc : option text) (out : dict text)
  : M (dict text) :=
  match box_line_written pbc with
  | Some p => open_append (txt "box.npy.txt") (p ++ NL) out
  | None => ret out
  end.

(** The working directory after the box line of a frame. *)
Definition write_box (pbc : option text) (out : dict text) : dict text :=
  match box_line_written pbc with
  | Some p => append_file (txt "box.npy.txt") (p ++ NL) out
  | None => out
  end.

(** What the metadata line of a frame adds to the box stream. *)
Definition box_text (properties_line : text) : text :=
  match box_line_written (parse_pbc properties_line) with
  | Some p => p ++ NL
  | None => []
  end.

(** One atom line: species, position tokens, force tokens. *)
Definition parse_atom_line (atom_line : text)
  : M (text * list text * list text) :=
  let atom_data := split_ws atom_line in
  sp <- getitem atom_data 0 ;;
  ret (sp, slice atom_data 1 4,
       if 4 <? length atom_data then slice atom_data 4 7 else []).

(** What a frame appends before its atom lines are read, when every file
    was opened: the label files, the energy stream, the box stream. *)
Definition write_header_streams (properties_line : text) (out : dict text)
  : dict text :=
  let labels := parse_labels properties_line in
  let pbc := parse_pbc properties_line in
  let out := write_labels labels out in
  let out := append_file (txt "energy.npy.txt") (energy_of labels ++ NL) out in
  write_box pbc out.

(** The writes that follow the loop over the atom lines: species,
    positions, and forces when there are any. *)
Definition write_atom_files (atoms : list (text * list text * list text))
  (out : dict text) : M (dict text) :=
  let species := map (fun a => fst (fst a)) atoms in
  let positions := concat (map (fun a => snd (fst a)) atoms) in
  let forces := concat (map (fun a => snd a) atoms) in
  out <- open_append (txt "real_atom_types.npy.txt")
           (join (txt " ") species ++ NL) out ;;
  out <- open_append (txt "coord.npy.txt")
           (join (txt " ") positions ++ NL) out ;;
  match forces with
  | [] => ret out
  | _ => open_append (txt "force.npy.txt") (join (txt " ") forces ++ NL) out
  end.

(** What a frame appends once its atom lines are read. *)
Definition write_atom_streams (atoms : list (text * list text * list text))
  (out : dict text) : dict text :=
  let species := map (fun a => fst (fst a)) atoms in
  let positions := concat (map (fun a => snd (fst a)) atoms) in
  let forces := concat (map (fun a => snd a) atoms) in
  let out :=
    append_file (txt "real_atom_types.npy.txt")
      (join (txt " ") species ++ NL) out in
  let out :=
    append_file (txt "coord.npy.txt") (join (txt " ") positions ++ NL) out in
  match forces with
  | [] => out
  | _ => append_file (txt "force.npy.txt") (join (txt " ") forces ++ NL) out
  end.

(** The body of the loop over the frames. *)
Definition process_frame (out : dict text) (frame : list text)
  : M (dict text) :=
  first <- getitem frame 0 ;;
  (if int_accepts first then ret tt
   else raise ValueError (int_error first)) ;;
  properties_line <- getitem frame 1 ;;
  parse_properties properties_line ;;
  let labels := parse_labels properties_line in
  let pbc := parse_pbc properties_line in
  out <- write_label_files labels out ;;
  out <- open_append (txt "energy.npy.txt") (energy_of labels ++ NL) out ;;
  out <- write_box_file pbc out ;;
  atoms <- for_each parse_atom_line (skipn 2 frame) ;;
  write_atom_files atoms out.

Fixpoint process_frames (out : dict text) (frames : list (list text))
  : M (dict text) :=
  match frames with
  | [] => ret out
  | frame :: rest =>
      out' <- process_frame out frame ;;
      process_frames out' rest
  end.

(** [split_extxyz] on the content of the uploaded file: the files of the
    archive, or [None] after an error. *)
Definition split_extxyz (content : text) : M (option (dict text)) :=
  try_except
    (out <- process_frames [] (collect_frames (file_lines content)) ;;
     ret (Some out))
    SplitError None.

(** The content of a stream of the archive; an absent file has no
    line. *)
Definition stream (name : text) (files : dict text) : text :=
  match dict_get name files with
  | Some c => c
  | None => []
  end.

(** The number of lines of a stream: every line is written with its
    terminator. *)
Definition line_count (s : text) : nat := count_occ ascii_dec s LF.

(** The line a frame adds to the file of label [name], given the labels
    of the frame: none when the frame has no such label. *)
Definition label_line_of (name : text) (kvs : dict text) : text :=
  match dict_get name kvs with
  | Some v => v ++ NL
  | None => []
  end.

(** What frame [i] of a written collection adds to the force stream and
    to the box stream. *)
Definition force_line (forces : option rows) (i : nat) : text :=
  match forces with
  | Some fs => join (txt " ") (nth i fs []) ++ NL
  | None => []
  end.

Definition box_line (pbc_option : text) (box : option rows) (i : nat)
  : text :=
  match box_line_written (Some (pbc_value pbc_option box i)) with
  | Some p => p ++ NL
  | None => []
  end.

(** The metadata line of a frame, the second line of the frame. *)
Definition frame_metadata (frame : list text) : text := nth 1 frame [].

(* ================================================================== *)
(** ** The core operations over a store of mutable objects *)
(* ================================================================== *)

(** The same four operations, written with the lists and dictionaries of
    the program as objects of a store: a list is extended in place by
    [append], a slice or a list display allocates, and two names may
    denote the same object.  The collections hold strings, as the readers
    produce them; using a value of another kind where the program formats
    or measures one is an error of the model. *)

Module Store.

Section WithFloat.

Variable float : Type.
Variable py_float : text -> option float.

Inductive value :=
| VNone
| VStr (s : text)
| VInt (n : nat)
| VFloat (x : float)
| VMsg (m : message)
| VRef (l : nat).

Inductive object :=
| OList (items : list value)
| ODict (entries : list (text * value)).

Definition heap := list object.

(** A computation over the store: the final store, what was printed,
    and the exception or the value.  The store reached when an exception
    is raised is kept. *)
Definition HM (A : Type) : Type := heap -> heap * M A.

Definition hret {A : Type} (a : A) : HM A := fun h => (h, ret a).

Definition hbind {A B : Type} (c : HM A) (k : A -> HM B) : HM B :=
  fun h =>
    match c h with
    | (h1, (log, inl e)) => (h1, (log, inl e))
    | (h1, (log, inr a)) =>
        match k a h1 with
        | (h2, (log2, r)) => (h2, (log ++ log2, r))
        end
    end.

Definition lift {A : Type} (m : M A) : HM A := fun h => (h, m).

Definition lookup (h : heap) (v : value) : option object :=
  match v with
  | VRef l => nth_error h l
  | _ => None
  end.

(** A list display, a dict display, a slice: a new object. *)
Definition alloc (o : object) : HM value :=
  fun h => (h ++ [o], ret (VRef (length h))).

Definition update (l : nat) (o : object) (h : heap) : heap :=
  firstn l h ++ o :: skipn (S l) h.

(** [len(v)]. *)
Definition list_len (v : value) : HM nat :=
  fun h =>
    (h,
     match v with
     | VStr s => ret (length s)
     | VRef l =>
         match nth_error h l with
         | Some (OList items) => ret (length items)
         | Some (ODict entries) => ret (length entries)
         | None => raise TypeError WrongType
         end
     | _ => raise TypeError NoneHasNoLen
     end).

(** [v[i]] on a list. *)
Definition list_get (v : value) (i : nat) : HM value :=
  fun h =>
    (h,
     match lookup h v with
     | Some (OList items) =>
         match nth_error items i with
         | Some x => ret x
         | None => raise IndexError ListIndexOutOfRange
         end
     | _ => raise TypeError WrongType
     end).

(** [v.append(x)]: the list object itself is changed. *)
Definition list_append (v x : value) : HM unit :=
  fun h =>
    match v with
    | VRef l =>
        match nth_error h l with
        | Some (OList items) => (update l (OList (items ++ [x])) h, ret tt)
        | _ => (h, raise TypeError WrongType)
        end
    | _ => (h, raise TypeError WrongType)
    end.

(** [v[a:b]]: a new list. *)
Definition list_slice (v : value) (a b : nat) : HM value :=
  fun h =>
    match lookup h v with
    | Some (OList items) =>
        (h ++ [OList (slice items a b)], ret (VRef (length h)))
    | _ => (h, raise TypeError WrongType)
    end.

(** The items of a list, for an iteration over it. *)
Definition list_items (v : value) : HM (list value) :=
  fun h =>
    (h,
     match lookup h v with
     | Some (OList items) => ret items
     | _ => raise TypeError WrongType
     end).

(** [v.items()]. *)
Definition dict_items (v : value) : HM (list (text * value)) :=
  fun h =>
    (h,
     match lookup h v with
     | Some (ODict entries) => ret entries
     | _ => raise TypeError WrongType
     end).

(** The text of a value inside a format string. *)
Definition str_of (v : value) : HM text :=
  lift
    match v with
    | VStr s => ret s
    | VNone => ret (txt "None")
    | VInt n => ret (str_of_nat n)
    | _ => raise TypeError WrongType
    end.

Declare Scope store_scope.
Delimit Scope store_scope with store.
Notation "x <- c ;; k" := (hbind c (fun x => k))
  (at level 61, c at next level, right associativity) : store_scope.
Notation "c ;; k" := (hbind c (fun _ => k))
  (at level 61, right associativity) : store_scope.
Local Open Scope store_scope.

(** [for x in l: body(x)]. *)
Fixpoint for_ {A : Type} (l : list A) (body : A -> HM unit) : HM unit :=
  match l with
  | [] => hret tt
  | x :: l' => body x ;; for_ l' body
  end.

(** A comprehension [[f(x) for x in l]], before the list is allocated. *)
Fixpoint collect {A B : Type} (f : A -> HM B) (l : list A) : HM (list B) :=
  match l with
  | [] => hret []
  | x :: l' => y <- f x ;; ys <- collect f l' ;; hret (y :: ys)
  end.

(** Building a string piece by piece: strings are values, not objects. *)
Fixpoint accumulate {A : Type} (f : A -> HM text) (l : list A) : HM text :=
  match l with
  | [] => hret []
  | x :: l' => s <- f x ;; rest <- accumulate f l' ;; hret (s ++ rest)
  end.

(** [sep.join(v)]: every item must be a string. *)
Definition join_list (sep : text) (v : value) : HM text :=
  items <- list_items v ;;
  strs <- collect
            (fun x => match x with
                      | VStr s => hret s
                      | _ => lift (raise TypeError WrongType)
                      end) items ;;
  hret (join sep strs).

(** [sep.join(map(str, v))]. *)
Definition join_str_list (sep : text) (v : value) : HM text :=
  items <- list_items v ;;
  strs <- collect str_of items ;;
  hret (join sep strs).

Definition is_none (v : value) : bool :=
  match v with
  | VNone => true
  | _ => false
  end.

(** [if n != num_frames: errors.append(m)]. *)
Definition check_count (errors : value) (n num_frames : nat) (m : message)
  : HM unit :=
  if n =? num_frames then hret tt else list_append errors (VMsg m).

Definition print_value (v : value) : HM unit :=
  match v with
  | VMsg m => lift (print m)
  | _ => lift (raise TypeError WrongType)
  end.

Definition validate_data_consistency
  (atom_types coordinates energies forces box labels : value) : HM unit :=
  num_frames <- list_len atom_types ;;
  errors <- alloc (OList []) ;;
  n <- list_len coordinates ;;
  check_count errors n num_frames
    (FrameCountMismatch Coordinates num_frames n) ;;
  n <- list_len energies ;;
  check_count errors n num_frames
    (FrameCountMismatch Energies num_frames n) ;;
  (if is_none forces then hret tt
   else
     n <- list_len forces ;;
     check_count errors n num_frames
       (FrameCountMismatch Forces num_frames n)) ;;
  (if is_none box then hret tt
   else
     n <- list_len box ;;
     check_count errors n num_frames (FrameCountMismatch Box num_frames n)) ;;
  items <- dict_items labels ;;
  for_ items
    (fun item =>
       n <- list_len (snd item) ;;
       check_count errors n num_frames
         (LabelCountMismatch (fst item) n num_frames)) ;;
  for_ (seq 0 num_frames)
    (fun i =>
       atoms <- list_get atom_types i ;;
       num_atoms <- list_len atoms ;;
       let expected_coord_length := num_atoms * 3 in
       coord <- list_get coordinates i ;;
       n <- list_len coord ;;
       check_count errors n expected_coord_length
         (CoordLengthMismatch i expected_coord_length n) ;;
       if is_none forces then hret tt
       else
         let expected_force_length := num_atoms * 3 in
         force <- list_get forces i ;;
         n <- list_len force ;;
         check_count errors n expected_force_length
           (ForceLengthMismatch i expected_force_length n)) ;;
  errs <- list_items errors ;;
  match errs with
  | [] => hret tt
  | _ =>
      for_ errs print_value ;;
      lift (raise ValueError ValidationFailed)
  end.

Definition generate_xyz_content (atom_types coordinates energies : value)
  : HM text :=
  num_frames <- list_len atom_types ;;
  content <- alloc (OList []) ;;
  for_ (seq 0 num_frames)
    (fun i =>
       atoms <- list_get atom_types i ;;
       num_atoms <- list_len atoms ;;
       lift (print (ProcessingFrame i num_atoms)) ;;
       n <- list_len energies ;;
       (if n <=? i then lift (raise IndexError (MissingEnergy i))
        else hret tt) ;;
       list_append content (VStr (txt "     " ++ str_of_nat num_atoms)) ;;
       energy_row <- list_get energies i ;;
       energy <- list_get energy_row 0 ;;
       e <- str_of energy ;;
       list_append content
         (VStr (txt " i = " ++ str_of_nat i ++ txt ", E = " ++ e)) ;;
       n <- list_len coordinates ;;
       (if n <=? i then lift (raise IndexError (MissingCoordinates i))
        else hret tt) ;;
       coord_row <- list_get coordinates i ;;
       n <- list_len coord_row ;;
       (if negb (n =? num_atoms * 3)
        then lift (raise ValueError
                     (CoordLengthMismatch i (num_atoms * 3) n))
        else hret tt) ;;
       for_ (seq 0 num_atoms)
         (fun j =>
            atoms <- list_get atom_types i ;;
            n <- list_len atoms ;;
            (if n <=? j then lift (raise IndexError (MissingAtomType i j))
             else hret tt) ;;
            atom <- list_get atoms j ;;
            let coord_start := j * 3 in
            let coord_end := (j + 1) * 3 in
            coord_row <- list_get coordinates i ;;
            n <- list_len coord_row ;;
            (if n <? coord_end
             then lift (raise IndexError (IncompleteCoordinates i j))
             else hret tt) ;;
            coord <- list_slice coord_row coord_start coord_end ;;
            a <- str_of atom ;;
            c <- join_list (txt " ") coord ;;
            list_append content (VStr (a ++ txt " " ++ c)))) ;;
  join_list NL content.

(** The value of a label in frame [i], as written. *)
Definition render_value (v : value) : HM text :=
  value <-
    match v with
    | VStr [] => hret (txt "None")
    | VStr s => hret s
    | VRef _ => join_list (txt " ") v
    | _ => lift (raise TypeError WrongType)
    end ;;
  hret (replace_space value).

Definition label_token (i : nat) (item : text * value) : HM text :=
  let (label, values) := item in
  if is_none values then
    lift (print (MissingLabelValue i label)) ;; hret []
  else
    n <- list_len values ;;
    if i <? n then
      v <- list_get values i ;;
      fvalue <- render_value v ;;
      hret (txt " " ++ label ++ [EQ] ++ fvalue)
    else lift (print (MissingLabelValue i label)) ;; hret [].

Definition pbc_token (pbc_option : text) (box : value) (i : nat) : HM text :=
  if text_eqb pbc_option (txt "box") && negb (is_none box) then
    n <- list_len box ;;
    if i <? n then
      row <- list_get box i ;;
      join_list (txt " ") row
    else hret closed_pbc
  else hret closed_pbc.

Definition generate_extxyz_content
  (atom_types coordinates energies forces box labels : value)
  (pbc_option : text) : HM text :=
  num_frames <- list_len atom_types ;;
  content <- alloc (OList []) ;;
  for_ (seq 0 num_frames)
    (fun i =>
       atoms <- list_get atom_types i ;;
       num_atoms <- list_len atoms ;;
       lift (print (ProcessingFrame i num_atoms)) ;;
       n <- list_len energies ;;
       (if n <=? i then lift (raise IndexError (MissingEnergy i))
        else hret tt) ;;
       list_append content (VStr (str_of_nat num_atoms)) ;;
       let properties :=
         txt "Properties=species:S:1:pos:R:3"
         ++ (if is_none forces then [] else txt ":forces:R:3") in
       items <- dict_items labels ;;
       label_part <- accumulate (label_token i) items ;;
       energy_row <- list_get energies i ;;
       energy <- list_get energy_row 0 ;;
       e <- str_of energy ;;
       pbc_value <- pbc_token pbc_option box i ;;
       list_append content
         (VStr (properties ++ label_part ++ txt " energy=" ++ e
                ++ txt " pbc=" ++ [DQ] ++ pbc_value ++ [DQ])) ;;
       let expected_coord_length := num_atoms * 3 in
       coord_row <- list_get coordinates i ;;
       n <- list_len coord_row ;;
       (if negb (n =? expected_coord_length)
        then lift (raise ValueError
                     (CoordLengthMismatch i expected_coord_length n))
        else hret tt) ;;
       (if is_none forces then hret tt
        else
          let expected_force_length := num_atoms * 3 in
          force_row <- list_get forces i ;;
          n <- list_len force_row ;;
          if negb (n =? expected_force_length)
          then lift (raise ValueError
                       (ForceLengthMismatch i expected_force_length n))
          else hret tt) ;;
       for_ (seq 0 num_atoms)
         (fun j =>
            atoms <- list_get atom_types i ;;
            n <- list_len atoms ;;
            (if n <=? j then lift (raise IndexError (MissingAtomType i j))
             else hret tt) ;;
            atom <- list_get atoms j ;;
            let coord_start := j * 3 in
            let coord_end := (j + 1) * 3 in
            coord_row <- list_get coordinates i ;;
            n <- list_len coord_row ;;
            (if n <? coord_end
             then lift (raise IndexError (IncompleteCoordinates i j))
             else hret tt) ;;
            coord <- list_slice coord_row coord_start coord_end ;;
            a <- str_of atom ;;
            c <- join_str_list (txt " ") coord ;;
            let line := a ++ txt " " ++ c in
            line <-
              (if is_none forces then hret line
               else
                 let force_start := j * 3 in
                 let force_end := (j + 1) * 3 in
                 force_row <- list_get forces i ;;
                 n <- list_len force_row ;;
                 (if n <? force_end
                  then lift (raise IndexError (IncompleteForces i j))
                  else hret tt) ;;
                 force <- list_slice force_row force_start force_end ;;
                 f <- join_str_list (txt " ") force ;;
                 hret (line ++ txt " " ++ f)) ;;
            list_append content (VStr line))) ;;
  join_list NL content.

Definition to_float (v : value) : HM value :=
  match v with
  | VStr s =>
      match py_float s with
      | Some x => hret (VFloat x)
      | None => lift (raise ValueError (NotAFloat s))
      end
  | _ => lift (raise TypeError WrongType)
  end.

(** The loop that builds [frames] in [generate_xyz] and
    [generate_extxyz]: the dictionary of a frame refers to the row
    [atom_types[i]] itself. *)
Definition project_frames (atom_types coordinates : value) : HM value :=
  frames <- alloc (OList []) ;;
  num_frames <- list_len atom_types ;;
  for_ (seq 0 num_frames)
    (fun i =>
       atoms <- list_get atom_types i ;;
       atoms' <- list_get atom_types i ;;
       num_atoms <- list_len atoms' ;;
       triples <-
         collect
           (fun j =>
              coord_row <- list_get coordinates i ;;
              coord <- list_slice coord_row (j * 3) ((j + 1) * 3) ;;
              items <- list_items coord ;;
              floats <- collect to_float items ;;
              alloc (OList floats))
           (seq 0 num_atoms) ;;
       coords <- alloc (OList triples) ;;
       frame <- alloc (ODict [ (txt "frame", VInt i);
                               (txt "atoms", atoms);
                               (txt "coords", coords) ]) ;;
       list_append frames frame) ;;
  hret frames.

(** [keeps n c Q]: run in a store of at least [n] objects, [c] leaves the
    first [n] unchanged, and a value it returns satisfies [Q]. *)
Definition keeps {A : Type} (n : nat) (c : HM A) (Q : A -> Prop) : Prop :=
  forall h,
    n <= length h ->
    n <= length (fst (c h))
    /\ firstn n (fst (c h)) = firstn n h
    /\ forall a, snd (snd (c h)) = inr a -> Q a.

(** A reference to an object allocated after the first [n]. *)
Definition fresh (n : nat) (v : value) : Prop :=
  exists l, v = VRef l /\ n <= l.

End WithFloat.

Arguments VNone {float}.
Arguments VStr {float} s.
Arguments VInt {float} n.
Arguments VMsg {float} m.
Arguments VRef {float} l.

End Store.

(* ================================================================== *)
(** ** When the serializers and the parser return *)
(* ================================================================== *)

(** A line that [read_file] and [read_label_file] skip. *)
Definition blank (line : text) : bool :=
  match strip line with
  | [] => true
  | _ => false
  end.

(** A row that is not empty: the line of an empty row is blank. *)
Definition nonempty_row (row : list text) : bool :=
  match row with
  | [] => false
  | _ => true
  end.

(** What the plain serializer writes for a frame it accepts. *)
Definition xyz_frame_text (atom_types coordinates energies : rows) (i : nat)
  : list text :=
  let atoms := nth i atom_types [] in
  (txt "     " ++ str_of_nat (length atoms))
  :: (txt " i = " ++ str_of_nat i ++ txt ", E = "
      ++ first_token (nth i energies []))
  :: atom_lines_text atoms (nth i coordinates []) None.

Definition xyz_text (atom_types coordinates energies : rows) : text :=
  join NL
    (concat
       (map (xyz_frame_text atom_types coordinates energies)
          (seq 0 (length atom_types)))).

(** The line both serializers print when they reach frame [i]. *)
Definition progress (atom_types : rows) (i : nat) : event :=
  Printed (ProcessingFrame i (length (nth i atom_types []))).

(** The exception the plain serializer raises in frame [i], if any: the
    checks in the order of the code. *)
Definition xyz_frame_error (atom_types coordinates energies : rows)
  (i : nat) : option exn :=
  match nth_error energies i with
  | None => Some (Exn IndexError (MissingEnergy i))
  | Some [] => Some (Exn IndexError ListIndexOutOfRange)
  | Some (_ :: _) =>
      match nth_error coordinates i with
      | None => Some (Exn IndexError (MissingCoordinates i))
      | Some coord_row =>
          let expected := length (nth i atom_types []) * 3 in
          if length coord_row =? expected then None
          else Some (Exn ValueError
                       (CoordLengthMismatch i expected (length coord_row)))
      end
  end.

(** The first frame of [l] in which [err] gives an exception. *)
Fixpoint first_failure (err : nat -> option exn) (l : list nat)
  : option (nat * exn) :=
  match l with
  | [] => None
  | i :: l' =>
      match err i with
      | Some e => Some (i, e)
      | None => first_failure err l'
      end
  end.

(** The warnings of the extended serializer in frame [i]: one per label
    without a value for the frame. *)
Definition label_warnings (labels : label_table) (i : nat) : list event :=
  map (fun l : text * option (list label_value) =>
         Printed (MissingLabelValue i (fst l)))
    (filter (fun l : text * option (list label_value) =>
               match label_value_at (snd l) i with
               | Some _ => false
               | None => true
               end) labels).

(** What the extended serializer prints in frame [i]: the labels are not
    reached when the energy row is missing. *)
Definition extxyz_frame_log (atom_types energies : rows)
  (labels : label_table) (i : nat) : list event :=
  progress atom_types i
  :: (if length energies <=? i then [] else label_warnings labels i).

(** The exception the extended serializer raises in frame [i], if any. *)
Definition extxyz_frame_error (atom_types coordinates energies : rows)
  (forces : option rows) (i : nat) : option exn :=
  let expected := length (nth i atom_types []) * 3 in
  match nth_error energies i with
  | None => Some (Exn IndexError (MissingEnergy i))
  | Some [] => Some (Exn IndexError ListIndexOutOfRange)
  | Some (_ :: _) =>
      match nth_error coordinates i with
      | None => Some (Exn IndexError ListIndexOutOfRange)
      | Some coord_row =>
          if negb (length coord_row =? expected)
          then Some (Exn ValueError
                       (CoordLengthMismatch i expected (length coord_row)))
          else
            match forces with
            | Some fs =>
                match nth_error fs i with
                | Some force_row =>
                    if length force_row =? expected then None
                    else Some (Exn ValueError
                                 (ForceLengthMismatch i expected
                                    (length force_row)))
                | None => Some (Exn IndexError ListIndexOutOfRange)
                end
            | None => None
            end
      end
  end.

(** What the parser needs of a frame: a first line that [int] accepts, a
    second line with an equals sign whose labels have file names the file
    system accepts, and no atom line without a token. *)
Definition atom_line_ok (atom_line : text) : bool :=
  match split_ws atom_line with
  | [] => false
  | _ => true
  end.

Definition frame_wellformed (frame : list text) : bool :=
  match frame with
  | first :: properties_line :: atom_lines =>
      int_accepts first
      && existsb (fun c => Ascii.eqb c EQ) properties_line
      && label_files_ok (parse_labels properties_line)
      && forallb atom_line_ok atom_lines
  | _ => false
  end.

(** The species, the position tokens and the force tokens the parser
    takes from the atom lines of a frame. *)
Definition frame_species (frame : list text) : list text :=
  map (fun l => hd [] (split_ws l)) (skipn 2 frame).

Definition frame_positions (frame : list text) : list text :=
  concat (map (fun l => slice (split_ws l) 1 4) (skipn 2 frame)).

Definition frame_forces (frame : list text) : list text :=
  concat
    (map (fun l =>
            let atom_data := split_ws l in
            if 4 <? length atom_data then slice atom_data 4 7 else [])
       (skipn 2 frame)).

(* ================================================================== *)
(** ** Entry-point wrappers and the frame viewer *)
(* ================================================================== *)

Definition notslash (c : ascii) : bool := negb (Ascii.eqb c "/").

Definition notdot (c : ascii) : bool := negb (isdot c).

(** The order of [str]: by code point, a proper prefix first. *)
Fixpoint text_ltb (a b : text) : bool :=
  match a, b with
  | [], [] => false
  | [], _ :: _ => true
  | _ :: _, [] => false
  | x :: a', y :: b' =>
      if nat_of_ascii x <? nat_of_ascii y then true
      else if nat_of_ascii y <? nat_of_ascii x then false
      else text_ltb a' b'
  end.

Fixpoint insert_sorted (x : text) (l : list text) : list text :=
  match l with
  | [] => [x]
  | y :: l' =>
      if text_ltb x y then x :: l
      else if text_ltb y x then y :: insert_sorted x l'
      else l
  end.

(** [sorted(set(atoms))]: the distinct elements, in increasing order. *)
Definition sorted_set (atoms : list text) : list text :=
  fold_right insert_sorted [] atoms.

Definition colors : list text :=
  map txt ["red"; "green"; "blue"; "yellow"; "purple"; "orange"; "cyan";
           "magenta"; "lime"; "pink"]%string.

(** The loop that fills [color_map], from index [i] on. *)
Fixpoint assign_colors (i : nat) (species : list text) (color_map : dict text)
  : dict text :=
  match species with
  | [] => color_map
  | atom :: rest =>
      assign_colors (S i) rest
        (dict_set atom (nth (i mod length colors) colors []) color_map)
  end.

(** [color_map.get(atom, 'gray')]. *)
Definition color_of (color_map : dict text) (atom : text) : text :=
  match dict_get atom color_map with
  | Some c => c
  | None => txt "gray"
  end.

Section Viewer.

Variable float : Type.
Variable py_float : text -> option float.

(** The exception of [float] on a token of [tokens] that is not a
    number. *)
Definition not_a_float (tokens : list text) (e : exn) : Prop :=
  exists bad, e = Exn ValueError (NotAFloat bad)
              /\ py_float bad = None /\ In bad tokens.

(** [xyz_path, frames = generate_xyz(...)]: unpacking [None] raises
    [TypeError]. *)
Definition generate_xyz_wrapper (fs : filesystem)
  (atom_types_file coordinates_file energies_file : text)
  : M (text * list (frame_view float)) :=
  r <- generate_xyz py_float fs atom_types_file coordinates_file
         energies_file ;;
  match r with
  | Some (xyz_path, frames) => ret (xyz_path, frames)
  | None => raise TypeError WrongType
  end.

(** A marker of the figure: [go.Scatter3d] with one point. *)
Record trace := Trace {
  trace_x : float;
  trace_y : float;
  trace_z : float;
  trace_mode : text;
  marker_size : nat;
  marker_color : text;
  trace_name : text
}.

Record layout := Layout {
  layout_title : text;
  xaxis_title : text;
  yaxis_title : text;
  zaxis_title : text;
  aspectmode : text;
  showlegend : bool
}.

(** [go.Figure()] has no trace and no layout of its own. *)
Record figure := Figure {
  figure_traces : list trace;
  figure_layout : option layout
}.

Definition add_trace (color_map : dict text)
  (atom_coord : text * list float) : M trace :=
  let (atom, coord) := atom_coord in
  x <- getitem coord 0 ;;
  y <- getitem coord 1 ;;
  z <- getitem coord 2 ;;
  ret (Trace x y z (txt "markers") 5 (color_of color_map atom) atom).

Definition visualize_frame (frame_number : Z)
  (frames : list (frame_view float)) : M figure :=
  if ((frame_number <? 0) || (Z.of_nat (length frames) <=? frame_number))%Z
  then ret (Figure [] None)
  else
    frame <- getitem frames (Z.to_nat frame_number) ;;
    let atoms := view_atoms frame in
    let coords := view_coords frame in
    let color_map := assign_colors 0 (sorted_set atoms) [] in
    traces <- for_each (add_trace color_map) (combine atoms coords) ;;
    ret (Figure traces
           (Some (Layout (txt "Frame " ++ str_of_nat (Z.to_nat frame_number))
                    (txt "X") (txt "Y") (txt "Z") (txt "data") false))).

End Viewer.

(* ================================================================== *)
(** ** Properties *)
(* ================================================================== *)

(** *** Computations *)

Lemma bind_ret_l {A B : Type} (a : A) (k : A -> M B) : bind (ret a) k = k a.
Proof. unfold bind, ret. destruct (k a). reflexivity. Qed.

Lemma bind_pure {A B : Type} (a : A) (k : A -> M B) :
  bind ([], inr a) k = k a.
Proof. exact (bind_ret_l a k). Qed.

Lemma bind_val_ret {A B : Type} l (a : A) (f : A -> B) :
  bind (l, inr a) (fun x => ret (f x)) = (l, inr (f a)).
Proof. unfold bind, ret. rewrite app_nil_r. reflexivity. Qed.

Lemma bind_ok_inv {A B : Type} (c : M A) (k : A -> M B) log b :
  bind c k = (log, inr b) ->
  exists l1 a l2, c = (l1, inr a) /\ k a = (l2, inr b) /\ log = l1 ++ l2.
Proof.
  unfold bind. destruct c as [l1 [e | a]]; [discriminate |].
  destruct (k a) as [l2 r] eqn:Hk. intros H. inversion H; subst.
  exists l1, a, l2. auto.
Qed.

Lemma bind_ok {A B : Type} (c : M A) (k : A -> M B) l1 a l2 b :
  c = (l1, inr a) -> k a = (l2, inr b) -> bind c k = (l1 ++ l2, inr b).
Proof. intros -> Hk. unfold bind. rewrite Hk. reflexivity. Qed.

Lemma bind_raise_l {A B : Type} (c : M A) (k : A -> M B) l e :
  c = (l, inl e) -> bind c k = (l, inl e).
Proof. intros ->. reflexivity. Qed.

Lemma bind_raise_r {A B : Type} (c : M A) (k : A -> M B) l1 a l2 e :
  c = (l1, inr a) -> k a = (l2, inl e) -> bind c k = (l1 ++ l2, inl e).
Proof. intros -> Hk. unfold bind. rewrite Hk. reflexivity. Qed.

(** Inversion of a successful computation, step by step: the value of the
    first part, how it was obtained, and the rest. *)
Tactic Notation "bind_inv" hyp(H) "as"
  simple_intropattern(a) simple_intropattern(H1) simple_intropattern(H2) :=
  let l1 := fresh "l" in
  let l2 := fresh "l" in
  let E := fresh "Elog" in
  apply bind_ok_inv in H as (l1 & a & l2 & H1 & H2 & E).

Lemma getitem_ok_inv {A : Type} (l : list A) i log x :
  getitem l i = (log, inr x) -> nth_error l i = Some x /\ log = [].
Proof.
  unfold getitem. destruct (nth_error l i); simpl; intros H; inversion H; auto.
Qed.

Lemma getitem_some {A : Type} (l : list A) i x :
  nth_error l i = Some x -> getitem l i = ret x.
Proof. unfold getitem. intros ->. reflexivity. Qed.

Lemma getitem_none {A : Type} (l : list A) i :
  nth_error l i = None -> getitem l i = raise IndexError ListIndexOutOfRange.
Proof. unfold getitem. intros ->. reflexivity. Qed.

Lemma ret_inv {A : Type} (a b : A) log : ret a = (log, inr b) -> a = b /\ log = [].
Proof. unfold ret. intros H. inversion H. auto. Qed.

(** *** The metadata line of the extended serializer *)

Lemma metadata_line_inv energies forces box labels pbc_option i log line :
  metadata_line energies forces box labels pbc_option i = (log, inr line) ->
  exists label_part energy_row energy,
    label_tokens i labels = (log, inr label_part) /\
    nth_error energies i = Some energy_row /\
    nth_error energy_row 0 = Some energy /\
    line = properties_token forces ++ label_part
           ++ txt " energy=" ++ energy
           ++ txt " pbc=" ++ [DQ] ++ pbc_value pbc_option box i ++ [DQ].
Proof.
  unfold metadata_line. intros H.
  bind_inv H as lp Hlp H. bind_inv H as er Her H. bind_inv H as e He H.
  apply getitem_ok_inv in Her as [Hrow ->].
  apply getitem_ok_inv in He as [He ->].
  apply ret_inv in H as [<- ->].
  subst. rewrite !app_nil_r.
  exists lp, er, e. auto.
Qed.

Lemma extxyz_frame_inv atom_types coordinates energies forces box labels
  pbc_option i log lines :
  extxyz_frame atom_types coordinates energies forces box labels pbc_option i
  = (log, inr lines) ->
  exists atoms mlog line atom_lines,
    nth_error atom_types i = Some atoms /\
    metadata_line energies forces box labels pbc_option i
    = (mlog, inr line) /\
    lines = str_of_nat (length atoms) :: line :: atom_lines.
Proof.
  unfold extxyz_frame. intros H.
  bind_inv H as atoms Hatoms H. apply getitem_ok_inv in Hatoms as [Hatoms _].
  bind_inv H as ? _ H.
  destruct (length energies <=? i); [discriminate |].
  bind_inv H as line Hline H. bind_inv H as crow _ H.
  destruct (negb _); [discriminate |].
  bind_inv H as frow _ H. bind_inv H as atom_lines _ H.
  apply ret_inv in H as [<- _].
  exists atoms. do 3 eexists. repeat split; eauto.
Qed.

(** C6. PBC mode selection: in every frame the serializer emits, the
    metadata line ends with the quoted pbc token; with mode [fff] the token
    is the closed-boundary default whatever the box data; with mode [box]
    and a box row for the frame it is that row joined with spaces; with
    mode [box] and no box row for the frame (no box at all, or fewer rows)
    it falls back to the default. *)
Theorem pbc_mode_selection :
  forall atom_types coordinates energies forces box labels pbc_option i
         log lines,
    extxyz_frame atom_types coordinates energies forces box labels
      pbc_option i = (log, inr lines) ->
    exists count prefix token atom_lines,
      lines = count :: (prefix ++ txt " pbc=" ++ [DQ] ++ token ++ [DQ])
                    :: atom_lines /\
      (pbc_option = txt "fff" -> token = txt "F F F") /\
      (pbc_option = txt "box" ->
       forall b row, box = Some b -> nth_error b i = Some row ->
                     token = join (txt " ") row) /\
      (pbc_option = txt "box" ->
       box = None \/ (exists b, box = Some b /\ nth_error b i = None) ->
       token = txt "F F F").
Proof.
  intros * H.
  apply extxyz_frame_inv in H as (atoms & mlog & line & atom_lines & _ & Hm & ->).
  apply metadata_line_inv in Hm as (lp & er & e & _ & _ & _ & ->).
  exists (str_of_nat (length atoms)),
         (properties_token forces ++ lp ++ txt " energy=" ++ e),
         (pbc_value pbc_option box i), atom_lines.
  split; [| split; [| split]].
  - f_equal. f_equal. rewrite <- !app_assoc. reflexivity.
  - intros ->. reflexivity.
  - intros -> b row -> Hrow. unfold pbc_value. simpl. rewrite Hrow.
    reflexivity.
  - intros -> [-> | (b & -> & Hnone)]; unfold pbc_value; simpl;
      [| rewrite Hnone]; reflexivity.
Qed.

Lemma pbc_mode_selection_witness :
  exists count prefix token atom_lines,
    [txt "1";
     txt "Properties=species:S:1:pos:R:3 energy=-1.5 pbc="
     ++ [DQ] ++ txt "10 0 0 0 10 0 0 0 10" ++ [DQ];
     txt "H 0.0 0.5 1.0"]
    = count :: (prefix ++ txt " pbc=" ++ [DQ] ++ token ++ [DQ]) :: atom_lines /\
    (txt "box" = txt "fff" -> token = txt "F F F") /\
    (txt "box" = txt "box" ->
     forall b row,
       Some [map txt ["10"; "0"; "0"; "0"; "10"; "0"; "0"; "0"; "10"]%string]
       = Some b ->
       nth_error b 0 = Some row -> token = join (txt " ") row) /\
    (txt "box" = txt "box" ->
     Some [map txt ["10"; "0"; "0"; "0"; "10"; "0"; "0"; "0"; "10"]%string]
     = None \/
     (exists b,
        Some [map txt ["10"; "0"; "0"; "0"; "10"; "0"; "0"; "0"; "10"]%string]
        = Some b /\ nth_error b 0 = None) ->
     token = txt "F F F").
Proof.
  apply (@pbc_mode_selection
           [[txt "H"]] [map txt ["0.0"; "0.5"; "1.0"]%string] [[txt "-1.5"]]
           None
           (Some [map txt ["10"; "0"; "0"; "0"; "10"; "0"; "0"; "0"; "10"]%string])
           [] (txt "box") 0 [Printed (ProcessingFrame 0 1)]).
  reflexivity.
Defined.

(** What the loop over the labels adds to the metadata line of frame [i],
    label by label: a token for a label that has a value in this frame,
    nothing for one that has none. *)
Lemma label_tokens_eq i (labels : label_table) :
  label_tokens i labels
  = (map (fun l => Printed (MissingLabelValue i (fst l)))
       (filter (fun l => match label_value_at (snd l) i with
                         | Some _ => false
                         | None => true
                         end) labels),
     inr (concat
            (map (fun l => match label_value_at (snd l) i with
                           | Some v =>
                               txt " " ++ fst l ++ [EQ] ++ render_label_value v
                           | None => []
                           end) labels))).
Proof.
  induction labels as [| [label values] rest IH]; [reflexivity |].
  cbn [label_tokens map filter concat fst snd]. rewrite IH.
  destruct (label_value_at values i).
  - rewrite bind_ret_l, bind_val_ret. reflexivity.
  - cbn. rewrite app_nil_r. reflexivity.
Qed.

Lemma replace_space_no_space s : ~ In SP (replace_space s).
Proof.
  unfold replace_space. intros H. apply in_map_iff in H as (c & Hc & _).
  destruct (Ascii.eqb c SP) eqn:E; [discriminate |].
  apply Ascii.eqb_neq in E. congruence.
Qed.

Lemma replace_space_nth s k :
  nth_error (replace_space s) k
  = option_map (fun c => if Ascii.eqb c SP then USCORE else c) (nth_error s k).
Proof. unfold replace_space. apply nth_error_map. Qed.

(** C5, the claim as stated fails: a label whose sequence has no value for
    frame 0 is not written as [lab=None]; the metadata line carries no
    token for it and a warning is printed. *)
Lemma absent_label_value_is_omitted :
  exists line,
    metadata_line [[txt "-1.5"]] None None [(txt "lab", Some [])]
      (txt "fff") 0
    = ([Printed (MissingLabelValue 0 (txt "lab"))], inr line)
    /\ line = txt "Properties=species:S:1:pos:R:3 energy=-1.5 pbc="
               ++ [DQ] ++ txt "F F F" ++ [DQ]
    /\ line <> txt "Properties=species:S:1:pos:R:3 lab=None energy=-1.5 pbc="
                ++ [DQ] ++ txt "F F F" ++ [DQ].
Proof.
  eexists. split; [reflexivity |]. split; [reflexivity | discriminate].
Qed.

(** *** The plain serializer on the scenario of the specification *)

(** C7. On two frames [H O] and [H H O], with six and nine coordinate
    tokens and one energy token per frame, the plain serializer returns
    two frames in order: the atom count (2, then 3, after five spaces of
    padding), the comment line [ i = k, E = energy] and one line
    [species x y z] per atom in input order, all joined by newlines. *)
Theorem plain_serializer_scenario :
  forall x1 y1 z1 x2 y2 z2 x3 y3 z3 x4 y4 z4 x5 y5 z5 e0 e1 : text,
    generate_xyz_content
      [[txt "H"; txt "O"]; [txt "H"; txt "H"; txt "O"]]
      [[x1; y1; z1; x2; y2; z2]; [x3; y3; z3; x4; y4; z4; x5; y5; z5]]
      [[e0]; [e1]]
    = ([Printed (ProcessingFrame 0 2); Printed (ProcessingFrame 1 3)],
       inr (join NL
              [ txt "     2";
                txt " i = 0, E = " ++ e0;
                txt "H " ++ join (txt " ") [x1; y1; z1];
                txt "O " ++ join (txt " ") [x2; y2; z2];
                txt "     3";
                txt " i = 1, E = " ++ e1;
                txt "H " ++ join (txt " ") [x3; y3; z3];
                txt "H " ++ join (txt " ") [x4; y4; z4];
                txt "O " ++ join (txt " ") [x5; y5; z5] ])).
Proof. intros. reflexivity. Qed.

(** *** The validator on collections shorter than [atom_types] *)

(** C2, failing input.  [atom_types] has two frames, [coordinates] one,
    [energies] two.  The frame-count violation of [coordinates] is
    accumulated, but the loop over the frames then reads [coordinates[1]]:
    the validator stops with the interpreter's [IndexError], nothing of the
    accumulated list is printed and the [ValueError] of the validator is
    not raised. *)
Theorem validator_drops_violations_on_short_coordinates :
  count_check Coordinates 2 (Some [map txt ["0"; "0"; "0"]%string])
  = [FrameCountMismatch Coordinates 2 1]
  /\ validate_data_consistency
       [[txt "H"]; [txt "H"]]
       [map txt ["0"; "0"; "0"]%string]
       [[txt "-1"]; [txt "-2"]]
       None None []
     = ([], inl (Exn IndexError ListIndexOutOfRange)).
Proof. split; reflexivity. Qed.

(** C3, failing input.  Frame 0 has one atom and two coordinate tokens;
    [coordinates] has two rows for three frames.  The violation of frame 0
    is accumulated, then [coordinates[2]] raises: the validator stops with
    the interpreter's [IndexError] and the violation naming frame 0 is
    never reported. *)
Theorem validator_drops_frame_violation :
  frame_length_checks
    [[txt "H"]; [txt "H"]; [txt "H"]]
    [map txt ["0"; "0"]%string; map txt ["0"; "0"; "0"]%string]
    None 0
  = ([], inr [CoordLengthMismatch 0 3 2])
  /\ validate_data_consistency
       [[txt "H"]; [txt "H"]; [txt "H"]]
       [map txt ["0"; "0"]%string; map txt ["0"; "0"; "0"]%string]
       [[txt "-1"]; [txt "-2"]; [txt "-3"]]
       None None []
     = ([], inl (Exn IndexError ListIndexOutOfRange)).
Proof. split; reflexivity. Qed.

(** *** A label file that does not exist *)

Lemma read_rows_returns file_path lines :
  forall line_num, exists log data,
    read_rows file_path line_num lines = (log, inr data).
Proof.
  induction lines as [| line rest IH]; intros n; simpl.
  - do 2 eexists. reflexivity.
  - destruct (IH (S n)) as (log & data & E). rewrite E.
    destruct (strip line); simpl; do 2 eexists; reflexivity.
Qed.

Lemma read_file_returns fs file_path content :
  fs file_path = Some content ->
  exists log data, read_file fs file_path = (log, inr data).
Proof.
  unfold read_file. intros ->. apply read_rows_returns.
Qed.

Lemma read_label_file_absent fs file_path :
  fs file_path = None ->
  read_label_file fs file_path
  = ([Printed (FileDoesNotExist file_path)], inr None).
Proof. unfold read_label_file. intros ->. reflexivity. Qed.

(** C4, the general fact behind the failing input.  The label reader
    returns the absent result for a path that does not exist, with a
    warning; but the conversion that was given this one label file then
    stops in the validator, which takes the length of the absent
    sequence: [generate_extxyz] raises [TypeError] and produces
    nothing. *)
Lemma missing_label_file_stops_conversion
  (float : Type) (py_float : text -> option float) (fs : filesystem)
  (atom_types_file coordinates_file energies_file label_file : text)
  (pbc_option : text) ta tc te :
  fs atom_types_file = Some ta ->
  fs coordinates_file = Some tc ->
  fs energies_file = Some te ->
  fs label_file = None ->
  exists log,
    generate_extxyz py_float fs atom_types_file coordinates_file
      energies_file None None (Some [label_file]) pbc_option
    = (log, inl (Exn TypeError NoneHasNoLen)).
Proof.
  intros Ha Hc He Hl.
  destruct (read_file_returns fs _ Ha) as (la & da & Ea).
  destruct (read_file_returns fs _ Hc) as (lc & dc & Ec).
  destruct (read_file_returns fs _ He) as (le & de & Ee).
  unfold generate_extxyz. rewrite Ea, Ec, Ee.
  cbn [read_optional read_labels]. rewrite (read_label_file_absent fs _ Hl).
  cbn. eexists. reflexivity.
Qed.

(** C4, failing input.  Three readable column files and one label file
    path that does not exist: the reader returns the absent result with a
    warning, and the conversion does not complete. *)
Theorem missing_label_file_aborts :
  forall (float : Type) (py_float : text -> option float),
    let fs : filesystem := fun path =>
      if text_eqb path (txt "real_atom_types.npy.txt") then Some (txt "H")
      else if text_eqb path (txt "coord.npy.txt") then Some (txt "0 0 0")
      else if text_eqb path (txt "energy.npy.txt") then Some (txt "-1.5")
      else None in
    read_label_file fs (txt "charge.txt")
    = ([Printed (FileDoesNotExist (txt "charge.txt"))], inr None)
    /\ generate_extxyz py_float fs (txt "real_atom_types.npy.txt")
         (txt "coord.npy.txt") (txt "energy.npy.txt") None None
         (Some [txt "charge.txt"]) (txt "fff")
       = ([Printed (FileDoesNotExist (txt "charge.txt"))],
          inl (Exn TypeError NoneHasNoLen)).
Proof. intros. split; reflexivity. Qed.

(** *** The rows of the column reader *)

Lemma lstrip_head s c r : lstrip s = c :: r -> isspace c = false.
Proof.
  induction s as [| d s IH]; simpl; [discriminate |].
  destruct (isspace d) eqn:E; [exact IH |].
  intros H. inversion H; subst. exact E.
Qed.

Lemma strip_head s c r : strip s = c :: r -> isspace c = false.
Proof. unfold strip. apply lstrip_head. Qed.

Lemma split_ws_from_ok s :
  forall cur, forallb notspace cur = true ->
              forallb token_ok (split_ws_from cur s) = true.
Proof.
  induction s as [| c s IH]; intros cur Hcur; simpl.
  - destruct cur; [reflexivity |]. simpl in *. rewrite Hcur. reflexivity.
  - destruct (isspace c) eqn:E.
    + destruct cur as [| d cur]; [apply IH; reflexivity |].
      cbn [forallb token_ok]. rewrite IH by reflexivity.
      simpl in Hcur. rewrite Hcur. reflexivity.
    + apply IH. rewrite forallb_app, Hcur. simpl. unfold notspace.
      rewrite E. reflexivity.
Qed.

Lemma split_ws_from_nonempty s :
  forall cur, cur <> [] -> split_ws_from cur s <> [].
Proof.
  induction s as [| c s IH]; intros cur Hcur; simpl.
  - destruct cur; [congruence | discriminate].
  - destruct (isspace c).
    + destruct cur; [congruence | discriminate].
    + apply IH. destruct cur; discriminate.
Qed.

Lemma split_ws_stripped_ok line c r :
  strip line = c :: r -> row_ok (split_ws (c :: r)) = true.
Proof.
  intros H. apply strip_head in H.
  unfold split_ws. simpl. rewrite H. simpl.
  pose proof (@split_ws_from_nonempty r [c]) as Hne.
  pose proof (@split_ws_from_ok r [c]) as Hok.
  unfold row_ok. destruct (split_ws_from [c] r).
  - exfalso. apply Hne; [discriminate | reflexivity].
  - apply Hok. simpl. unfold notspace. rewrite H. reflexivity.
Qed.

Lemma read_rows_ok file_path lines :
  forall line_num log data,
    read_rows file_path line_num lines = (log, inr data) ->
    rows_ok data = true.
Proof.
  induction lines as [| line rest IH]; intros n log data H;
    cbn [read_rows] in H.
  - apply ret_inv in H as [<- _]. reflexivity.
  - destruct (strip line) as [| c r] eqn:E.
    + bind_inv H as ? _ H. eapply IH; eauto.
    + bind_inv H as d Hd H. apply ret_inv in H as [<- _].
      simpl. rewrite (split_ws_stripped_ok line E).
      eapply IH; eauto.
Qed.

Lemma row_ok_first row : row_ok row = true -> exists tok, getitem row 0 = ret tok.
Proof.
  destruct row as [| tok row]; [discriminate |].
  intros _. exists tok. reflexivity.
Qed.

Lemma rows_ok_nth data i row :
  rows_ok data = true -> nth_error data i = Some row -> row_ok row = true.
Proof.
  unfold rows_ok. rewrite forallb_forall. intros H Hn.
  apply H. eapply nth_error_In; eauto.
Qed.

(** C10. Every row [read_file] returns is a non-empty list of non-empty
    tokens without whitespace, blank lines giving no row; hence on rows
    read this way the access [energies[i][0]] of both serializers returns
    a token for every valid frame index. *)
Theorem read_file_rows_well_formed :
  forall fs file_path log data,
    read_file fs file_path = (log, inr data) ->
    rows_ok data = true
    /\ forall i, i < length data ->
                exists energy_row energy,
                  getitem data i = ret energy_row
                  /\ getitem energy_row 0 = ret energy.
Proof.
  intros fs file_path log data H. unfold read_file in H.
  destruct (fs file_path) as [content |]; [| discriminate].
  apply read_rows_ok in H. split; [exact H |].
  intros i Hi. destruct (nth_error data i) as [row |] eqn:E.
  - destruct (row_ok_first row (rows_ok_nth data i H E)) as (tok & Htok).
    exists row, tok. split; [apply getitem_some; exact E | exact Htok].
  - apply nth_error_None in E. lia.
Qed.

Lemma read_file_rows_well_formed_witness :
  rows_ok [[txt "-1.5"]; [txt "-2.5"; txt "eV"]] = true
  /\ forall i, i < length [[txt "-1.5"]; [txt "-2.5"; txt "eV"]] ->
              exists energy_row energy,
                getitem [[txt "-1.5"]; [txt "-2.5"; txt "eV"]] i
                = ret energy_row
                /\ getitem energy_row 0 = ret energy.
Proof.
  apply (@read_file_rows_well_formed
           (fun _ => Some (txt "  -1.5 " ++ [LF; LF] ++ txt "-2.5   eV" ++ [CR; LF]))
           (txt "energy.npy.txt")
           [Printed (BlankLineSkipped (txt "energy.npy.txt") 2)]).
  reflexivity.
Defined.

(** *** The working directory of the parser *)

Lemma stream_append_same name data files :
  stream name (append_file name data files) = stream name files ++ data.
Proof.
  unfold stream. induction files as [| [n c] files IH]; simpl.
  - destruct (text_eq_dec name name); [reflexivity | congruence].
  - destruct (text_eq_dec name n) as [-> | Hne]; simpl.
    + destruct (text_eq_dec n n); [reflexivity | congruence].
    + destruct (text_eq_dec name n); [congruence | exact IH].
Qed.

Lemma stream_append_other name name' data files :
  name <> name' ->
  stream name (append_file name' data files) = stream name files.
Proof.
  intros Hne. unfold stream.
  induction files as [| [n c] files IH]; simpl.
  - destruct (text_eq_dec name name'); [congruence | reflexivity].
  - destruct (text_eq_dec name' n) as [-> | Hne']; simpl.
    + destruct (text_eq_dec name n); [congruence | reflexivity].
    + destruct (text_eq_dec name n); [reflexivity | exact IH].
Qed.

Lemma stream_write_labels name labels :
  Forall (fun kv : text * text => fst kv ++ txt ".txt" <> name) labels ->
  forall out, stream name (write_labels labels out) = stream name out.
Proof.
  unfold write_labels.
  induction 1 as [| kv labels Hkv _ IH]; intros out; simpl; [reflexivity |].
  rewrite IH. apply stream_append_other.
  intros E. apply Hkv. symmetry. exact E.
Qed.

(** *** Keys found by the label pattern are words *)

Lemma span_spec p s a b :
  span p s = (a, b) -> s = a ++ b /\ forallb p a = true.
Proof.
  revert a b. induction s as [| c s IH]; intros a b H; simpl in H.
  - inversion H. auto.
  - destruct (p c) eqn:E.
    + destruct (span p s) as [a' b'] eqn:Es. inversion H; subst.
      destruct (IH a' b eq_refl) as [-> Hall]. simpl. rewrite E. auto.
    + inversion H. auto.
Qed.

Lemma span_rest_head p s a c b :
  span p s = (a, c :: b) -> p c = false.
Proof.
  revert a. induction s as [| d s IH]; intros a H; simpl in H.
  - inversion H.
  - destruct (p d) eqn:E.
    + destruct (span p s) as [a' b'] eqn:Es. inversion H; subst.
      eapply IH; reflexivity.
    + inversion H; subst. exact E.
Qed.

Lemma match_label_at_spec s key value :
  match_label_at s = Some (key, value) ->
  key <> [] /\ forallb isword key = true
  /\ value <> [] /\ forallb notsp value = true
  /\ exists rest, s = key ++ EQ :: value ++ rest.
Proof.
  unfold match_label_at.
  destruct (span isword s) as [k r] eqn:Ek.
  destruct k as [| k0 k]; [discriminate |].
  destruct r as [| c r]; [discriminate |].
  destruct (Ascii.eqb c EQ) eqn:Ec; [| discriminate].
  destruct (span notsp r) as [v r'] eqn:Ev.
  destruct v as [| v0 v]; [discriminate |].
  intros H. inversion H; subst.
  apply Ascii.eqb_eq in Ec. subst c.
  apply span_spec in Ek as [-> Hk]. apply span_spec in Ev as [-> Hv].
  repeat split; try discriminate; auto.
  exists r'. reflexivity.
Qed.

Lemma findall_labels_from_keys s :
  forall skip,
    Forall (fun kv : text * text => forallb isword (fst kv) = true)
      (findall_labels_from skip s).
Proof.
  induction s as [| c s IH]; intros skip; simpl; [constructor |].
  destruct skip; [| apply IH].
  destruct (match_label_at (c :: s)) as [[k v] |] eqn:E; [| apply IH].
  constructor; [| apply IH].
  apply match_label_at_spec in E. tauto.
Qed.

Lemma dict_set_keys {V : Type} (Q : text -> Prop) k (v : V) d :
  Q k -> Forall (fun kv => Q (fst kv)) d ->
  Forall (fun kv => Q (fst kv)) (dict_set k v d).
Proof.
  intros Hk. induction 1 as [| [k' v'] d Hkv Hd IH]; simpl.
  - constructor; [exact Hk | constructor].
  - simpl in Hkv. destruct (text_eq_dec k k'); constructor; simpl; auto.
Qed.

Lemma parse_labels_keys line :
  Forall (fun kv : text * text => forallb isword (fst kv) = true)
    (parse_labels line).
Proof.
  unfold parse_labels.
  pose proof (findall_labels_from_keys line 0) as H.
  fold (findall_labels line) in H.
  assert (Hacc : Forall (fun kv : text * text => forallb isword (fst kv) = true)
                   (@nil (text * text))) by constructor.
  revert Hacc. generalize (@nil (text * text)).
  induction H as [| [k v] l Hk _ IH]; intros acc Hacc; simpl; [exact Hacc |].
  apply IH. destruct (_ || _); [exact Hacc |].
  apply (dict_set_keys (fun key => forallb isword key = true)); assumption.
Qed.

(** A label file is named by a word and the suffix [.txt]: it is none of
    the column files, whose names contain a second dot. *)
Lemma label_file_name_fresh key base :
  forallb isword key = true -> forallb isword base = false ->
  key ++ txt ".txt" <> base ++ txt ".txt".
Proof.
  intros Hk Hb E. apply app_inv_tail in E. subst. congruence.
Qed.

Lemma write_labels_keeps_column line base out :
  forallb isword base = false ->
  stream (base ++ txt ".txt") (write_labels (parse_labels line) out)
  = stream (base ++ txt ".txt") out.
Proof.
  intros Hb. apply stream_write_labels.
  eapply Forall_impl; [| apply parse_labels_keys].
  intros [k v] Hk. simpl in *. apply label_file_name_fresh; assumption.
Qed.


(** *** One frame of the parser *)

Lemma nth_error_0_1 {A : Type} (l : list A) a b :
  nth_error l 0 = Some a -> nth_error l 1 = Some b ->
  l = a :: b :: skipn 2 l.
Proof.
  destruct l as [| x [| y l]]; simpl; try discriminate.
  intros H1 H2. inversion H1; inversion H2. reflexivity.
Qed.

(** A file with a name the file system accepts is opened. *)
Lemma open_append_short name data out :
  file_name_ok name = true ->
  open_append name data out = ([], inr (append_file name data out)).
Proof. unfold open_append. intros ->. reflexivity. Qed.

(** The loop over the labels stops at the first label whose file cannot
    be opened. *)
Lemma write_label_files_outcome labels :
  forall out,
    if label_files_ok labels
    then write_label_files labels out = ([], inr (write_labels labels out))
    else exists e, write_label_files labels out = ([], inl e).
Proof.
  unfold label_files_ok, write_labels.
  induction labels as [| [key value] rest IH]; intros out; [reflexivity |].
  cbn [forallb fst snd write_label_files fold_left]. unfold open_append.
  destruct (file_name_ok (key ++ txt ".txt")); cbn [andb].
  - rewrite bind_ret_l. apply IH.
  - eexists. reflexivity.
Qed.

Lemma write_label_files_inv labels out log out' :
  write_label_files labels out = (log, inr out') ->
  label_files_ok labels = true /\ out' = write_labels labels out.
Proof.
  intros H. pose proof (write_label_files_outcome labels out) as Hw.
  destruct (label_files_ok labels).
  - rewrite Hw in H. inversion H. auto.
  - destruct Hw as (e & Hw). rewrite Hw in H. discriminate.
Qed.

Lemma write_box_file_eq pbc out :
  write_box_file pbc out = ([], inr (write_box pbc out)).
Proof.
  unfold write_box_file, write_box.
  destruct (box_line_written pbc); reflexivity.
Qed.

Lemma write_atom_files_eq atoms out :
  write_atom_files atoms out = ([], inr (write_atom_streams atoms out)).
Proof.
  unfold write_atom_files, write_atom_streams. cbv zeta.
  rewrite open_append_short, bind_pure by reflexivity.
  rewrite open_append_short, bind_pure by reflexivity.
  destruct (concat (map (fun a : text * list text * list text => snd a) atoms));
    [reflexivity |].
  apply open_append_short. reflexivity.
Qed.

Lemma process_frame_inv out frame log out' :
  process_frame out frame = (log, inr out') ->
  exists first line atom_lines alog atoms,
    frame = first :: line :: atom_lines
    /\ int_accepts first = true
    /\ for_each parse_atom_line atom_lines = (alog, inr atoms)
    /\ out' = write_atom_streams atoms (write_header_streams line out).
Proof.
  unfold process_frame. intros H.
  bind_inv H as first Hfirst H. apply getitem_ok_inv in Hfirst as [Hfirst _].
  bind_inv H as ? Hint H.
  destruct (int_accepts first) eqn:Eint; [| discriminate].
  bind_inv H as line Hline H. apply getitem_ok_inv in Hline as [Hline _].
  bind_inv H as ? _ H. cbv zeta in H.
  bind_inv H as out1 Hlabels H.
  apply write_label_files_inv in Hlabels as [_ ->].
  rewrite open_append_short, bind_pure in H by reflexivity.
  rewrite write_box_file_eq, bind_pure in H.
  bind_inv H as atoms Hatoms H. rewrite write_atom_files_eq in H.
  inversion H; subst.
  exists first, line, (skipn 2 frame). do 2 eexists.
  split; [apply nth_error_0_1; assumption |].
  split; [exact Eint |]. split; [exact Hatoms | reflexivity].
Qed.

Lemma energy_stream_of_frame line atoms out :
  stream (txt "energy.npy.txt")
    (write_atom_streams atoms (write_header_streams line out))
  = stream (txt "energy.npy.txt") out ++ energy_of (parse_labels line) ++ NL.
Proof.
  unfold write_atom_streams, write_header_streams, write_box.
  assert (E : forall o,
             stream (txt "energy.npy.txt")
               (match concat (map (fun a : text * list text * list text => snd a) atoms) with
                | [] => o
                | _ :: _ =>
                    append_file (txt "force.npy.txt")
                      (join (txt " ")
                         (concat (map (fun a : text * list text * list text => snd a) atoms))
                       ++ NL) o
                end)
             = stream (txt "energy.npy.txt") o).
  { intros o. destruct (concat _); [reflexivity |].
    apply stream_append_other. discriminate. }
  rewrite E.
  rewrite !stream_append_other by discriminate.
  destruct (box_line_written (parse_pbc line)).
  - rewrite stream_append_other by discriminate.
    rewrite stream_append_same. f_equal.
    apply (write_labels_keeps_column line (txt "energy.npy")). reflexivity.
  - rewrite stream_append_same. f_equal.
    apply (write_labels_keeps_column line (txt "energy.npy")). reflexivity.
Qed.

Lemma box_stream_of_frame line atoms out :
  stream (txt "box.npy.txt")
    (write_atom_streams atoms (write_header_streams line out))
  = stream (txt "box.npy.txt") out ++ box_text line.
Proof.
  unfold write_atom_streams, write_header_streams, write_box, box_text.
  assert (E : forall o,
             stream (txt "box.npy.txt")
               (match concat (map (fun a : text * list text * list text => snd a) atoms) with
                | [] => o
                | _ :: _ =>
                    append_file (txt "force.npy.txt")
                      (join (txt " ")
                         (concat (map (fun a : text * list text * list text => snd a) atoms))
                       ++ NL) o
                end)
             = stream (txt "box.npy.txt") o).
  { intros o. destruct (concat _); [reflexivity |].
    apply stream_append_other. discriminate. }
  rewrite E.
  rewrite !stream_append_other by discriminate.
  destruct (box_line_written (parse_pbc line)).
  - rewrite stream_append_same. f_equal.
    rewrite stream_append_other by discriminate.
    apply (write_labels_keeps_column line (txt "box.npy")). reflexivity.
  - rewrite app_nil_r.
    rewrite stream_append_other by discriminate.
    apply (write_labels_keeps_column line (txt "box.npy")). reflexivity.
Qed.

Lemma process_frames_streams frames :
  forall out log out',
    process_frames out frames = (log, inr out') ->
    stream (txt "energy.npy.txt") out'
    = stream (txt "energy.npy.txt") out
      ++ concat (map (fun frame =>
                        energy_of (parse_labels (frame_metadata frame)) ++ NL)
                   frames)
    /\ stream (txt "box.npy.txt") out'
       = stream (txt "box.npy.txt") out
         ++ concat (map (fun frame => box_text (frame_metadata frame)) frames).
Proof.
  induction frames as [| frame rest IH]; intros out log out' H;
    cbn [process_frames] in H.
  - apply ret_inv in H as [<- _]. simpl. rewrite !app_nil_r. auto.
  - bind_inv H as mid Hmid H.
    apply process_frame_inv in Hmid
      as (first & line & atom_lines & alog & atoms & -> & _ & _ & ->).
    apply IH in H as [He Hb]. cbn [map concat frame_metadata nth].
    rewrite He, Hb, energy_stream_of_frame, box_stream_of_frame.
    rewrite <- !app_assoc. auto.
Qed.

(** The pattern of [parse_pbc] captures at least one character. *)
Lemma match_pbc_at_nonempty s p : match_pbc_at s = Some p -> p <> [].
Proof.
  unfold match_pbc_at. destruct (strip_prefix _ s) as [r |]; [| discriminate].
  destruct (span notdq r) as [v r'].
  destruct v; [discriminate |]. destruct r'; [discriminate |].
  intros H. inversion H. discriminate.
Qed.

Lemma parse_pbc_nonempty line p : parse_pbc line = Some p -> p <> [].
Proof.
  induction line as [| c line IH]; cbn [parse_pbc].
  - destruct (match_pbc_at []) eqn:E; [| discriminate].
    intros H. inversion H; subst. eapply match_pbc_at_nonempty; eauto.
  - destruct (match_pbc_at (c :: line)) eqn:E; [| exact IH].
    intros H. inversion H; subst. eapply match_pbc_at_nonempty; eauto.
Qed.

Lemma text_eqb_eq a b : text_eqb a b = true <-> a = b.
Proof.
  unfold text_eqb. destruct (text_eq_dec a b); split; congruence.
Qed.

Lemma box_line_written_iff line p :
  box_line_written (parse_pbc line) = Some p
  <-> parse_pbc line = Some p /\ p <> closed_pbc.
Proof.
  unfold box_line_written.
  destruct (parse_pbc line) as [q |] eqn:E.
  - pose proof (parse_pbc_nonempty line E) as Hne.
    destruct q as [| c q]; [congruence |].
    destruct (text_eqb (c :: q) closed_pbc) eqn:Eq.
    + apply text_eqb_eq in Eq. split; [discriminate |].
      intros [H1 H2]. inversion H1; subst. congruence.
    + split.
      * intros H. inversion H; subst. split; [reflexivity |].
        intros Hc. apply text_eqb_eq in Hc. congruence.
      * intros [H _]. exact H.
  - split; [discriminate | intros [H _]; discriminate].
Qed.

(** *** No line terminator inside what the parser extracts *)

Lemma forallb_incl (p : ascii -> bool) (a b : text) :
  incl a b -> forallb p b = true -> forallb p a = true.
Proof.
  rewrite !forallb_forall. intros Hi H c Hc. apply H, Hi, Hc.
Qed.

Lemma lstrip_incl s : incl (lstrip s) s.
Proof.
  induction s as [| c s IH]; simpl; [apply incl_refl |].
  destruct (isspace c); [apply incl_tl, IH | apply incl_refl].
Qed.

Lemma rstrip_incl s : incl (rstrip s) s.
Proof.
  unfold rstrip. intros c Hc. apply in_rev in Hc.
  apply lstrip_incl in Hc. apply in_rev in Hc. exact Hc.
Qed.

Lemma strip_incl s : incl (strip s) s.
Proof.
  unfold strip. intros c Hc. apply rstrip_incl, lstrip_incl, Hc.
Qed.

Lemma strip_eol body : strip (body ++ [LF]) = strip body.
Proof.
  unfold strip, rstrip. rewrite rev_app_distr. reflexivity.
Qed.

Lemma lines_from_nolf s :
  forall cur,
    forallb nolf cur = true ->
    Forall (fun l => forallb nolf (strip l) = true) (lines_from cur s).
Proof.
  induction s as [| c s IH]; intros cur Hcur; cbn [lines_from].
  - destruct cur; constructor; [| constructor].
    eapply forallb_incl; [apply strip_incl | exact Hcur].
  - destruct (Ascii.eqb c LF) eqn:E.
    + apply Ascii.eqb_eq in E. subst c. constructor; [| apply IH; reflexivity].
      rewrite strip_eol.
      eapply forallb_incl; [apply strip_incl | exact Hcur].
    + apply IH. rewrite forallb_app, Hcur. unfold nolf. cbn. rewrite E.
      reflexivity.
Qed.

Lemma scan_lines_all (P : text -> Prop) lines :
  Forall (fun l => P (strip l)) lines ->
  forall st,
    Forall (Forall P) (fst st) -> Forall P (snd st) ->
    Forall (Forall P) (fst (fold_left scan_line lines st))
    /\ Forall P (snd (fold_left scan_line lines st)).
Proof.
  induction 1 as [| l lines Hl _ IH]; intros [frames cur] Hf Hc;
    cbn [fold_left]; [auto |].
  apply IH; unfold scan_line, push_line; cbn [fst snd] in *;
    destruct (isdigit (strip l)); cbn [fst snd].
  - apply Forall_app. split; [exact Hf |].
    destruct cur; cbn [flush]; repeat constructor; inversion Hc; auto.
  - exact Hf.
  - repeat constructor. exact Hl.
  - apply Forall_app. split; [exact Hc | repeat constructor; exact Hl].
Qed.

Lemma collect_frames_all (P : text -> Prop) lines :
  Forall (fun l => P (strip l)) lines ->
  Forall (Forall P) (collect_frames lines).
Proof.
  intros H. unfold collect_frames.
  destruct (@scan_lines_all P lines H ([], [])) as [Hf Hc];
    [constructor | constructor |].
  destruct (fold_left scan_line lines ([], [])) as [frames cur].
  cbn [fst snd] in *. apply Forall_app. split; [exact Hf |].
  destruct cur; cbn [flush]; repeat constructor; inversion Hc; auto.
Qed.

Lemma frame_metadata_nolf content frame :
  In frame (collect_frames (file_lines content)) ->
  forallb nolf (frame_metadata frame) = true.
Proof.
  intros Hin.
  pose proof (@collect_frames_all (fun s => forallb nolf s = true)
                (file_lines content)) as H.
  unfold file_lines in H at 1.
  specialize (H (lines_from_nolf (universal_newlines content) [] eq_refl)).
  rewrite Forall_forall in H. specialize (H frame Hin).
  unfold frame_metadata.
  destruct (nth_in_or_default 1 frame []) as [Hn | ->]; [| reflexivity].
  rewrite Forall_forall in H. apply H, Hn.
Qed.

Lemma findall_labels_from_values (p : ascii -> bool) s :
  forall skip,
    forallb p s = true ->
    Forall (fun kv : text * text => forallb p (snd kv) = true)
      (findall_labels_from skip s).
Proof.
  induction s as [| c s IH]; intros skip Hs; cbn [findall_labels_from];
    [constructor |].
  assert (Hs' : forallb p s = true)
    by (cbn [forallb] in Hs; apply andb_true_iff in Hs; tauto).
  destruct skip; [| apply IH, Hs'].
  destruct (match_label_at (c :: s)) as [[k v] |] eqn:E; [| apply IH, Hs'].
  constructor; [| apply IH, Hs'].
  apply match_label_at_spec in E as (_ & _ & _ & _ & rest & E).
  rewrite E in Hs. rewrite forallb_app in Hs.
  apply andb_true_iff in Hs as [_ Hs]. cbn [forallb] in Hs.
  apply andb_true_iff in Hs as [_ Hs]. rewrite forallb_app in Hs.
  apply andb_true_iff in Hs as [Hs _]. exact Hs.
Qed.

Lemma dict_set_values {V : Type} (Q : V -> Prop) k (v : V) d :
  Q v -> Forall (fun kv => Q (snd kv)) d ->
  Forall (fun kv => Q (snd kv)) (dict_set k v d).
Proof.
  intros Hv. induction 1 as [| [k' v'] d Hkv Hd IH]; simpl.
  - constructor; [exact Hv | constructor].
  - simpl in Hkv. destruct (text_eq_dec k k'); constructor; simpl; auto.
Qed.

Lemma dict_get_value {V : Type} (Q : V -> Prop) k (d : dict V) v :
  Forall (fun kv => Q (snd kv)) d -> dict_get k d = Some v -> Q v.
Proof.
  induction 1 as [| [k' v'] d Hkv Hd IH]; simpl; [discriminate |].
  destruct (text_eq_dec k k'); [| exact IH].
  intros E. inversion E; subst. exact Hkv.
Qed.

Lemma parse_labels_values (p : ascii -> bool) line :
  forallb p line = true ->
  Forall (fun kv : text * text => forallb p (snd kv) = true)
    (parse_labels line).
Proof.
  intros Hl. unfold parse_labels.
  pose proof (@findall_labels_from_values p line 0 Hl) as H.
  fold (findall_labels line) in H.
  assert (Hacc : Forall (fun kv : text * text => forallb p (snd kv) = true)
                   (@nil (text * text))) by constructor.
  revert Hacc. generalize (@nil (text * text)).
  induction H as [| [k v] l Hv _ IH]; intros acc Hacc; simpl; [exact Hacc |].
  apply IH. destruct (_ || _); [exact Hacc |].
  apply (dict_set_values (fun value => forallb p value = true)); assumption.
Qed.

Lemma energy_of_nolf line :
  forallb nolf line = true ->
  forallb nolf (energy_of (parse_labels line)) = true.
Proof.
  intros Hl. unfold energy_of.
  destruct (dict_get _ _) as [e |] eqn:E; [| reflexivity].
  exact (dict_get_value (fun value => forallb nolf value = true) _
           (parse_labels_values nolf line Hl) E).
Qed.

Lemma strip_prefix_incl p s r : strip_prefix p s = Some r -> incl r s.
Proof.
  revert s. induction p as [| a p IH]; intros s H; simpl in H.
  - inversion H. apply incl_refl.
  - destruct s as [| b s]; [discriminate |].
    destruct (Ascii.eqb a b); [| discriminate].
    apply incl_tl, IH, H.
Qed.

Lemma match_pbc_at_incl s v : match_pbc_at s = Some v -> incl v s.
Proof.
  unfold match_pbc_at.
  destruct (strip_prefix _ s) as [r |] eqn:Er; [| discriminate].
  destruct (span notdq r) as [a b] eqn:Ea.
  destruct a; [discriminate |]. destruct b; [discriminate |].
  intros H. inversion H; subst.
  apply span_spec in Ea as [Ea _]. apply strip_prefix_incl in Er.
  intros c Hc. apply Er. rewrite Ea. apply in_or_app. auto.
Qed.

Lemma parse_pbc_incl line v : parse_pbc line = Some v -> incl v line.
Proof.
  induction line as [| c line IH]; cbn [parse_pbc].
  - destruct (match_pbc_at []) eqn:E; [| discriminate].
    intros H. inversion H; subst. apply match_pbc_at_incl, E.
  - destruct (match_pbc_at (c :: line)) eqn:E.
    + intros H. inversion H; subst. apply match_pbc_at_incl, E.
    + intros H. apply incl_tl, IH, H.
Qed.

Lemma line_count_nolf s : forallb nolf s = true -> line_count s = 0.
Proof.
  unfold line_count. induction s as [| c s IH]; [reflexivity |].
  cbn [forallb]. intros H. apply andb_true_iff in H as [Hc Hs].
  cbn [count_occ]. destruct (ascii_dec c LF) as [-> | _];
    [discriminate | apply IH, Hs].
Qed.

Lemma line_count_lines {A : Type} (f : A -> text) l :
  Forall (fun x => forallb nolf (f x) = true) l ->
  line_count (concat (map (fun x => f x ++ NL) l)) = length l.
Proof.
  induction 1 as [| x l Hx _ IH]; [reflexivity |].
  cbn [map concat length]. unfold line_count in *.
  rewrite !count_occ_app, IH. fold (line_count (f x)).
  rewrite (line_count_nolf _ Hx). reflexivity.
Qed.

(** C8. When the parser returns its archive, the energy stream holds
    exactly one line per frame, in order: the value of the frame's
    [energy] label, or the empty string when the metadata line has none;
    no value contains a line terminator, so the stream has as many lines
    as there are frames.  The box stream holds a line exactly for the
    frames whose metadata line has a pbc token other than [F F F]: that
    token, which contains no line terminator either. *)
Theorem parser_energy_and_box_streams :
  forall content log files,
    split_extxyz content = (log, inr (Some files)) ->
    let frames := collect_frames (file_lines content) in
    stream (txt "energy.npy.txt") files
    = concat (map (fun frame =>
                     energy_of (parse_labels (frame_metadata frame)) ++ NL)
                frames)
    /\ line_count (stream (txt "energy.npy.txt") files) = length frames
    /\ stream (txt "box.npy.txt") files
       = concat (map (fun frame => box_text (frame_metadata frame)) frames)
    /\ (forall frame p,
          In frame frames -> parse_pbc (frame_metadata frame) = Some p ->
          line_count p = 0)
    /\ forall frame,
         (forall p, parse_pbc (frame_metadata frame) = Some p ->
                    p <> txt "F F F" ->
                    box_text (frame_metadata frame) = p ++ NL)
         /\ (parse_pbc (frame_metadata frame) = None ->
             box_text (frame_metadata frame) = [])
         /\ (parse_pbc (frame_metadata frame) = Some (txt "F F F") ->
             box_text (frame_metadata frame) = []).
Proof.
  intros content log files H frames. unfold split_extxyz, try_except in H.
  destruct (bind _ _) as [l [e | r]] eqn:E; [discriminate |].
  inversion H; subst. clear H.
  bind_inv E as out Hout E. apply ret_inv in E as [E _].
  inversion E; subst. clear E.
  apply process_frames_streams in Hout as [He Hb].
  split; [exact He |]. split.
  { rewrite He. cbn [stream dict_get app].
    apply (line_count_lines
             (fun frame => energy_of (parse_labels (frame_metadata frame)))).
    apply Forall_forall. intros frame Hin.
    apply energy_of_nolf, (frame_metadata_nolf content), Hin. }
  split; [exact Hb |]. split.
  { intros frame p Hin Hp. apply line_count_nolf.
    eapply forallb_incl; [apply parse_pbc_incl, Hp |].
    apply (frame_metadata_nolf content), Hin. }
  intros frame. unfold box_text. split; [| split].
  - intros p Hp Hne.
    assert (Hw : box_line_written (parse_pbc (frame_metadata frame)) = Some p)
      by (apply box_line_written_iff; auto).
    rewrite Hw. reflexivity.
  - intros ->. reflexivity.
  - intros ->. reflexivity.
Qed.

Lemma parser_energy_and_box_streams_witness :
  exists files,
    split_extxyz
      (txt "1" ++ [LF]
       ++ txt "Properties=species:S:1:pos:R:3 energy=-1.5 pbc=" ++ [DQ]
       ++ txt "F F F" ++ [DQ; LF]
       ++ txt "H 0 0 0" ++ [LF]
       ++ txt "1" ++ [LF]
       ++ txt "Properties=species:S:1:pos:R:3 pbc=" ++ [DQ]
       ++ txt "9 0 0" ++ [DQ; LF]
       ++ txt "O 1 1 1" ++ [LF])
    = ([], inr (Some files))
    /\ stream (txt "energy.npy.txt") files = txt "-1.5" ++ [LF; LF]
    /\ stream (txt "box.npy.txt") files = txt "9 0 0" ++ [LF].
Proof.
  destruct (split_extxyz _) as [log [e | [files |]]] eqn:E;
    try (vm_compute in E; discriminate).
  exists files.
  destruct (parser_energy_and_box_streams _ E) as (He & _ & Hb & _).
  split; [vm_compute in E; inversion E; reflexivity |].
  split; [rewrite He | rewrite Hb]; reflexivity.
Defined.

(** *** Lines written and read back *)

Lemma universal_newlines_id s :
  forallb nocr s = true -> universal_newlines s = s.
Proof.
  induction s as [| c s IH]; [reflexivity |].
  cbn [forallb]. intros H. apply andb_true_iff in H as [Hc Hs].
  unfold nocr in Hc.
  cbn [universal_newlines]. destruct (Ascii.eqb c CR); [discriminate |].
  rewrite IH by exact Hs. reflexivity.
Qed.

Lemma noeol_nocr l : forallb noeol l = true -> forallb nocr l = true.
Proof.
  rewrite !forallb_forall. intros H c Hc. specialize (H c Hc).
  unfold noeol in H. apply andb_true_iff in H as [_ H]. exact H.
Qed.

Lemma lines_from_line l :
  forallb noeol l = true ->
  forall cur rest,
    lines_from cur (l ++ LF :: rest) = (cur ++ l ++ [LF]) :: lines_from [] rest.
Proof.
  induction l as [| c l IH]; intros H cur rest.
  - reflexivity.
  - cbn [forallb] in H. apply andb_true_iff in H as [Hc Hl].
    unfold noeol, nolf in Hc. apply andb_true_iff in Hc as [Hc _].
    cbn [app lines_from]. destruct (Ascii.eqb c LF); [discriminate |].
    rewrite IH by exact Hl. rewrite <- app_assoc. reflexivity.
Qed.

Lemma lines_from_last l :
  forallb noeol l = true ->
  forall cur,
    lines_from cur l = match cur ++ l with [] => [] | _ :: _ => [cur ++ l] end.
Proof.
  induction l as [| c l IH]; intros H cur.
  - cbn. rewrite app_nil_r. reflexivity.
  - cbn [forallb] in H. apply andb_true_iff in H as [Hc Hl].
    unfold noeol, nolf in Hc. apply andb_true_iff in Hc as [Hc _].
    cbn [lines_from]. destruct (Ascii.eqb c LF); [discriminate |].
    rewrite IH by exact Hl. rewrite <- app_assoc. reflexivity.
Qed.

Lemma line_ok_noeol l : line_ok l = true -> forallb noeol l = true.
Proof.
  destruct l as [| c l]; [discriminate |]. unfold line_ok.
  intros H. apply andb_true_iff in H as [_ H]. exact H.
Qed.

Lemma line_ok_nonempty l : line_ok l = true -> l <> [].
Proof. destruct l; [discriminate | discriminate]. Qed.

Lemma forallb_join (p : ascii -> bool) sep ls :
  forallb p sep = true -> Forall (fun l => forallb p l = true) ls ->
  forallb p (join sep ls) = true.
Proof.
  intros Hsep. induction 1 as [| l ls Hl Hls IH]; [reflexivity |].
  cbn [join]. destruct ls; [exact Hl |].
  rewrite !forallb_app, Hl, Hsep, IH. reflexivity.
Qed.

(** Stripping a clean line, with or without its terminator, gives the
    line. *)
Lemma lstrip_id c l : isspace c = false -> lstrip (c :: l) = c :: l.
Proof. intros H. simpl. rewrite H. reflexivity. Qed.

Lemma last_rev_head (l : text) c d : exists r, rev (c :: l) = last (c :: l) d :: r.
Proof.
  revert c. induction l as [| e l IH]; intros c.
  - exists []. reflexivity.
  - destruct (IH e) as (r & Hr). exists (r ++ [c]).
    change (rev (c :: e :: l)) with (rev (e :: l) ++ [c]). rewrite Hr.
    reflexivity.
Qed.

Lemma strip_line_ok l : line_ok l = true -> strip l = l.
Proof.
  destruct l as [| c l]; [discriminate |]. unfold line_ok.
  intros H. apply andb_true_iff in H as [H _].
  apply andb_true_iff in H as [Hc Hlast]. unfold notspace in *.
  apply negb_true_iff in Hc, Hlast.
  unfold strip, rstrip.
  destruct (last_rev_head l c c) as (r & Hr). rewrite Hr.
  rewrite lstrip_id by exact Hlast. rewrite <- Hr, rev_involutive.
  apply lstrip_id. exact Hc.
Qed.

Lemma strip_line_ok_eol l : line_ok l = true -> strip (l ++ [LF]) = l.
Proof.
  intros H. rewrite <- (strip_line_ok l H) at 2.
  unfold strip, rstrip. rewrite rev_app_distr. reflexivity.
Qed.

Lemma file_lines_join ls :
  Forall (fun l => line_ok l = true) ls ->
  map strip (file_lines (join NL ls)) = ls.
Proof.
  intros Hall. unfold file_lines.
  rewrite universal_newlines_id.
  2:{ apply forallb_join; [reflexivity |].
      eapply Forall_impl; [| exact Hall]. intros l Hl.
      apply noeol_nocr, line_ok_noeol, Hl. }
  induction Hall as [| l ls Hl Hls IH]; [reflexivity |].
  cbn [join]. destruct ls as [| l' ls].
  - rewrite lines_from_last by (apply line_ok_noeol; exact Hl).
    cbn [app]. destruct l; [discriminate |].
    cbn [map]. rewrite strip_line_ok by exact Hl. reflexivity.
  - unfold NL. cbn [app].
    rewrite lines_from_line by (apply line_ok_noeol; exact Hl).
    cbn [map app]. rewrite strip_line_ok_eol by exact Hl.
    f_equal. exact IH.
Qed.

Lemma fold_scan_line lines :
  forall st, fold_left scan_line lines st
             = fold_left push_line (map strip lines) st.
Proof.
  induction lines as [| l lines IH]; intros st; [reflexivity |].
  cbn [fold_left map]. rewrite IH. reflexivity.
Qed.

(** *** Tokens joined and split *)

Lemma split_ws_from_token tok :
  forallb notspace tok = true ->
  forall cur rest,
    split_ws_from cur (tok ++ rest) = split_ws_from (cur ++ tok) rest.
Proof.
  induction tok as [| c tok IH]; intros H cur rest.
  - rewrite app_nil_r. reflexivity.
  - cbn [forallb] in H. apply andb_true_iff in H as [Hc Htok].
    unfold notspace in Hc. apply negb_true_iff in Hc.
    cbn [app split_ws_from]. rewrite Hc, IH by exact Htok.
    rewrite <- app_assoc. reflexivity.
Qed.

Lemma token_ok_spec tok :
  token_ok tok = true <-> tok <> [] /\ forallb notspace tok = true.
Proof.
  destruct tok as [| c tok]; unfold token_ok.
  - split; [discriminate | intros [H _]; congruence].
  - split; [intros H; split; [discriminate | exact H] | intros [_ H]; exact H].
Qed.

Lemma split_ws_join toks :
  forallb token_ok toks = true -> split_ws (join (txt " ") toks) = toks.
Proof.
  unfold split_ws.
  induction toks as [| t toks IH]; [reflexivity |].
  cbn [forallb]. intros H. apply andb_true_iff in H as [Ht Htoks].
  apply token_ok_spec in Ht as [Hne Ht].
  cbn [join]. destruct toks as [| t' toks].
  - pose proof (split_ws_from_token t Ht [] []) as E.
    rewrite app_nil_r in E. rewrite E.
    cbn. destruct t; [congruence | reflexivity].
  - rewrite split_ws_from_token by exact Ht. cbn [app txt list_ascii_of_string].
    cbn [split_ws_from]. change (isspace " ") with true. cbn iota.
    destruct t; [congruence |]. f_equal. apply IH. exact Htoks.
Qed.
(** *** Decimal numerals *)

Lemma forallb_impl {A : Type} (p q : A -> bool) l :
  (forall x, p x = true -> q x = true) ->
  forallb p l = true -> forallb q l = true.
Proof.
  intros Hpq. rewrite !forallb_forall. intros H x Hx. auto.
Qed.

Lemma decimal_is_digit c : isdecimal_char c = true -> isdigit_char c = true.
Proof.
  unfold isdecimal_char, isdigit_char. intros ->. reflexivity.
Qed.

Lemma decimal_not_space c : isdecimal_char c = true -> notspace c = true.
Proof.
  unfold isdecimal_char, notspace, isspace, between.
  destruct (nat_of_ascii c) as [| n] eqn:E; intros H.
  - discriminate.
  - apply andb_true_iff in H as [H1 H2].
    apply Nat.leb_le in H1, H2.
    apply negb_true_iff. repeat (apply orb_false_iff; split).
    + apply andb_false_iff. right. apply Nat.leb_gt. lia.
    + apply andb_false_iff. right. apply Nat.leb_gt. lia.
    + apply Nat.eqb_neq. lia.
    + apply Nat.eqb_neq. lia.
Qed.

Lemma space_of_eol c : noeol c = false -> isspace c = true.
Proof.
  unfold noeol, nolf, nocr. intros H. apply andb_false_iff in H as [H | H];
    apply negb_false_iff, Ascii.eqb_eq in H; subst; reflexivity.
Qed.

Lemma notspace_noeol c : notspace c = true -> noeol c = true.
Proof.
  unfold notspace. intros H. apply negb_true_iff in H.
  destruct (noeol c) eqn:E; [reflexivity |].
  apply space_of_eol in E. congruence.
Qed.

Lemma uint_digits d :
  forallb isdecimal_char (txt (NilEmpty.string_of_uint d)) = true.
Proof. induction d; simpl; auto. Qed.

Lemma little_succ_nonnil d : Decimal.Little.succ d <> Decimal.Nil.
Proof. destruct d; discriminate. Qed.

Lemma to_little_uint_nonnil n :
  forall acc, acc <> Decimal.Nil -> Nat.to_little_uint n acc <> Decimal.Nil.
Proof.
  induction n as [| n IH]; intros acc H; simpl; [exact H |].
  apply IH. apply little_succ_nonnil.
Qed.

Lemma revapp_nonnil d :
  forall d', d' <> Decimal.Nil -> Decimal.revapp d d' <> Decimal.Nil.
Proof.
  induction d; intros d' H; simpl; try exact H; apply IHd; discriminate.
Qed.

Lemma revapp_nonnil_l d d' :
  d <> Decimal.Nil -> Decimal.revapp d d' <> Decimal.Nil.
Proof.
  destruct d; intros H; [congruence | ..]; simpl; apply revapp_nonnil;
    discriminate.
Qed.

Lemma str_of_nat_nonempty n : str_of_nat n <> [].
Proof.
  unfold str_of_nat, Nat.to_uint, Decimal.rev.
  assert (H : Decimal.revapp (Nat.to_little_uint n Decimal.zero) Decimal.Nil
              <> Decimal.Nil).
  { apply revapp_nonnil_l, to_little_uint_nonnil. discriminate. }
  destruct (Decimal.revapp _ _); [congruence | ..]; discriminate.
Qed.

Lemma str_of_nat_decimal n : forallb isdecimal_char (str_of_nat n) = true.
Proof. apply uint_digits. Qed.

Lemma str_of_nat_isdigit n : isdigit (str_of_nat n) = true.
Proof.
  pose proof (str_of_nat_nonempty n) as Hne.
  pose proof (str_of_nat_decimal n) as Hd.
  unfold isdigit. destruct (str_of_nat n); [congruence |].
  eapply forallb_impl; [apply decimal_is_digit | exact Hd].
Qed.

Lemma str_of_nat_token n : token_ok (str_of_nat n) = true.
Proof.
  apply token_ok_spec. split; [apply str_of_nat_nonempty |].
  eapply forallb_impl; [apply decimal_not_space | apply str_of_nat_decimal].
Qed.

Lemma last_in {A : Type} (l : list A) :
  forall c d, In (last (c :: l) d) (c :: l).
Proof.
  induction l as [| e l IH]; intros c d; [left; reflexivity |].
  right. apply IH.
Qed.

Lemma forallb_last {A : Type} (p : A -> bool) c l d :
  forallb p (c :: l) = true -> p (last (c :: l) d) = true.
Proof.
  rewrite forallb_forall. intros H. apply H, last_in.
Qed.

(** A token is a clean line. *)
Lemma token_line_ok tok : token_ok tok = true -> line_ok tok = true.
Proof.
  intros H. apply token_ok_spec in H as [Hne H].
  destruct tok as [| c tok]; [congruence |].
  unfold line_ok. rewrite (forallb_last notspace c tok c H).
  rewrite (forallb_impl notspace noeol _ notspace_noeol H).
  simpl in H. apply andb_true_iff in H as [-> _]. reflexivity.
Qed.

Lemma int_digits_decimal s :
  forallb isdecimal_char s = true -> int_digits true s = true.
Proof.
  induction s as [| c s IH]; [reflexivity |].
  cbn [forallb int_digits]. intros H. apply andb_true_iff in H as [-> H].
  apply IH, H.
Qed.

Lemma decimal_not_sign c :
  isdecimal_char c = true -> Ascii.eqb c "+" || Ascii.eqb c "-" = false.
Proof.
  intros H. apply orb_false_iff.
  split; apply Ascii.eqb_neq; intros ->; discriminate.
Qed.

Lemma decimal_not_space_int c :
  isdecimal_char c = true -> isspace_int c = false.
Proof.
  unfold isdecimal_char, isspace_int, between.
  intros H. apply andb_true_iff in H as [H1 H2].
  apply Nat.leb_le in H1, H2.
  repeat (apply orb_false_iff; split).
  - apply andb_false_iff. right. apply Nat.leb_gt. lia.
  - apply Nat.eqb_neq. lia.
  - apply Nat.eqb_neq. lia.
  - apply Nat.eqb_neq. lia.
Qed.

Lemma strip_int_decimal s :
  forallb isdecimal_char s = true -> strip_int s = s.
Proof.
  intros H. destruct s as [| c s]; [reflexivity |].
  unfold strip_int.
  destruct (last_rev_head s c c) as (r & Hr). rewrite Hr.
  pose proof (forallb_last isdecimal_char c s c H) as Hlast.
  cbn [lstrip_int]. rewrite (decimal_not_space_int _ Hlast).
  rewrite <- Hr, rev_involutive.
  cbn [forallb] in H. apply andb_true_iff in H as [Hc _].
  cbn [lstrip_int]. rewrite (decimal_not_space_int _ Hc). reflexivity.
Qed.

Lemma int_body_decimal s : forallb isdecimal_char s = true -> int_body s = s.
Proof.
  intros H. unfold int_body. rewrite strip_int_decimal by exact H.
  destruct s as [| c s]; [reflexivity |].
  cbn [forallb] in H. apply andb_true_iff in H as [Hc _].
  rewrite (decimal_not_sign c Hc). reflexivity.
Qed.

Lemma filter_all {A : Type} (p : A -> bool) l :
  forallb p l = true -> filter p l = l.
Proof.
  induction l as [| x l IH]; [reflexivity |]. cbn [forallb filter].
  intros H. apply andb_true_iff in H as [-> H]. rewrite IH by exact H.
  reflexivity.
Qed.

(** The numeral of a count is read back by [int()] as long as it has no
    more digits than the limit. *)
Lemma str_of_nat_int n :
  length (str_of_nat n) <= int_max_str_digits ->
  int_accepts (str_of_nat n) = true.
Proof.
  intros Hlen.
  pose proof (str_of_nat_nonempty n) as Hne.
  pose proof (str_of_nat_decimal n) as Hd.
  unfold int_accepts, int_literal, int_digit_count.
  rewrite int_body_decimal by exact Hd.
  rewrite filter_all by exact Hd.
  apply andb_true_iff. split; [| apply Nat.leb_le, Hlen].
  destruct (str_of_nat n) as [| c s]; [congruence |].
  cbn [forallb] in Hd. apply andb_true_iff in Hd as [Hc Hs].
  cbn [int_digits]. rewrite Hc.
  apply int_digits_decimal, Hs.
Qed.

(** *** Computations that return *)

Lemma returns_ret {A : Type} (a : A) : returns (ret a) a.
Proof. reflexivity. Qed.

Lemma returns_bind {A B : Type} (c : M A) (k : A -> M B) a b :
  returns c a -> returns (k a) b -> returns (bind c k) b.
Proof.
  unfold returns, bind. destruct c as [l [e | x]]; simpl; [discriminate |].
  intros H. inversion H; subst. destruct (k a). simpl. auto.
Qed.

Lemma returns_bind_inv {A B : Type} (c : M A) (k : A -> M B) b :
  returns (bind c k) b -> exists a, returns c a /\ returns (k a) b.
Proof.
  unfold returns, bind. destruct c as [l [e | x]]; simpl; [discriminate |].
  destruct (k x) eqn:E. simpl. intros ->. exists x. rewrite E. auto.
Qed.

Lemma returns_inj {A : Type} (c : M A) a b : returns c a -> returns c b -> a = b.
Proof. unfold returns. intros -> H. inversion H. reflexivity. Qed.

Lemma returns_getitem {A : Type} (l : list A) i x :
  nth_error l i = Some x -> returns (getitem l i) x.
Proof. intros H. rewrite (getitem_some l i H). reflexivity. Qed.

Lemma returns_getitem_inv {A : Type} (l : list A) i x :
  returns (getitem l i) x -> nth_error l i = Some x.
Proof.
  unfold returns, getitem. destruct (nth_error l i); simpl; intros H;
    inversion H. reflexivity.
Qed.

Lemma returns_for_each {A B : Type} (f : A -> M B) (g : A -> B) l :
  (forall x, In x l -> returns (f x) (g x)) ->
  returns (for_each f l) (map g l).
Proof.
  induction l as [| x l IH]; intros H; [reflexivity |].
  cbn [for_each map].
  eapply returns_bind; [apply H; left; reflexivity |].
  eapply returns_bind; [apply IH; intros y Hy; apply H; right; exact Hy |].
  reflexivity.
Qed.

Lemma returns_for_each_inv {A B : Type} (f : A -> M B) l :
  forall ys, returns (for_each f l) ys ->
             Forall2 (fun x y => returns (f x) y) l ys.
Proof.
  induction l as [| x l IH]; intros ys H; cbn [for_each] in H.
  - inversion H. constructor.
  - apply returns_bind_inv in H as (y & Hy & H).
    apply returns_bind_inv in H as (ys' & Hys & H).
    inversion H. constructor; auto.
Qed.

(** *** What a successful validation guarantees *)

Lemma count_check_nil f n data :
  count_check f n (Some data) = [] -> length data = n.
Proof.
  unfold count_check. destruct (length data =? n) eqn:E; [| discriminate].
  intros _. apply Nat.eqb_eq, E.
Qed.

Lemma label_count_checks_nil n labels :
  returns (label_count_checks n labels) [] ->
  Forall (fun l : text * option (list label_value) =>
            exists vs, snd l = Some vs /\ length vs = n) labels.
Proof.
  induction labels as [| [name values] rest IH]; intros H; [constructor |].
  cbn [label_count_checks] in H.
  destruct values as [vs |]; [| discriminate].
  apply returns_bind_inv in H as (errs & Herrs & H).
  inversion H as [E]. apply app_eq_nil in E as [E1 E2]. subst errs.
  constructor; [| apply IH, Herrs].
  exists vs. split; [reflexivity |].
  destruct (length vs =? n) eqn:El; [apply Nat.eqb_eq, El | discriminate].
Qed.

Lemma frame_length_checks_nil atom_types coordinates forces i :
  returns (frame_length_checks atom_types coordinates forces i) [] ->
  exists atoms coord,
    nth_error atom_types i = Some atoms
    /\ nth_error coordinates i = Some coord
    /\ length coord = length atoms * 3
    /\ match forces with
       | Some fs => exists force, nth_error fs i = Some force
                                  /\ length force = length atoms * 3
       | None => True
       end.
Proof.
  unfold frame_length_checks. intros H.
  apply returns_bind_inv in H as (atoms & Ha & H).
  apply returns_bind_inv in H as (coord & Hc & H).
  apply returns_getitem_inv in Ha, Hc.
  exists atoms, coord. split; [exact Ha |]. split; [exact Hc |].
  destruct forces as [fs |].
  - apply returns_bind_inv in H as (force & Hf & H).
    apply returns_getitem_inv in Hf.
    inversion H as [E]. apply app_eq_nil in E as [E1 E2].
    destruct (length coord =? length atoms * 3) eqn:El; [| discriminate].
    destruct (length force =? length atoms * 3) eqn:Ef; [| discriminate].
    apply Nat.eqb_eq in El, Ef. split; [exact El |].
    exists force. auto.
  - inversion H as [E].
    destruct (length coord =? length atoms * 3) eqn:El; [| discriminate].
    apply Nat.eqb_eq in El. auto.
Qed.

Lemma concat_nil_inv {A : Type} (ls : list (list A)) :
  concat ls = [] -> Forall (fun l => l = []) ls.
Proof.
  induction ls as [| l ls IH]; simpl; intros H; [constructor |].
  apply app_eq_nil in H as [H1 H2]. constructor; auto.
Qed.

Lemma print_all_raise_not_returns errors (x : unit) :
  errors <> [] ->
  ~ returns (print_all errors ;; raise ValueError ValidationFailed) x.
Proof.
  intros _ H. apply returns_bind_inv in H as (u & _ & H). discriminate.
Qed.

Lemma Forall2_nth_l {A B : Type} (R : A -> B -> Prop) l ys :
  Forall2 R l ys ->
  forall k x, nth_error l k = Some x ->
              exists y, nth_error ys k = Some y /\ R x y.
Proof.
  induction 1 as [| a b l ys Hab _ IH]; intros k x Hk.
  - destruct k; discriminate.
  - destruct k as [| k]; simpl in *.
    + inversion Hk; subst. exists b. auto.
    + apply IH, Hk.
Qed.

Lemma nth_error_seq_0 n i : i < n -> nth_error (seq 0 n) i = Some i.
Proof.
  intros H. rewrite nth_error_nth' with (d := 0) by (rewrite length_seq; lia).
  rewrite seq_nth by lia. reflexivity.
Qed.

(** The invariants of a validated frame collection. *)
Lemma validate_returns_inv atom_types coordinates energies forces box labels :
  returns (validate_data_consistency atom_types coordinates energies forces
             box labels) tt ->
  length coordinates = length atom_types
  /\ length energies = length atom_types
  /\ (forall fs, forces = Some fs -> length fs = length atom_types)
  /\ (forall b, box = Some b -> length b = length atom_types)
  /\ Forall (fun l : text * option (list label_value) =>
               exists vs, snd l = Some vs /\ length vs = length atom_types)
       labels
  /\ forall i, i < length atom_types ->
       exists atoms coord,
         nth_error atom_types i = Some atoms
         /\ nth_error coordinates i = Some coord
         /\ length coord = length atoms * 3
         /\ match forces with
            | Some fs => exists force, nth_error fs i = Some force
                                       /\ length force = length atoms * 3
            | None => True
            end.
Proof.
  unfold validate_data_consistency. intros H.
  apply returns_bind_inv in H as (errors1 & H1 & H).
  apply returns_bind_inv in H as (errors2 & H2 & H).
  match type of H with
  | returns (match ?e with _ => _ end) _ => destruct e eqn:E
  end.
  2:{ exfalso. eapply print_all_raise_not_returns; [| exact H]. discriminate. }
  clear H.
  apply app_eq_nil in E as [E0 E]. apply app_eq_nil in E as [E1 E2].
  apply app_eq_nil in E0 as [Ec E0]. apply app_eq_nil in E0 as [Ee E0].
  apply app_eq_nil in E0 as [Ef Eb]. subst errors1.
  split; [eapply count_check_nil, Ec |].
  split; [eapply count_check_nil, Ee |].
  split; [intros fs ->; eapply count_check_nil, Ef |].
  split; [intros b ->; eapply count_check_nil, Eb |].
  split; [apply label_count_checks_nil, H1 |].
  intros i Hi. apply returns_for_each_inv in H2.
  apply concat_nil_inv in E2.
  destruct (Forall2_nth_l H2 i (nth_error_seq_0 Hi)) as (errs & Herrs & Hret).
  apply frame_length_checks_nil.
  assert (errs = []).
  { rewrite Forall_forall in E2. apply E2. eapply nth_error_In; eauto. }
  subst errs. exact Hret.
Qed.

(** *** The validator when every frame has its rows *)

Lemma for_each_quiet {A B : Type} (f : A -> M B) (l : list A) :
  (forall x, In x l -> exists y, f x = ([], inr y)) ->
  exists ys, for_each f l = ([], inr ys)
             /\ Forall2 (fun x y => f x = ([], inr y)) l ys.
Proof.
  induction l as [| x l IH]; intros H; cbn [for_each].
  - exists []. split; [reflexivity | constructor].
  - destruct (H x (or_introl eq_refl)) as (y & Ey).
    destruct IH as (ys & Eys & Hys); [intros z Hz; apply H; right; exact Hz |].
    exists (y :: ys). rewrite Ey. cbn. rewrite Eys. cbn.
    split; [reflexivity | constructor; assumption].
Qed.

Lemma label_count_checks_quiet n labels :
  Forall (fun l : text * option (list label_value) => snd l <> None) labels ->
  label_count_checks n labels
  = ([], inr (concat
                (map (fun l : text * option (list label_value) =>
                        match snd l with
                        | Some vs =>
                            if length vs =? n then []
                            else [LabelCountMismatch (fst l) (length vs) n]
                        | None => []
                        end) labels))).
Proof.
  induction 1 as [| [name values] rest Hv _ IH]; [reflexivity |].
  cbn [label_count_checks map concat fst snd] in *.
  destruct values as [vs |]; [| congruence].
  rewrite IH. reflexivity.
Qed.

Lemma print_all_prints errors : print_all errors = (map Printed errors, inr tt).
Proof.
  induction errors as [| e rest IH]; [reflexivity |].
  cbn [print_all map]. rewrite IH. reflexivity.
Qed.

Lemma frame_length_checks_quiet atom_types coordinates forces i :
  i < length atom_types ->
  length atom_types <= length coordinates ->
  (forall fs, forces = Some fs -> length atom_types <= length fs) ->
  frame_length_checks atom_types coordinates forces i
  = ([], inr (frame_violations (nth i atom_types []) (nth i coordinates [])
                (option_map (fun fs => nth i fs []) forces) i)).
Proof.
  intros Hi Hc Hf. unfold frame_length_checks, getitem, frame_violations.
  rewrite (nth_error_nth' atom_types []) by lia.
  rewrite (nth_error_nth' coordinates []) by lia.
  destruct forces as [fs |]; cbn [option_map].
  - specialize (Hf fs eq_refl).
    rewrite (nth_error_nth' fs []) by lia. reflexivity.
  - cbn. rewrite app_nil_r. reflexivity.
Qed.

(** X4.  When no collection is shorter than [atom_types] and every label
    has a sequence, the validator does what its text says: every check is
    made, and if any fails, every violation is printed, in order, and the
    validator raises its [ValueError]. *)
Lemma validator_reports_every_violation
  atom_types coordinates energies forces box labels :
  length atom_types <= length coordinates ->
  (forall fs, forces = Some fs -> length atom_types <= length fs) ->
  Forall (fun l : text * option (list label_value) => snd l <> None) labels ->
  let n := length atom_types in
  let errors :=
    count_check Coordinates n (Some coordinates)
    ++ count_check Energies n (Some energies)
    ++ count_check Forces n forces
    ++ count_check Box n box
    ++ concat
         (map (fun l : text * option (list label_value) =>
                 match snd l with
                 | Some vs =>
                     if length vs =? n then []
                     else [LabelCountMismatch (fst l) (length vs) n]
                 | None => []
                 end) labels)
    ++ concat
         (map (fun i =>
                 frame_violations (nth i atom_types []) (nth i coordinates [])
                   (option_map (fun fs => nth i fs []) forces) i)
            (seq 0 n)) in
  validate_data_consistency atom_types coordinates energies forces box labels
  = match errors with
    | [] => ([], inr tt)
    | _ => (map Printed errors, inl (Exn ValueError ValidationFailed))
    end.
Proof.
  intros Hc Hf Hl n errors. unfold validate_data_consistency. fold n.
  rewrite (label_count_checks_quiet n Hl).
  destruct (@for_each_quiet _ _
              (frame_length_checks atom_types coordinates forces) (seq 0 n))
    as (errors2 & E2 & H2).
  { intros i Hi. apply in_seq in Hi. eexists.
    apply frame_length_checks_quiet; [unfold n in Hi; lia | exact Hc | exact Hf]. }
  assert (Eq : errors2
               = map (fun i =>
                        frame_violations (nth i atom_types [])
                          (nth i coordinates [])
                          (option_map (fun fs => nth i fs []) forces) i)
                   (seq 0 n)).
  { assert (Hin : forall i, In i (seq 0 n) -> i < length atom_types)
      by (intros i Hi; apply in_seq in Hi; unfold n in Hi; lia).
    revert Hin. clear E2.
    induction H2 as [| i errs l ys Hi _ IH]; intros Hin; [reflexivity |].
    cbn [map]. rewrite IH by (intros j Hj; apply Hin; right; exact Hj).
    rewrite frame_length_checks_quiet in Hi
      by (try apply Hin; auto; left; reflexivity).
    inversion Hi. reflexivity. }
  cbn [bind]. rewrite E2, Eq. subst errors. cbv zeta.
  cbn [bind app]. rewrite <- !app_assoc.
  match goal with
  | |- _ = match ?e with [] => _ | _ => _ end => set (errs := e)
  end.
  match goal with
  | |- context [match ?e with [] => ret tt | _ => _ end] =>
      change e with errs
  end.
  destruct errs as [| e rest]; [reflexivity |].
  rewrite print_all_prints. cbn [bind raise app]. rewrite app_nil_r.
  reflexivity.
Qed.

(** *** The extended serializer on a validated collection *)

Lemma slice_length {A : Type} (l : list A) a b :
  a <= b -> b <= length l -> length (slice l a b) = b - a.
Proof. unfold slice. intros. rewrite length_firstn, length_skipn. lia. Qed.

Lemma join_cons sep x l :
  l <> [] -> join sep (x :: l) = x ++ sep ++ join sep l.
Proof. destruct l; [congruence | reflexivity]. Qed.

Lemma join_app sep a b :
  a <> [] -> b <> [] ->
  join sep (a ++ b) = join sep a ++ sep ++ join sep b.
Proof.
  induction a as [| x a IH]; [congruence |]. intros _ Hb.
  destruct a as [| y a].
  - cbn [app]. rewrite join_cons by exact Hb. reflexivity.
  - change ((x :: y :: a) ++ b) with (x :: (y :: a) ++ b).
    rewrite join_cons by discriminate.
    rewrite IH by (discriminate || exact Hb).
    rewrite (join_cons sep x (l := y :: a)) by discriminate.
    rewrite <- !app_assoc. reflexivity.
Qed.

Lemma length_nonempty {A : Type} (l : list A) n :
  length l = S n -> l <> [].
Proof. destruct l; [discriminate | discriminate]. Qed.

Lemma returns_print_then {A : Type} m (c : M A) a :
  returns c a -> returns (print m ;; c) a.
Proof. intros H. eapply returns_bind; [reflexivity | exact H]. Qed.

Lemma extxyz_atom_line_returns atoms crow frow i j :
  j < length atoms ->
  length crow = length atoms * 3 ->
  (forall fr, frow = Some fr -> length fr = length atoms * 3) ->
  returns (extxyz_atom_line atoms crow frow i j)
    (join (txt " ") (atom_fields atoms crow frow j)).
Proof.
  intros Hj Hc Hf. unfold extxyz_atom_line, atom_fields.
  assert (E1 : (length atoms <=? j) = false) by (apply Nat.leb_gt; lia).
  assert (E2 : (length crow <? (j + 1) * 3) = false)
    by (apply Nat.ltb_ge; lia).
  rewrite E1. rewrite (getitem_some atoms j (x := nth j atoms [])), bind_ret_l
    by (apply nth_error_nth'; exact Hj).
  rewrite E2.
  assert (Hcl : length (slice crow (j * 3) ((j + 1) * 3)) = 3)
    by (rewrite slice_length; lia).
  destruct frow as [fr |].
  - specialize (Hf fr eq_refl).
    assert (E3 : (length fr <? (j + 1) * 3) = false)
      by (apply Nat.ltb_ge; lia).
    rewrite E3.
    assert (Hfl : length (slice fr (j * 3) ((j + 1) * 3)) = 3)
      by (rewrite slice_length; lia).
    unfold returns, ret. cbn [snd]. f_equal.
    rewrite join_cons.
    2:{ intros E. apply app_eq_nil in E as [E _].
        eapply length_nonempty in Hcl. congruence. }
    rewrite join_app by (eapply length_nonempty; eassumption).
    rewrite <- !app_assoc. reflexivity.
  - unfold returns, ret. cbn [snd]. f_equal. rewrite app_nil_r.
    rewrite join_cons by (eapply length_nonempty; eassumption).
    reflexivity.
Qed.

Lemma label_tokens_returns i labels :
  returns (label_tokens i labels)
    (concat (map label_chunk (frame_labels i labels))).
Proof.
  unfold returns. rewrite label_tokens_eq. cbn [snd]. f_equal.
  unfold frame_labels.
  induction labels as [| [name values] rest IH]; [reflexivity |].
  cbn [map concat fst snd]. rewrite IH.
  destruct (label_value_at values i); [| reflexivity].
  cbn [map concat app]. unfold label_chunk. cbn [fst snd].
  rewrite <- !app_assoc. reflexivity.
Qed.

Lemma metadata_line_returns energies forces box labels pbc_option i erow :
  nth_error energies i = Some erow -> erow <> [] ->
  returns (metadata_line energies forces box labels pbc_option i)
    (metadata_text energies forces box labels pbc_option i).
Proof.
  intros He Hne. unfold metadata_line, metadata_text, metadata_shape.
  eapply returns_bind; [apply label_tokens_returns |].
  eapply returns_bind; [apply returns_getitem, He |].
  rewrite (nth_error_nth _ _ [] He).
  destruct erow as [| e erow]; [congruence |].
  eapply returns_bind; [apply returns_getitem; reflexivity |].
  reflexivity.
Qed.

Lemma extxyz_frame_returns atom_types coordinates energies forces box labels
  pbc_option i atoms crow erow :
  nth_error atom_types i = Some atoms ->
  nth_error coordinates i = Some crow ->
  length crow = length atoms * 3 ->
  match forces with
  | Some fs => exists force, nth_error fs i = Some force
                             /\ length force = length atoms * 3
  | None => True
  end ->
  nth_error energies i = Some erow -> erow <> [] ->
  returns
    (extxyz_frame atom_types coordinates energies forces box labels
       pbc_option i)
    (frame_text atom_types coordinates energies forces box labels
       pbc_option i).
Proof.
  intros Ha Hc Hcl Hf He Hne. unfold extxyz_frame, frame_text.
  eapply returns_bind; [apply returns_getitem, Ha |].
  apply returns_print_then.
  assert (E1 : (length energies <=? i) = false).
  { apply Nat.leb_gt. apply nth_error_Some. congruence. }
  rewrite E1.
  eapply returns_bind; [eapply metadata_line_returns; eassumption |].
  eapply returns_bind; [apply returns_getitem, Hc |].
  rewrite Hcl, Nat.eqb_refl. cbn [negb].
  rewrite (nth_error_nth _ _ [] Ha), (nth_error_nth _ _ [] Hc).
  eapply returns_bind with (a := force_row_at forces i).
  { destruct forces as [fs |]; [| reflexivity].
    destruct Hf as (force & Hfr & Hfl).
    eapply returns_bind; [apply returns_getitem, Hfr |].
    rewrite Hfl, Nat.eqb_refl. cbn [negb force_row_at].
    rewrite (nth_error_nth _ _ [] Hfr). reflexivity. }
  eapply returns_bind.
  { apply returns_for_each
      with (g := fun j => join (txt " ")
                            (atom_fields atoms crow (force_row_at forces i) j)).
    intros j Hj. apply in_seq in Hj.
    apply extxyz_atom_line_returns; [lia | exact Hcl |].
    intros fr Hfr. destruct forces as [fs |]; [| discriminate].
    destruct Hf as (force & Hforce & Hfl). cbn [force_row_at] in Hfr.
    rewrite (nth_error_nth _ _ [] Hforce) in Hfr. inversion Hfr; subst.
    exact Hfl. }
  reflexivity.
Qed.

Lemma rows_ok_row_nonempty data i row :
  rows_ok data = true -> nth_error data i = Some row -> row <> [].
Proof.
  intros H Hn. pose proof (rows_ok_nth data i H Hn) as Hr.
  destruct row; [discriminate | discriminate].
Qed.

Lemma generate_extxyz_content_returns atom_types coordinates energies forces
  box labels pbc_option :
  rows_ok energies = true ->
  returns (validate_data_consistency atom_types coordinates energies forces
             box labels) tt ->
  returns
    (generate_extxyz_content atom_types coordinates energies forces box
       labels pbc_option)
    (extxyz_text atom_types coordinates energies forces box labels
       pbc_option).
Proof.
  intros Hen Hv.
  apply validate_returns_inv in Hv as (Hlc & Hle & _ & _ & _ & Hframes).
  unfold generate_extxyz_content, extxyz_text.
  eapply returns_bind; [| reflexivity].
  apply returns_for_each. intros i Hi. apply in_seq in Hi.
  destruct (Hframes i) as (atoms & crow & Ha & Hc & Hcl & Hf); [lia |].
  destruct (nth_error energies i) as [erow |] eqn:He.
  2:{ apply nth_error_None in He. lia. }
  eapply extxyz_frame_returns; eauto.
  eapply rows_ok_row_nonempty; eauto.
Qed.

(** *** Frames found again by the parser *)

Lemma push_rest rest :
  forallb (fun l => negb (isdigit l)) rest = true ->
  forall frames cur,
    fold_left push_line rest (frames, cur) = (frames, cur ++ rest).
Proof.
  induction rest as [| l rest IH]; intros H frames cur.
  - rewrite app_nil_r. reflexivity.
  - cbn [forallb] in H. apply andb_true_iff in H as [Hl Hrest].
    apply negb_true_iff in Hl.
    cbn [fold_left push_line]. rewrite Hl, IH by exact Hrest.
    rewrite <- app_assoc. reflexivity.
Qed.

Lemma push_frame frame :
  frame_shape frame = true ->
  forall frames cur,
    fold_left push_line frame (frames, cur) = (frames ++ flush cur, frame).
Proof.
  destruct frame as [| d rest]; [discriminate |].
  cbn [frame_shape]. intros H frames cur.
  apply andb_true_iff in H as [Hd Hrest].
  cbn [fold_left push_line]. rewrite Hd.
  apply push_rest, Hrest.
Qed.

Lemma push_frames frames :
  Forall (fun f => frame_shape f = true) frames ->
  forall acc cur,
    (let (a, c) := fold_left push_line (concat frames) (acc, cur) in
     a ++ flush c) = acc ++ flush cur ++ frames.
Proof.
  induction 1 as [| f frames Hf _ IH]; intros acc cur.
  - cbn. rewrite app_nil_r. reflexivity.
  - cbn [concat]. rewrite fold_left_app, push_frame by exact Hf.
    rewrite IH. destruct f; [discriminate |].
    cbn [flush]. rewrite <- !app_assoc. reflexivity.
Qed.

Lemma collect_frames_written frames :
  Forall (fun f => frame_shape f = true) frames ->
  Forall (fun l => line_ok l = true) (concat frames) ->
  collect_frames (file_lines (join NL (concat frames))) = frames.
Proof.
  intros Hshape Hlines. unfold collect_frames.
  rewrite fold_scan_line, file_lines_join by exact Hlines.
  apply (push_frames Hshape [] []).
Qed.

(** *** Character classes *)

Ltac ascii_cases c :=
  destruct c as [[] [] [] [] [] [] [] []]; vm_compute; intuition congruence.

Lemma word_no_eol c : isword c = true -> noeol c = true.
Proof. ascii_cases c. Qed.

Lemma word_no_dq c : isword c = true -> notdq c = true.
Proof. ascii_cases c. Qed.

Lemma word_no_sp c : isword c = true -> notsp c = true.
Proof. ascii_cases c. Qed.

Lemma word_no_equals c : isword c = true -> Ascii.eqb c EQ = false.
Proof. ascii_cases c. Qed.

Lemma notspace_notsp c : notspace c = true -> notsp c = true.
Proof. ascii_cases c. Qed.

(** *** The lines of a written frame are clean *)

Lemma forallb_firstn {A : Type} (p : A -> bool) l :
  forallb p l = true -> forall n, forallb p (firstn n l) = true.
Proof.
  induction l as [| x l IH]; intros H n; destruct n; try reflexivity.
  cbn [forallb firstn] in *. apply andb_true_iff in H as [-> H].
  apply IH, H.
Qed.

Lemma forallb_skipn {A : Type} (p : A -> bool) l :
  forallb p l = true -> forall n, forallb p (skipn n l) = true.
Proof.
  induction l as [| x l IH]; intros H n; destruct n; try reflexivity.
  - exact H.
  - cbn [forallb skipn] in *. apply andb_true_iff in H as [_ H].
    apply IH, H.
Qed.

Lemma forallb_slice {A : Type} (p : A -> bool) l a b :
  forallb p l = true -> forallb p (slice l a b) = true.
Proof. intros H. unfold slice. apply forallb_firstn, forallb_skipn, H. Qed.

Lemma forallb_nth {A : Type} (p : A -> bool) l j d :
  j < length l -> forallb p l = true -> p (nth j l d) = true.
Proof.
  intros Hj H. rewrite forallb_forall in H. apply H, nth_In, Hj.
Qed.

Lemma atom_fields_ok atoms crow frow j :
  j < length atoms ->
  forallb token_ok atoms = true ->
  forallb token_ok crow = true ->
  (forall fr, frow = Some fr -> forallb token_ok fr = true) ->
  forallb token_ok (atom_fields atoms crow frow j) = true.
Proof.
  intros Hj Ha Hc Hf. unfold atom_fields. cbn [forallb].
  rewrite (forallb_nth token_ok atoms [] Hj Ha).
  rewrite forallb_app, forallb_slice by exact Hc.
  destruct frow as [fr |]; [| reflexivity].
  rewrite forallb_slice by (apply Hf; reflexivity). reflexivity.
Qed.

Lemma line_ok_intro l c r body d :
  l = c :: r -> l = body ++ [d] ->
  notspace c = true -> notspace d = true -> forallb noeol l = true ->
  line_ok l = true.
Proof.
  intros E1 E2 Hc Hd Hl. unfold line_ok. rewrite E1. rewrite <- E1.
  rewrite Hl, Hc. rewrite E2 at 1. rewrite last_last, Hd. reflexivity.
Qed.

Lemma token_ends tok :
  token_ok tok = true ->
  exists body d, tok = body ++ [d] /\ notspace d = true.
Proof.
  intros H. apply token_ok_spec in H as [Hne H].
  destruct (exists_last Hne) as (body & d & ->).
  exists body, d. split; [reflexivity |].
  rewrite forallb_app in H. apply andb_true_iff in H as [_ H].
  cbn in H. rewrite andb_true_r in H. exact H.
Qed.

Lemma join_tokens_ends toks :
  toks <> [] -> forallb token_ok toks = true ->
  exists body d, join (txt " ") toks = body ++ [d] /\ notspace d = true.
Proof.
  induction toks as [| t toks IH]; [congruence |]. intros _ H.
  cbn [forallb] in H. apply andb_true_iff in H as [Ht Htoks].
  destruct toks as [| t' toks].
  - cbn [join]. apply token_ends, Ht.
  - destruct IH as (body & d & E & Hd); [discriminate | exact Htoks |].
    rewrite join_cons by discriminate. rewrite E.
    exists (t ++ txt " " ++ body), d. rewrite <- !app_assoc. auto.
Qed.

Lemma token_noeol tok : token_ok tok = true -> forallb noeol tok = true.
Proof.
  intros H. apply token_ok_spec in H as [_ H].
  eapply forallb_impl; [apply notspace_noeol | exact H].
Qed.

Lemma forallb_Forall {A : Type} (p : A -> bool) l :
  forallb p l = true <-> Forall (fun x => p x = true) l.
Proof. rewrite forallb_forall, Forall_forall. reflexivity. Qed.

Lemma join_tokens_line_ok toks :
  toks <> [] -> forallb token_ok toks = true ->
  line_ok (join (txt " ") toks) = true.
Proof.
  intros Hne H.
  destruct (join_tokens_ends Hne H) as (body & d & E & Hd).
  destruct toks as [| t toks]; [congruence |].
  assert (Ht : token_ok t = true)
    by (cbn [forallb] in H; apply andb_true_iff in H as [Ht _]; exact Ht).
  pose proof Ht as Ht'. apply token_ok_spec in Ht' as [Htne Hts].
  destruct t as [| c t]; [congruence |].
  assert (Ej : exists r, join (txt " ") ((c :: t) :: toks) = c :: r).
  { destruct toks; cbn; eexists; reflexivity. }
  destruct Ej as (r & Ej).
  eapply line_ok_intro; [exact Ej | exact E | | exact Hd |].
  - cbn [forallb] in Hts. apply andb_true_iff in Hts as [Hc _]. exact Hc.
  - apply forallb_join; [reflexivity |].
    apply forallb_Forall in H. eapply Forall_impl; [| exact H].
    intros tok. apply token_noeol.
Qed.

Lemma isdigit_false s : forallb isdigit_char s = false -> isdigit s = false.
Proof. destruct s; [reflexivity | intros H; exact H]. Qed.

Lemma join_two_not_digit t t' toks :
  isdigit (join (txt " ") (t :: t' :: toks)) = false.
Proof.
  apply isdigit_false. rewrite join_cons by discriminate.
  rewrite forallb_app. apply andb_false_iff. right. reflexivity.
Qed.

Lemma atom_fields_two atoms crow frow j :
  j < length atoms -> length crow = length atoms * 3 ->
  exists t t' toks, atom_fields atoms crow frow j = t :: t' :: toks.
Proof.
  intros Hj Hc. unfold atom_fields.
  assert (Hcl : length (slice crow (j * 3) ((j + 1) * 3)) = 3)
    by (rewrite slice_length; lia).
  destruct (slice crow (j * 3) ((j + 1) * 3)) as [| x l]; [discriminate |].
  do 3 eexists. reflexivity.
Qed.

Lemma atom_lines_text_clean atoms crow frow :
  forallb token_ok atoms = true ->
  forallb token_ok crow = true ->
  (forall fr, frow = Some fr -> forallb token_ok fr = true) ->
  length crow = length atoms * 3 ->
  Forall (fun l => line_ok l = true /\ isdigit l = false)
    (atom_lines_text atoms crow frow).
Proof.
  intros Ha Hc Hf Hcl. unfold atom_lines_text.
  apply Forall_forall. intros l Hl. apply in_map_iff in Hl as (j & <- & Hj).
  apply in_seq in Hj.
  destruct (@atom_fields_two atoms crow frow j) as (t & t' & toks & E);
    [lia | exact Hcl |].
  split.
  - apply join_tokens_line_ok.
    + rewrite E. discriminate.
    + apply atom_fields_ok; [lia | assumption ..].
  - rewrite E. apply join_two_not_digit.
Qed.

(** *** The label pattern on a written metadata line *)

Lemma span_app p a b :
  forallb p a = true ->
  match b with [] => True | c :: _ => p c = false end ->
  span p (a ++ b) = (a, b).
Proof.
  induction a as [| x a IH]; intros Ha Hb.
  - destruct b as [| c b]; [reflexivity |]. cbn. rewrite Hb. reflexivity.
  - cbn [forallb] in Ha. apply andb_true_iff in Ha as [Hx Ha].
    cbn [app span]. rewrite Hx, IH by assumption. reflexivity.
Qed.

Lemma match_label_at_chunk key value rest :
  key <> [] -> forallb isword key = true ->
  value <> [] -> forallb notsp value = true ->
  at_space rest ->
  match_label_at (key ++ EQ :: value ++ rest) = Some (key, value).
Proof.
  intros Hk Hkw Hv Hvs Hrest. unfold match_label_at.
  rewrite span_app by (exact Hkw || reflexivity).
  destruct key as [| k0 key]; [congruence |].
  rewrite Ascii.eqb_refl.
  rewrite span_app.
  - destruct value; [congruence | reflexivity].
  - exact Hvs.
  - destruct rest as [| c rest]; [exact I |]. cbn in Hrest. subst c.
    reflexivity.
Qed.

Lemma findall_skip a :
  forall rest,
    findall_labels_from (length a) (a ++ rest) = findall_labels_from 0 rest.
Proof.
  induction a as [| c a IH]; intros rest; [reflexivity |].
  cbn [length app findall_labels_from]. apply IH.
Qed.

Lemma findall_chunk key value rest :
  key <> [] -> forallb isword key = true ->
  value <> [] -> forallb notsp value = true ->
  at_space rest ->
  findall_labels (key ++ EQ :: value ++ rest)
  = (key, value) :: findall_labels rest.
Proof.
  intros Hk Hkw Hv Hvs Hrest. unfold findall_labels.
  pose proof (match_label_at_chunk rest Hk Hkw Hv Hvs Hrest) as Hm.
  destruct key as [| k0 key]; [congruence |].
  cbn [app findall_labels_from]. cbn [app] in Hm. rewrite Hm.
  f_equal.
  replace (length (k0 :: key) + length value)
    with (length (key ++ EQ :: value))
    by (rewrite length_app; cbn [length]; lia).
  replace (key ++ EQ :: value ++ rest) with ((key ++ EQ :: value) ++ rest)
    by (rewrite <- app_assoc; reflexivity).
  apply findall_skip.
Qed.

Lemma findall_space rest :
  findall_labels (SP :: rest) = findall_labels rest.
Proof. reflexivity. Qed.

Lemma match_label_at_needs_equals s :
  forallb noeq s = true -> match_label_at s = None.
Proof.
  intros H. destruct (match_label_at s) as [[k v] |] eqn:E; [| reflexivity].
  apply match_label_at_spec in E as (_ & _ & _ & _ & rest & ->).
  rewrite forallb_app in H. apply andb_true_iff in H as [_ H].
  cbn in H. discriminate.
Qed.

Lemma findall_no_equals s :
  forallb noeq s = true -> forall skip, findall_labels_from skip s = [].
Proof.
  induction s as [| c s IH]; intros H skip; [reflexivity |].
  cbn [findall_labels_from]. destruct skip as [| k].
  - rewrite (match_label_at_needs_equals _ H).
    cbn [forallb] in H. apply andb_true_iff in H as [_ H]. apply IH, H.
  - cbn [forallb] in H. apply andb_true_iff in H as [_ H]. apply IH, H.
Qed.

Lemma chunk_ok_spec kv :
  chunk_ok kv = true ->
  fst kv <> [] /\ forallb isword (fst kv) = true
  /\ reserved (fst kv) = false
  /\ snd kv <> []
  /\ forallb notsp (snd kv) = true
  /\ forallb noeol (snd kv) = true
  /\ forallb notdq (snd kv) = true.
Proof.
  destruct kv as [k v]. unfold chunk_ok, label_name_ok. cbn [fst snd].
  intros H. apply andb_true_iff in H as [Hk Hv].
  destruct k as [| k0 k]; [discriminate |].
  apply andb_true_iff in Hk as [Hkw Hkr]. apply negb_true_iff in Hkr.
  destruct v as [| v0 v]; [discriminate |].
  repeat split; try discriminate; try assumption.
  - eapply forallb_impl; [| exact Hv]. intros c Hc.
    apply andb_true_iff in Hc as [Hc _].
    apply andb_true_iff in Hc as [Hc _]. exact Hc.
  - eapply forallb_impl; [| exact Hv]. intros c Hc.
    apply andb_true_iff in Hc as [Hc _].
    apply andb_true_iff in Hc as [_ Hc]. exact Hc.
  - eapply forallb_impl; [| exact Hv]. intros c Hc.
    apply andb_true_iff in Hc as [_ Hc]. exact Hc.
Qed.

Lemma at_space_chunks kvs tail :
  at_space tail -> tail <> [] ->
  at_space (concat (map label_chunk kvs) ++ tail).
Proof.
  intros Ht Hne. destruct kvs as [| kv kvs]; [exact Ht |]. reflexivity.
Qed.

Lemma findall_chunks kvs tail :
  forallb chunk_ok kvs = true ->
  at_space tail -> tail <> [] ->
  findall_labels (concat (map label_chunk kvs) ++ tail)
  = kvs ++ findall_labels tail.
Proof.
  intros H Ht Hne. induction kvs as [| [k v] kvs IH]; [reflexivity |].
  cbn [forallb] in H. apply andb_true_iff in H as [Hkv H].
  apply chunk_ok_spec in Hkv as (Hk & Hkw & _ & Hv & Hvs & _ & _).
  cbn [fst snd] in *.
  cbn [map concat]. unfold label_chunk at 1. cbn [fst snd].
  change (txt " ") with [SP]. cbn [app].
  rewrite findall_space.
  rewrite <- !app_assoc. cbn [app].
  rewrite findall_chunk; try assumption.
  - cbn [app]. f_equal. apply IH, H.
  - apply at_space_chunks; assumption.
Qed.

Lemma span_head_true p c s :
  p c = true -> exists a b, span p (c :: s) = (c :: a, b).
Proof.
  intros H. cbn [span]. rewrite H. destruct (span p s) as [a b].
  exists a, b. reflexivity.
Qed.

(** The pbc token contributes only a match of key [pbc]. *)
Lemma findall_pbc_token pbc :
  forallb noeq pbc = true ->
  exists v, findall_labels (txt "pbc=" ++ [DQ] ++ pbc ++ [DQ])
            = [(txt "pbc", v)].
Proof.
  intros H.
  destruct (span_head_true notsp DQ (pbc ++ [DQ]) eq_refl) as (a & b & Es).
  pose proof (span_spec _ _ Es) as [Eab Ha].
  assert (Hb : at_space b).
  { destruct b as [| c b]; [exact I |].
    apply span_rest_head in Es. unfold notsp in Es.
    apply negb_false_iff, Ascii.eqb_eq in Es. exact Es. }
  assert (Hnoeq : forallb noeq (DQ :: pbc ++ [DQ]) = true).
  { cbn [forallb]. rewrite forallb_app, H. reflexivity. }
  exists (DQ :: a).
  change (txt "pbc=" ++ [DQ] ++ pbc ++ [DQ])
    with (txt "pbc" ++ EQ :: DQ :: pbc ++ [DQ]).
  rewrite Eab.
  rewrite findall_chunk; try assumption; try discriminate; try reflexivity.
  f_equal. apply findall_no_equals.
  rewrite Eab, forallb_app in Hnoeq.
  apply andb_true_iff in Hnoeq as [_ Hnoeq]. exact Hnoeq.
Qed.

Lemma findall_metadata forces kvs energy pbc :
  forallb chunk_ok kvs = true ->
  energy <> [] -> forallb notsp energy = true ->
  forallb noeq pbc = true ->
  exists v0 v,
    findall_labels (metadata_shape (properties_token forces) kvs energy pbc)
    = (txt "Properties", v0) :: (kvs ++ [(txt "energy", energy)])
      ++ [(txt "pbc", v)].
Proof.
  intros Hkvs He Hes Hpbc.
  destruct (findall_pbc_token pbc Hpbc) as (v & Hv).
  assert (Etail :
            findall_labels
              (txt " energy=" ++ energy ++ txt " pbc=" ++ [DQ] ++ pbc ++ [DQ])
            = [(txt "energy", energy); (txt "pbc", v)]).
  { change (txt " energy=" ++ energy ++ txt " pbc=" ++ [DQ] ++ pbc ++ [DQ])
      with (SP :: txt "energy" ++ EQ :: energy
               ++ SP :: (txt "pbc=" ++ [DQ] ++ pbc ++ [DQ])).
    rewrite findall_space.
    rewrite findall_chunk; try assumption; try discriminate; try reflexivity.
    rewrite findall_space, Hv. reflexivity. }
  assert (Hrest :
            findall_labels
              (concat (map label_chunk kvs)
               ++ txt " energy=" ++ energy
               ++ txt " pbc=" ++ [DQ] ++ pbc ++ [DQ])
            = kvs ++ [(txt "energy", energy); (txt "pbc", v)]).
  { rewrite findall_chunks; try assumption; try discriminate; try reflexivity.
    rewrite Etail. reflexivity. }
  unfold metadata_shape.
  set (R := concat (map label_chunk kvs)
            ++ txt " energy=" ++ energy
            ++ txt " pbc=" ++ [DQ] ++ pbc ++ [DQ]) in *.
  assert (Hsp : at_space R).
  { apply at_space_chunks; [reflexivity | discriminate]. }
  destruct forces as [fs |].
  - exists (txt "species:S:1:pos:R:3:forces:R:3"), v.
    change (properties_token (Some fs) ++ R)
      with (txt "Properties" ++ EQ :: txt "species:S:1:pos:R:3:forces:R:3"
                ++ R).
    rewrite findall_chunk; try assumption; try discriminate; try reflexivity.
    rewrite Hrest. rewrite <- app_assoc. reflexivity.
  - exists (txt "species:S:1:pos:R:3"), v.
    change (properties_token None ++ R)
      with (txt "Properties" ++ EQ :: txt "species:S:1:pos:R:3" ++ R).
    rewrite findall_chunk; try assumption; try discriminate; try reflexivity.
    rewrite Hrest. rewrite <- app_assoc. reflexivity.
Qed.

(** *** The labels and the pbc token of a written metadata line *)

Lemma distinct_NoDup names : distinct names = true -> NoDup names.
Proof.
  induction names as [| n names IH]; intros H; [constructor |].
  cbn [distinct] in H. apply andb_true_iff in H as [Hn H].
  constructor; [| apply IH, H].
  intros Hin. apply negb_true_iff in Hn.
  assert (existsb (text_eqb n) names = true); [| congruence].
  apply existsb_exists. exists n. split; [exact Hin |].
  apply text_eqb_eq. reflexivity.
Qed.

Lemma dict_set_new {V : Type} k (v : V) d :
  ~ In k (map fst d) -> dict_set k v d = d ++ [(k, v)].
Proof.
  induction d as [| [k' v'] d IH]; intros H; [reflexivity |].
  cbn [dict_set]. cbn [map fst In] in H.
  destruct (text_eq_dec k k') as [-> | _]; [tauto |].
  rewrite IH by tauto. reflexivity.
Qed.

Lemma dict_get_last {V : Type} k (v : V) d :
  ~ In k (map fst d) -> dict_get k (d ++ [(k, v)]) = Some v.
Proof.
  induction d as [| [k' v'] d IH]; intros H; cbn [app dict_get].
  - destruct (text_eq_dec k k); [reflexivity | congruence].
  - cbn [map fst In] in H.
    destruct (text_eq_dec k k') as [-> | _]; [tauto |]. apply IH. tauto.
Qed.

(** The step of the loop of [parse_labels]. *)
Lemma parse_labels_fold (l : list (text * text)) :
  forall acc,
    NoDup (map fst (acc ++ l)) ->
    Forall (fun kv : text * text =>
              text_eqb (fst kv) (txt "Properties")
              || text_eqb (fst kv) (txt "pbc") = false) l ->
    fold_left
      (fun labels kv =>
         let (key, value) := kv : text * text in
         if text_eqb key (txt "Properties") || text_eqb key (txt "pbc")
         then labels
         else dict_set key value labels) l acc
    = acc ++ l.
Proof.
  induction l as [| [k v] l IH]; intros acc Hnd Hall.
  - rewrite app_nil_r. reflexivity.
  - inversion Hall as [| ? ? Hkv Hl]; subst. cbn [fst] in Hkv.
    cbn [fold_left]. rewrite Hkv.
    rewrite dict_set_new.
    + rewrite IH; [rewrite <- app_assoc; reflexivity | | exact Hl].
      rewrite <- app_assoc. exact Hnd.
    + rewrite map_app in Hnd. cbn [map fst] in Hnd.
      apply NoDup_remove_2 in Hnd. intros Hin. apply Hnd.
      apply in_or_app. left. exact Hin.
Qed.

Lemma reserved_false name :
  reserved name = false ->
  text_eqb name (txt "Properties") || text_eqb name (txt "pbc") = false
  /\ name <> txt "energy".
Proof.
  unfold reserved. intros H. apply orb_false_iff in H as [H He].
  split; [exact H |]. intros ->. discriminate.
Qed.

Lemma parse_labels_metadata forces kvs energy pbc :
  forallb chunk_ok kvs = true ->
  distinct (map fst kvs) = true ->
  energy <> [] -> forallb notsp energy = true ->
  forallb noeq pbc = true ->
  parse_labels (metadata_shape (properties_token forces) kvs energy pbc)
  = kvs ++ [(txt "energy", energy)].
Proof.
  intros Hkvs Hd He Hes Hpbc. unfold parse_labels.
  destruct (@findall_metadata forces kvs energy pbc Hkvs He Hes Hpbc)
    as (v0 & v & ->).
  cbn [fold_left]. change (text_eqb (txt "Properties") (txt "Properties")
                           || text_eqb (txt "Properties") (txt "pbc"))
    with true. cbn iota.
  rewrite fold_left_app.
  rewrite (@parse_labels_fold (kvs ++ [(txt "energy", energy)]) []).
  - reflexivity.
  - cbn [app]. rewrite map_app. cbn [map fst].
    apply distinct_NoDup in Hd.
    assert (Hne : ~ In (txt "energy") (map fst kvs)).
    { intros Hin. apply in_map_iff in Hin as ([k w] & Ek & Hin).
      cbn [fst] in Ek. subst k.
      rewrite forallb_forall in Hkvs. specialize (Hkvs _ Hin).
      apply chunk_ok_spec in Hkvs as (_ & _ & Hr & _).
      apply reserved_false in Hr as [_ Hr]. apply Hr. reflexivity. }
    clear - Hd Hne. induction (map fst kvs) as [| n l IH]; cbn [app].
    + constructor; [intros [] | constructor].
    + inversion Hd; subst. constructor.
      * intros Hin. apply in_app_or in Hin as [Hin | [Hin | []]];
          [tauto |]. apply Hne. left. symmetry. exact Hin.
      * apply IH; [assumption |]. intros Hin. apply Hne. right. exact Hin.
  - apply Forall_app. split.
    + apply Forall_forall. intros [k w] Hin.
      rewrite forallb_forall in Hkvs. specialize (Hkvs _ Hin).
      apply chunk_ok_spec in Hkvs as (_ & _ & Hr & _).
      apply reserved_false in Hr as [Hr _]. exact Hr.
    + constructor; [reflexivity | constructor].
Qed.

Lemma strip_prefix_spec p s r : strip_prefix p s = Some r -> s = p ++ r.
Proof.
  revert s. induction p as [| a p IH]; intros s H.
  - cbn in H. inversion H. reflexivity.
  - destruct s as [| b s]; [discriminate |]. cbn [strip_prefix] in H.
    destruct (Ascii.eqb a b) eqn:E; [| discriminate].
    apply Ascii.eqb_eq in E. subst b. cbn [app]. f_equal. apply IH, H.
Qed.

(** No match of the pbc pattern starts before the pbc token when no
    double quote precedes it. *)
Lemma match_pbc_at_before c pre rest :
  forallb notdq (c :: pre) = true ->
  match_pbc_at ((c :: pre) ++ txt "pbc=" ++ rest) = None.
Proof.
  intros H. unfold match_pbc_at.
  destruct (strip_prefix _ _) as [r |] eqn:E; [| reflexivity].
  exfalso. apply strip_prefix_spec in E.
  cbn [forallb] in H. apply andb_true_iff in H as [_ H].
  cbn [app txt list_ascii_of_string] in E.
  inversion E as [[E0 E1]]. clear E E0.
  destruct pre as [| a pre]; [discriminate |].
  cbn [forallb] in H. apply andb_true_iff in H as [_ H].
  inversion E1 as [[E0 E2]]. clear E1 E0.
  destruct pre as [| b pre]; [discriminate |].
  cbn [forallb] in H. apply andb_true_iff in H as [_ H].
  inversion E2 as [[E0 E3]]. clear E2 E0.
  destruct pre as [| d pre]; [discriminate |].
  cbn [forallb] in H. apply andb_true_iff in H as [_ H].
  inversion E3 as [[E0 E4]]. clear E3 E0.
  destruct pre as [| e pre]; [discriminate |].
  cbn [forallb] in H. apply andb_true_iff in H as [He _].
  inversion E4 as [[E0 E5]]. subst e. discriminate.
Qed.

Lemma match_pbc_at_token pbc :
  pbc <> [] -> forallb notdq pbc = true ->
  match_pbc_at (txt "pbc=" ++ [DQ] ++ pbc ++ [DQ]) = Some pbc.
Proof.
  intros Hne H. unfold match_pbc_at.
  change (strip_prefix (txt "pbc=" ++ [DQ]) (txt "pbc=" ++ [DQ] ++ pbc ++ [DQ]))
    with (Some (pbc ++ [DQ])).
  cbn iota. rewrite span_app by (exact H || reflexivity).
  destruct pbc; [congruence | reflexivity].
Qed.

Lemma parse_pbc_written pre pbc :
  forallb notdq pre = true ->
  pbc <> [] -> forallb notdq pbc = true ->
  parse_pbc (pre ++ txt "pbc=" ++ [DQ] ++ pbc ++ [DQ]) = Some pbc.
Proof.
  intros Hpre Hne H. induction pre as [| c pre IH].
  - cbn [app]. pose proof (match_pbc_at_token Hne H) as Hm.
    cbn [app txt list_ascii_of_string] in *. cbn [parse_pbc].
    rewrite Hm. reflexivity.
  - pose proof (match_pbc_at_before c pre ([DQ] ++ pbc ++ [DQ]) Hpre) as Hm.
    cbn [app] in Hm |- *. cbn [parse_pbc]. rewrite Hm.
    apply IH. cbn [forallb] in Hpre.
    apply andb_true_iff in Hpre as [_ Hpre]. exact Hpre.
Qed.

(** *** A written metadata line is clean, and its parts are found *)

Lemma forallb_chunks (p : ascii -> bool) kvs :
  p SP = true -> p EQ = true ->
  Forall (fun kv : text * text =>
            forallb p (fst kv) = true /\ forallb p (snd kv) = true) kvs ->
  forallb p (concat (map label_chunk kvs)) = true.
Proof.
  intros Hsp Heq. induction 1 as [| [k v] kvs [Hk Hv] _ IH]; [reflexivity |].
  cbn [map concat]. rewrite forallb_app, IH, andb_true_r.
  unfold label_chunk. cbn [fst snd] in *.
  rewrite !forallb_app, Hk, Hv.
  change (forallb p (txt " ")) with (p SP && true).
  change (forallb p [EQ]) with (p EQ && true).
  rewrite Hsp, Heq. reflexivity.
Qed.

Lemma chunks_noeol kvs :
  forallb chunk_ok kvs = true ->
  forallb noeol (concat (map label_chunk kvs)) = true.
Proof.
  intros H. apply forallb_chunks; try reflexivity.
  apply forallb_Forall in H. eapply Forall_impl; [| exact H].
  intros kv Hkv. apply chunk_ok_spec in Hkv as (_ & Hw & _ & _ & _ & He & _).
  split; [| exact He].
  eapply forallb_impl; [apply word_no_eol | exact Hw].
Qed.

Lemma chunks_notdq kvs :
  forallb chunk_ok kvs = true ->
  forallb notdq (concat (map label_chunk kvs)) = true.
Proof.
  intros H. apply forallb_chunks; try reflexivity.
  apply forallb_Forall in H. eapply Forall_impl; [| exact H].
  intros kv Hkv. apply chunk_ok_spec in Hkv as (_ & Hw & _ & _ & _ & _ & Hq).
  split; [| exact Hq].
  eapply forallb_impl; [apply word_no_dq | exact Hw].
Qed.

Lemma properties_token_head forces :
  exists r, properties_token forces = "P"%char :: r
            /\ forallb noeol ("P"%char :: r) = true
            /\ forallb notdq ("P"%char :: r) = true.
Proof. destruct forces; eexists; repeat split; reflexivity. Qed.

Lemma metadata_shape_line_ok forces kvs energy pbc :
  forallb chunk_ok kvs = true ->
  forallb noeol energy = true -> forallb noeol pbc = true ->
  line_ok (metadata_shape (properties_token forces) kvs energy pbc) = true
  /\ isdigit (metadata_shape (properties_token forces) kvs energy pbc) = false.
Proof.
  intros Hkvs He Hp.
  destruct (properties_token_head forces) as (r & Er & Hr & _).
  unfold metadata_shape. rewrite Er. split; [| reflexivity].
  eapply line_ok_intro with (d := DQ)
    (body := ("P"%char :: r) ++ concat (map label_chunk kvs)
             ++ txt " energy=" ++ energy ++ txt " pbc=" ++ [DQ] ++ pbc).
  - reflexivity.
  - rewrite <- !app_assoc. reflexivity.
  - reflexivity.
  - reflexivity.
  - rewrite !forallb_app, Hr, (chunks_noeol _ Hkvs), He, Hp. reflexivity.
Qed.

Lemma parse_pbc_metadata forces kvs energy pbc :
  forallb chunk_ok kvs = true ->
  forallb notdq energy = true ->
  pbc <> [] -> forallb notdq pbc = true ->
  parse_pbc (metadata_shape (properties_token forces) kvs energy pbc)
  = Some pbc.
Proof.
  intros Hkvs He Hne Hp.
  destruct (properties_token_head forces) as (r & Er & _ & Hr).
  unfold metadata_shape. rewrite Er.
  replace (("P"%char :: r) ++ concat (map label_chunk kvs)
           ++ txt " energy=" ++ energy ++ txt " pbc=" ++ [DQ] ++ pbc ++ [DQ])
    with ((("P"%char :: r) ++ concat (map label_chunk kvs)
           ++ txt " energy=" ++ energy ++ [SP])
          ++ txt "pbc=" ++ [DQ] ++ pbc ++ [DQ])
    by (rewrite <- !app_assoc; reflexivity).
  apply parse_pbc_written; [| exact Hne | exact Hp].
  rewrite !forallb_app, Hr, (chunks_notdq _ Hkvs), He. reflexivity.
Qed.

Lemma split_on_from_nonempty sep s :
  forall cur, split_on_from sep cur s <> [].
Proof.
  induction s as [| c s IH]; intros cur; cbn [split_on_from];
    [discriminate |].
  destruct (Ascii.eqb c sep); [discriminate | apply IH].
Qed.

Lemma parse_properties_written forces rest :
  exists props,
    returns (parse_properties (properties_token forces ++ rest)) props.
Proof.
  unfold parse_properties.
  assert (E : exists p ps,
             split_on EQ (properties_token forces ++ rest)
             = txt "Properties" :: p :: ps).
  { destruct forces; cbn;
      match goal with
      | |- context [split_on_from EQ ?cur ?s] =>
          pose proof (@split_on_from_nonempty EQ s cur) as Hne;
          destruct (split_on_from EQ cur s) as [| p ps]; [congruence |]
      end; do 2 eexists; reflexivity. }
  destruct E as (p & ps & ->). eexists. reflexivity.
Qed.

(** *** Atom lines parsed back *)

Lemma slice_three {A : Type} (l : list A) j n :
  j < n -> length l = n * 3 ->
  exists x y z, slice l (j * 3) ((j + 1) * 3) = [x; y; z].
Proof.
  intros Hj Hl.
  assert (H : length (slice l (j * 3) ((j + 1) * 3)) = 3)
    by (rewrite slice_length; lia).
  destruct (slice l (j * 3) ((j + 1) * 3)) as [| x [| y [| z [| w r]]]];
    try discriminate.
  exists x, y, z. reflexivity.
Qed.

Lemma parse_atom_line_fields atoms crow frow j :
  j < length atoms ->
  forallb token_ok atoms = true ->
  forallb token_ok crow = true ->
  (forall fr, frow = Some fr -> forallb token_ok fr = true) ->
  length crow = length atoms * 3 ->
  (forall fr, frow = Some fr -> length fr = length atoms * 3) ->
  returns
    (parse_atom_line (join (txt " ") (atom_fields atoms crow frow j)))
    (nth j atoms [],
     slice crow (j * 3) ((j + 1) * 3),
     match frow with
     | Some fr => slice fr (j * 3) ((j + 1) * 3)
     | None => []
     end).
Proof.
  intros Hj Ha Hc Hf Hcl Hfl. unfold parse_atom_line.
  rewrite split_ws_join by (apply atom_fields_ok; assumption).
  unfold atom_fields.
  destruct (slice_three crow Hj Hcl) as (x & y & z & ->).
  destruct frow as [fr |].
  - destruct (slice_three fr Hj (Hfl fr eq_refl)) as (fx & fy & fz & ->).
    reflexivity.
  - reflexivity.
Qed.

Lemma map_nth_seq {A : Type} (l : list A) d :
  map (fun j => nth j l d) (seq 0 (length l)) = l.
Proof.
  induction l as [| x l IH]; [reflexivity |].
  cbn [length seq map nth]. f_equal.
  rewrite <- seq_shift, map_map. exact IH.
Qed.

Lemma concat_slices {A : Type} n :
  forall l : list A,
    length l = n * 3 ->
    concat (map (fun j => slice l (j * 3) ((j + 1) * 3)) (seq 0 n)) = l.
Proof.
  induction n as [| n IH]; intros l Hl.
  - destruct l; [reflexivity | discriminate].
  - cbn [seq map concat]. rewrite <- seq_shift, map_map.
    transitivity (firstn 3 l ++ skipn 3 l); [| apply firstn_skipn].
    apply f_equal2; [reflexivity |].
    etransitivity;
      [| apply (IH (skipn 3 l)); rewrite length_skipn; lia].
    f_equal. apply map_ext. intros j. unfold slice.
    replace ((S j + 1) * 3 - S j * 3) with ((j + 1) * 3 - j * 3) by lia.
    f_equal. replace (S j * 3) with (3 + j * 3) by lia.
    rewrite skipn_skipn. f_equal. lia.
Qed.

Lemma parse_atom_lines atoms crow frow :
  forallb token_ok atoms = true ->
  forallb token_ok crow = true ->
  (forall fr, frow = Some fr -> forallb token_ok fr = true) ->
  length crow = length atoms * 3 ->
  (forall fr, frow = Some fr -> length fr = length atoms * 3) ->
  exists parsed,
    returns (for_each parse_atom_line (atom_lines_text atoms crow frow))
      parsed
    /\ map (fun a : text * list text * list text => fst (fst a)) parsed
       = atoms
    /\ concat (map (fun a : text * list text * list text => snd (fst a))
                 parsed) = crow
    /\ concat (map (fun a : text * list text * list text => snd a) parsed)
       = match frow with Some fr => fr | None => [] end.
Proof.
  intros Ha Hc Hf Hcl Hfl.
  exists (map (fun j =>
                 (nth j atoms [],
                  slice crow (j * 3) ((j + 1) * 3),
                  match frow with
                  | Some fr => slice fr (j * 3) ((j + 1) * 3)
                  | None => []
                  end)) (seq 0 (length atoms))).
  split; [| split; [| split]].
  - unfold atom_lines_text.
    assert (G : forall (l : list nat),
               (forall j, In j l -> j < length atoms) ->
               returns
                 (for_each parse_atom_line
                    (map (fun j => join (txt " ")
                                     (atom_fields atoms crow frow j)) l))
                 (map (fun j =>
                         (nth j atoms [],
                          slice crow (j * 3) ((j + 1) * 3),
                          match frow with
                          | Some fr => slice fr (j * 3) ((j + 1) * 3)
                          | None => []
                          end)) l)).
    { induction l as [| j l IH]; intros Hl; [reflexivity |].
      cbn [map for_each].
      eapply returns_bind.
      - apply parse_atom_line_fields; try assumption.
        apply Hl. left. reflexivity.
      - eapply returns_bind; [apply IH; intros k Hk; apply Hl; right; exact Hk |].
        reflexivity. }
    apply G. intros j Hj. apply in_seq in Hj. lia.
  - rewrite map_map. cbn [fst]. apply map_nth_seq.
  - rewrite map_map. cbn [fst snd]. apply concat_slices, Hcl.
  - rewrite map_map. cbn [snd]. destruct frow as [fr |].
    + apply concat_slices, Hfl. reflexivity.
    + clear. induction (seq 0 (length atoms)); [reflexivity | exact IHl].
Qed.

(** *** The streams a frame adds to *)

Lemma force_write_other name forces out :
  name <> txt "force.npy.txt" ->
  stream name
    (match forces with
     | [] => out
     | _ :: _ =>
         append_file (txt "force.npy.txt") (join (txt " ") forces ++ NL) out
     end)
  = stream name out.
Proof.
  intros H. destruct forces; [reflexivity |].
  apply stream_append_other, H.
Qed.

Lemma species_stream_of_frame line atoms out :
  stream (txt "real_atom_types.npy.txt")
    (write_atom_streams atoms (write_header_streams line out))
  = stream (txt "real_atom_types.npy.txt") out
    ++ join (txt " ")
         (map (fun a : text * list text * list text => fst (fst a)) atoms)
    ++ NL.
Proof.
  unfold write_atom_streams, write_header_streams, write_box.
  rewrite force_write_other by discriminate.
  rewrite stream_append_other by discriminate.
  rewrite stream_append_same. f_equal.
  destruct (box_line_written (parse_pbc line));
    [rewrite stream_append_other by discriminate |];
    rewrite stream_append_other by discriminate;
    apply (write_labels_keeps_column line (txt "real_atom_types.npy"));
    reflexivity.
Qed.

Lemma coord_stream_of_frame line atoms out :
  stream (txt "coord.npy.txt")
    (write_atom_streams atoms (write_header_streams line out))
  = stream (txt "coord.npy.txt") out
    ++ join (txt " ")
         (concat
            (map (fun a : text * list text * list text => snd (fst a))
               atoms))
    ++ NL.
Proof.
  unfold write_atom_streams, write_header_streams, write_box.
  rewrite force_write_other by discriminate.
  rewrite stream_append_same. f_equal.
  rewrite stream_append_other by discriminate.
  destruct (box_line_written (parse_pbc line));
    [rewrite stream_append_other by discriminate |];
    rewrite stream_append_other by discriminate;
    apply (write_labels_keeps_column line (txt "coord.npy"));
    reflexivity.
Qed.

Lemma force_stream_of_frame line atoms out :
  stream (txt "force.npy.txt")
    (write_atom_streams atoms (write_header_streams line out))
  = stream (txt "force.npy.txt") out
    ++ match concat
               (map (fun a : text * list text * list text => snd a) atoms)
       with
       | [] => []
       | forces => join (txt " ") forces ++ NL
       end.
Proof.
  unfold write_atom_streams, write_header_streams, write_box.
  assert (E : forall o,
             stream (txt "force.npy.txt")
               (append_file (txt "coord.npy.txt")
                  (join (txt " ")
                     (concat
                        (map (fun a : text * list text * list text =>
                                snd (fst a)) atoms)) ++ NL)
                  (append_file (txt "real_atom_types.npy.txt")
                     (join (txt " ")
                        (map (fun a : text * list text * list text =>
                                fst (fst a)) atoms) ++ NL) o))
             = stream (txt "force.npy.txt") o).
  { intros o. rewrite !stream_append_other by discriminate. reflexivity. }
  assert (H : stream (txt "force.npy.txt")
                (match box_line_written (parse_pbc line) with
                 | Some p =>
                     append_file (txt "box.npy.txt") (p ++ NL)
                       (append_file (txt "energy.npy.txt")
                          (energy_of (parse_labels line) ++ NL)
                          (write_labels (parse_labels line) out))
                 | None =>
                     append_file (txt "energy.npy.txt")
                       (energy_of (parse_labels line) ++ NL)
                       (write_labels (parse_labels line) out)
                 end)
              = stream (txt "force.npy.txt") out).
  { destruct (box_line_written (parse_pbc line));
      [rewrite stream_append_other by discriminate |];
      rewrite stream_append_other by discriminate;
      apply (write_labels_keeps_column line (txt "force.npy"));
      reflexivity. }
  destruct (concat (map (fun a : text * list text * list text => snd a) atoms))
    as [| f fs].
  - rewrite E, H, app_nil_r. reflexivity.
  - rewrite stream_append_same, E, H. reflexivity.
Qed.

(** *** Label files *)

Lemma dict_set_keys_in {V : Type} k (v : V) d x :
  In x (map fst (dict_set k v d)) -> x = k \/ In x (map fst d).
Proof.
  induction d as [| [k' v'] d IH]; cbn [dict_set map fst In].
  - intros [H | []]. left. symmetry. exact H.
  - destruct (text_eq_dec k k'); cbn [map fst In]; intros [H | H]; auto.
    apply IH in H as [H | H]; auto.
Qed.

Lemma dict_set_NoDup {V : Type} k (v : V) d :
  NoDup (map fst d) -> NoDup (map fst (dict_set k v d)).
Proof.
  induction d as [| [k' v'] d IH]; intros H; cbn [dict_set].
  - constructor; [intros [] | constructor].
  - cbn [map fst] in H. inversion H as [| ? ? Hk Hd]; subst.
    destruct (text_eq_dec k k') as [-> | Hne]; cbn [map fst].
    + constructor; assumption.
    + constructor; [| apply IH, Hd].
      intros Hin. apply dict_set_keys_in in Hin as [Hin | Hin]; congruence.
Qed.

Lemma parse_labels_NoDup line : NoDup (map fst (parse_labels line)).
Proof.
  unfold parse_labels.
  assert (H : NoDup (map fst (@nil (text * text)))) by constructor.
  revert H. generalize (@nil (text * text)).
  induction (findall_labels line) as [| [k v] l IH]; intros acc Hacc;
    [exact Hacc |].
  cbn [fold_left]. apply IH. destruct (_ || _); [exact Hacc |].
  apply dict_set_NoDup, Hacc.
Qed.

Lemma dict_get_none {V : Type} k (d : dict V) :
  ~ In k (map fst d) -> dict_get k d = None.
Proof.
  induction d as [| [k' v'] d IH]; intros H; [reflexivity |].
  cbn [map fst In] in H. cbn [dict_get].
  destruct (text_eq_dec k k') as [-> | _]; [tauto |]. apply IH. tauto.
Qed.

Lemma dict_get_app {V : Type} k (a b : dict V) :
  dict_get k (a ++ b)
  = match dict_get k a with Some v => Some v | None => dict_get k b end.
Proof.
  induction a as [| [k' v'] a IH]; [reflexivity |].
  cbn [app dict_get]. destruct (text_eq_dec k k'); [reflexivity | exact IH].
Qed.

Lemma stream_write_labels_get name kvs :
  NoDup (map fst kvs) ->
  forall out,
    stream (name ++ txt ".txt") (write_labels kvs out)
    = stream (name ++ txt ".txt") out ++ label_line_of name kvs.
Proof.
  unfold write_labels, label_line_of.
  induction kvs as [| [k v] kvs IH]; intros Hnd out.
  - cbn. rewrite app_nil_r. reflexivity.
  - cbn [map fst] in Hnd. inversion Hnd as [| ? ? Hk Hkvs]; subst.
    cbn [fold_left fst snd]. rewrite IH by exact Hkvs.
    cbn [dict_get]. destruct (text_eq_dec name k) as [-> | Hne].
    + rewrite stream_append_same, (dict_get_none _ _ Hk), app_nil_r.
      reflexivity.
    + rewrite stream_append_other; [reflexivity |].
      intros E. apply app_inv_tail in E. congruence.
Qed.

Lemma label_stream_of_frame name line atoms out :
  forallb isword name = true ->
  stream (name ++ txt ".txt")
    (write_atom_streams atoms (write_header_streams line out))
  = stream (name ++ txt ".txt") out
    ++ label_line_of name (parse_labels line).
Proof.
  intros Hname.
  assert (Hfresh : forall base,
             forallb isword base = false ->
             name ++ txt ".txt" <> base ++ txt ".txt")
    by (intros base; apply label_file_name_fresh, Hname).
  unfold write_atom_streams, write_header_streams, write_box.
  rewrite force_write_other by (apply (Hfresh (txt "force.npy")); reflexivity).
  rewrite stream_append_other
    by (apply (Hfresh (txt "coord.npy")); reflexivity).
  rewrite stream_append_other
    by (apply (Hfresh (txt "real_atom_types.npy")); reflexivity).
  destruct (box_line_written (parse_pbc line));
    [rewrite stream_append_other
       by (apply (Hfresh (txt "box.npy")); reflexivity) |];
    rewrite stream_append_other
      by (apply (Hfresh (txt "energy.npy")); reflexivity);
    apply stream_write_labels_get, parse_labels_NoDup.
Qed.

(** *** The labels and the pbc token of a frame of a good collection *)

Lemma replace_space_forallb (p : ascii -> bool) s :
  p USCORE = true -> forallb p s = true ->
  forallb p (replace_space s) = true.
Proof.
  intros Hu H. unfold replace_space. rewrite forallb_forall in *.
  intros c Hc. apply in_map_iff in Hc as (d & <- & Hd).
  destruct (Ascii.eqb d SP); [exact Hu | apply H, Hd].
Qed.

Lemma replace_space_notsp s : forallb notsp (replace_space s) = true.
Proof.
  unfold replace_space. rewrite forallb_forall.
  intros c Hc. apply in_map_iff in Hc as (d & <- & Hd).
  destruct (Ascii.eqb d SP) eqn:E; [reflexivity |].
  unfold notsp. rewrite E. reflexivity.
Qed.

Lemma render_label_value_ok name v :
  label_name_ok name = true -> label_value_ok v = true ->
  chunk_ok (name, render_label_value v) = true.
Proof.
  intros Hn Hv. unfold chunk_ok. cbn [fst snd]. rewrite Hn.
  destruct v as [s | l]; [| discriminate]. cbn [label_value_ok] in Hv.
  destruct s as [| c s]; [reflexivity |].
  unfold render_label_value.
  assert (H : forallb (fun c => notsp c && noeol c && notdq c)
                (replace_space (c :: s)) = true).
  { rewrite forallb_forall. intros x Hx.
    pose proof (replace_space_notsp (c :: s)) as H1.
    pose proof (replace_space_forallb (fun c => noeol c && notdq c) (c :: s)
                  eq_refl Hv) as H2.
    rewrite forallb_forall in H1, H2.
    rewrite (H1 x Hx). exact (H2 x Hx). }
  destruct (replace_space (c :: s)) eqn:E; [discriminate | exact H].
Qed.

Lemma frame_labels_ok n i labels :
  labels_ok labels = true ->
  Forall (fun l : text * option (list label_value) =>
            exists vs, snd l = Some vs /\ length vs = n) labels ->
  i < n ->
  forallb chunk_ok (frame_labels i labels) = true
  /\ map fst (frame_labels i labels) = map fst labels.
Proof.
  unfold labels_ok. intros H Hlen Hi.
  apply andb_true_iff in H as [H _]. unfold frame_labels.
  induction Hlen as [| [name values] labels (vs & Evs & Hvs) _ IH];
    [split; reflexivity |].
  cbn [forallb fst snd] in H. cbn [snd] in Evs. subst values.
  apply andb_true_iff in H as [Hl H]. apply andb_true_iff in Hl as [Hn Hv].
  destruct (IH H) as [IH1 IH2].
  cbn [map concat fst snd label_value_at].
  destruct (nth_error vs i) as [v |] eqn:E.
  2:{ apply nth_error_None in E. lia. }
  cbn [app forallb map fst]. rewrite IH1, IH2.
  rewrite render_label_value_ok; [split; reflexivity | exact Hn |].
  rewrite forallb_forall in Hv. apply Hv. eapply nth_error_In, E.
Qed.

Lemma dict_get_frame_labels i labels name vs v :
  distinct (map fst labels) = true ->
  In (name, Some vs) labels -> nth_error vs i = Some v ->
  dict_get name (frame_labels i labels) = Some (render_label_value v).
Proof.
  intros Hd Hin Hv. apply distinct_NoDup in Hd. unfold frame_labels.
  induction labels as [| [k values] labels IH]; [destruct Hin |].
  cbn [map fst] in Hd. inversion Hd as [| ? ? Hk Hd']; subst.
  cbn [map concat fst snd].
  destruct Hin as [Hin | Hin].
  - inversion Hin; subst. cbn [label_value_at]. rewrite Hv.
    cbn [app dict_get]. destruct (text_eq_dec name name); [reflexivity |].
    congruence.
  - assert (Hne : name <> k).
    { intros ->. apply Hk. apply in_map_iff.
      exists (k, Some vs). split; [reflexivity | exact Hin]. }
    destruct (label_value_at values i); cbn [app dict_get];
      [destruct (text_eq_dec name k); [congruence |] |];
      apply IH; assumption.
Qed.

Lemma pbc_value_ok pbc_option box i :
  box_ok box = true ->
  pbc_value pbc_option box i <> []
  /\ forallb noeol (pbc_value pbc_option box i) = true
  /\ forallb notdq (pbc_value pbc_option box i) = true
  /\ forallb noeq (pbc_value pbc_option box i) = true.
Proof.
  intros H. unfold pbc_value.
  assert (Hc : closed_pbc <> []
               /\ forallb noeol closed_pbc = true
               /\ forallb notdq closed_pbc = true
               /\ forallb noeq closed_pbc = true)
    by (repeat split; (discriminate || reflexivity)).
  destruct (text_eqb pbc_option (txt "box")); [| exact Hc].
  destruct box as [b |]; [| exact Hc].
  destruct (nth_error b i) as [row |] eqn:E; [| exact Hc].
  cbn [box_ok] in H. apply andb_true_iff in H as [Hrows Hchars].
  pose proof (rows_ok_nth b i Hrows E) as Hrow.
  rewrite forallb_forall in Hchars.
  pose proof (Hchars row (nth_error_In _ _ E)) as Hrc.
  destruct row as [| t row]; [discriminate |]. cbn [row_ok] in Hrow.
  split; [| split; [| split]].
  - cbn [forallb] in Hrow. apply andb_true_iff in Hrow as [Ht _].
    apply token_ok_spec in Ht as [Hne _].
    cbn [join]. destruct row; [exact Hne |].
    destruct t; [congruence | discriminate].
  - apply forallb_join; [reflexivity |].
    apply forallb_Forall in Hrow. eapply Forall_impl; [| exact Hrow].
    intros tok. apply token_noeol.
  - apply forallb_join; [reflexivity |].
    apply forallb_Forall in Hrc. eapply Forall_impl; [| exact Hrc].
    intros tok Htok. eapply forallb_impl; [| exact Htok].
    intros c Hc'. apply andb_true_iff in Hc' as [Hc' _]. exact Hc'.
  - apply forallb_join; [reflexivity |].
    apply forallb_Forall in Hrc. eapply Forall_impl; [| exact Hrc].
    intros tok Htok. eapply forallb_impl; [| exact Htok].
    intros c Hc'. apply andb_true_iff in Hc' as [_ Hc']. exact Hc'.
Qed.

(** *** Writing a good collection and reading it back *)

Lemma frame_labels_keys i (labels : label_table) kv :
  In kv (frame_labels i labels) -> In (fst kv) (map fst labels).
Proof.
  unfold frame_labels.
  induction labels as [| [name values] labels IH]; [intros [] |].
  cbn [map concat fst snd]. intros H. apply in_app_or in H as [H | H].
  - destruct (label_value_at values i); [| destruct H].
    destruct H as [<- | []]. left. reflexivity.
  - right. apply IH, H.
Qed.

(** Within the limits, the count of a frame is read back and the label
    files of its metadata line are opened. *)
Lemma within_limits_frame atom_types (labels : label_table) i atoms energy :
  within_limits atom_types labels = true ->
  nth_error atom_types i = Some atoms ->
  int_accepts (str_of_nat (length atoms)) = true
  /\ label_files_ok (frame_labels i labels ++ [(txt "energy", energy)])
     = true.
Proof.
  unfold within_limits. intros H Hat.
  apply andb_true_iff in H as [Hcount Hnames]. split.
  - apply str_of_nat_int. rewrite forallb_forall in Hcount.
    apply Nat.leb_le, (Hcount atoms). eapply nth_error_In, Hat.
  - unfold label_files_ok. rewrite forallb_app. apply andb_true_iff. split.
    + apply forallb_forall. intros kv Hkv.
      apply frame_labels_keys, in_map_iff in Hkv as (l & El & Hl).
      rewrite forallb_forall in Hnames. rewrite <- El. apply Hnames, Hl.
    + reflexivity.
Qed.

Section RoundTrip.

Variables atom_types coordinates energies : rows.
Variables forces box : option rows.
Variable labels : label_table.
Variable pbc_option : text.

Hypothesis Hok :
  collection_ok atom_types coordinates energies forces box labels = true.
Hypothesis Hval :
  returns (validate_data_consistency atom_types coordinates energies forces
             box labels) tt.
Hypothesis Hlim : within_limits atom_types labels = true.

Local Abbreviation frame :=
  (frame_text atom_types coordinates energies forces box labels pbc_option).

Lemma collection_ok_parts :
  rows_ok atom_types = true /\ rows_ok coordinates = true
  /\ energies_ok energies = true /\ optional_rows_ok forces = true
  /\ box_ok box = true /\ labels_ok labels = true.
Proof.
  unfold collection_ok in Hok.
  repeat (apply andb_true_iff in Hok as [Hok ?]). tauto.
Qed.

Lemma row_tokens_ok data i row :
  rows_ok data = true -> nth_error data i = Some row ->
  row <> [] /\ forallb token_ok row = true.
Proof.
  intros H Hn. pose proof (rows_ok_nth data i H Hn) as Hr.
  destruct row as [| t row]; [discriminate |].
  split; [discriminate | exact Hr].
Qed.

(** The data of frame [i]. *)
Lemma frame_data i :
  i < length atom_types ->
  exists atoms crow erow,
    nth_error atom_types i = Some atoms
    /\ nth_error coordinates i = Some crow
    /\ nth_error energies i = Some erow
    /\ atoms <> [] /\ forallb token_ok atoms = true
    /\ forallb token_ok crow = true
    /\ length crow = length atoms * 3
    /\ token_ok (first_token erow) = true
    /\ forallb notdq (first_token erow) = true
    /\ (forall fr, force_row_at forces i = Some fr ->
                   forallb token_ok fr = true
                   /\ length fr = length atoms * 3)
    /\ forallb chunk_ok (frame_labels i labels) = true
    /\ distinct (map fst (frame_labels i labels)) = true.
Proof.
  intros Hi.
  destruct collection_ok_parts as (Ha & Hc & He & Hf & Hb & Hl).
  pose proof Hval as Hv. apply validate_returns_inv in Hv.
  destruct Hv as (Hlc & Hle & Hlf & Hlb & Hll & Hframes).
  destruct (Hframes i Hi) as (atoms & crow & Eat & Ecr & Hcl & Hfr).
  destruct (nth_error energies i) as [erow |] eqn:Een.
  2:{ apply nth_error_None in Een. lia. }
  exists atoms, crow, erow.
  destruct (row_tokens_ok atom_types i Ha Eat) as [Hane Hatok].
  destruct (row_tokens_ok coordinates i Hc Ecr) as [_ Hctok].
  unfold energies_ok in He. apply andb_true_iff in He as [He Heq].
  destruct (row_tokens_ok energies i He Een) as [Hene Hetok].
  destruct (@frame_labels_ok (length atom_types) i labels Hl Hll Hi)
    as [Hchunks Hkeys].
  repeat split; try assumption.
  - destruct erow as [| e erow]; [congruence |]. cbn [first_token hd].
    cbn [forallb] in Hetok. apply andb_true_iff in Hetok as [Hetok _].
    exact Hetok.
  - rewrite forallb_forall in Heq. apply Heq. eapply nth_error_In, Een.
  - destruct forces as [fs |]; [| discriminate].
    destruct Hfr as (force & Efo & Hfl). cbn [force_row_at] in H.
    rewrite (nth_error_nth _ _ [] Efo) in H. inversion H; subst.
    cbn [optional_rows_ok] in Hf.
    apply (row_tokens_ok fs i Hf Efo).
  - destruct forces as [fs |]; [| discriminate].
    destruct Hfr as (force & Efo & Hfl). cbn [force_row_at] in H.
    rewrite (nth_error_nth _ _ [] Efo) in H. inversion H; subst.
    exact Hfl.
  - rewrite Hkeys. unfold labels_ok in Hl.
    apply andb_true_iff in Hl as [_ Hl]. exact Hl.
Qed.

Lemma token_notsp tok : token_ok tok = true -> forallb notsp tok = true.
Proof.
  intros H. apply token_ok_spec in H as [_ H].
  eapply forallb_impl; [apply notspace_notsp | exact H].
Qed.

Lemma frame_clean i :
  i < length atom_types ->
  frame_shape (frame i) = true
  /\ Forall (fun l => line_ok l = true) (frame i).
Proof.
  intros Hi.
  destruct (frame_data Hi)
    as (atoms & crow & erow & Eat & Ecr & Een & Hane & Hatok & Hctok & Hcl
        & Hetok & Heq & Hforce & Hchunks & Hdist).
  destruct collection_ok_parts as (_ & _ & _ & _ & Hb & _).
  destruct (@pbc_value_ok pbc_option box i Hb) as (Hpne & Hpeol & Hpdq & Hpeq).
  unfold frame, frame_text.
  rewrite (nth_error_nth _ _ [] Eat), (nth_error_nth _ _ [] Ecr).
  unfold metadata_text. rewrite (nth_error_nth _ _ [] Een).
  destruct (@metadata_shape_line_ok forces (frame_labels i labels)
              (first_token erow) (pbc_value pbc_option box i)
              Hchunks (@token_noeol _ Hetok) Hpeol) as [Hmok Hmnd].
  assert (Hlines : Forall (fun l => line_ok l = true /\ isdigit l = false)
                     (atom_lines_text atoms crow (force_row_at forces i))).
  { apply atom_lines_text_clean; try assumption.
    intros fr Hfr. apply (Hforce fr Hfr). }
  split.
  - cbn [frame_shape forallb]. rewrite str_of_nat_isdigit, Hmnd.
    cbn [negb andb]. apply forallb_forall. intros l Hl.
    rewrite Forall_forall in Hlines. destruct (Hlines l Hl) as [_ ->].
    reflexivity.
  - constructor; [apply token_line_ok, str_of_nat_token |].
    constructor; [exact Hmok |].
    eapply Forall_impl; [| exact Hlines]. intros l [H _]. exact H.
Qed.

Lemma process_written_frame i out :
  i < length atom_types ->
  exists out',
    returns (process_frame out (frame i)) out'
    /\ stream (txt "real_atom_types.npy.txt") out'
       = stream (txt "real_atom_types.npy.txt") out
         ++ join (txt " ") (nth i atom_types []) ++ NL
    /\ stream (txt "coord.npy.txt") out'
       = stream (txt "coord.npy.txt") out
         ++ join (txt " ") (nth i coordinates []) ++ NL
    /\ stream (txt "force.npy.txt") out'
       = stream (txt "force.npy.txt") out ++ force_line forces i
    /\ stream (txt "energy.npy.txt") out'
       = stream (txt "energy.npy.txt") out
         ++ first_token (nth i energies []) ++ NL
    /\ stream (txt "box.npy.txt") out'
       = stream (txt "box.npy.txt") out ++ box_line pbc_option box i
    /\ forall name,
         label_name_ok name = true ->
         stream (name ++ txt ".txt") out'
         = stream (name ++ txt ".txt") out
           ++ label_line_of name (frame_labels i labels).
Proof.
  intros Hi.
  destruct (frame_data Hi)
    as (atoms & crow & erow & Eat & Ecr & Een & Hane & Hatok & Hctok & Hcl
        & Hetok & Heq & Hforce & Hchunks & Hdist).
  destruct collection_ok_parts as (_ & _ & _ & _ & Hb & _).
  destruct (@pbc_value_ok pbc_option box i Hb) as (Hpne & Hpeol & Hpdq & Hpeq).
  pose proof Hetok as Hetok'. apply token_ok_spec in Hetok' as [Hene _].
  destruct (@parse_atom_lines atoms crow (force_row_at forces i))
    as (parsed & Hparsed & Hsp & Hpos & Hfo); try assumption.
  { intros fr Hfr. apply (Hforce fr Hfr). }
  { intros fr Hfr. apply (Hforce fr Hfr). }
  set (line := metadata_text energies forces box labels pbc_option i).
  assert (Elabels : parse_labels line
                    = frame_labels i labels
                      ++ [(txt "energy", first_token erow)]).
  { unfold line, metadata_text. rewrite (nth_error_nth _ _ [] Een).
    apply parse_labels_metadata; try assumption.
    apply token_notsp, Hetok. }
  assert (Epbc : parse_pbc line = Some (pbc_value pbc_option box i)).
  { unfold line, metadata_text. rewrite (nth_error_nth _ _ [] Een).
    apply parse_pbc_metadata; assumption. }
  exists (write_atom_streams parsed (write_header_streams line out)).
  split; [| split; [| split; [| split; [| split; [| split]]]]].
  - destruct (@within_limits_frame atom_types labels i atoms
                (first_token erow) Hlim Eat) as [Hint Hnames].
    rewrite <- Elabels in Hnames.
    pose proof (write_label_files_outcome (parse_labels line) out) as Hw.
    rewrite Hnames in Hw.
    unfold process_frame, frame, frame_text. fold line.
    rewrite (nth_error_nth _ _ [] Eat), (nth_error_nth _ _ [] Ecr).
    eapply returns_bind; [apply returns_getitem; reflexivity |].
    rewrite Hint.
    eapply returns_bind; [reflexivity |].
    eapply returns_bind; [apply returns_getitem; reflexivity |].
    destruct (parse_properties_written forces
                (concat (map label_chunk (frame_labels i labels))
                 ++ txt " energy=" ++ first_token (nth i energies [])
                 ++ txt " pbc=" ++ [DQ] ++ pbc_value pbc_option box i ++ [DQ]))
      as (props & Hprops).
    eapply returns_bind; [exact Hprops |].
    cbv zeta. rewrite Hw, bind_pure.
    rewrite open_append_short, bind_pure by reflexivity.
    rewrite write_box_file_eq, bind_pure.
    cbn [skipn].
    eapply returns_bind; [exact Hparsed |].
    rewrite write_atom_files_eq. reflexivity.
  - rewrite species_stream_of_frame, Hsp, (nth_error_nth _ _ [] Eat).
    reflexivity.
  - rewrite coord_stream_of_frame, Hpos, (nth_error_nth _ _ [] Ecr).
    reflexivity.
  - rewrite force_stream_of_frame, Hfo. unfold force_line, force_row_at.
    destruct forces as [fs |]; [| reflexivity].
    destruct (Hforce (nth i fs []) eq_refl) as [_ Hfl].
    destruct (nth i fs []) as [| f fr]; [| reflexivity].
    destruct atoms; [congruence | discriminate].
  - rewrite energy_stream_of_frame, Elabels.
    unfold energy_of. rewrite dict_get_last, (nth_error_nth _ _ [] Een);
      [reflexivity |].
    intros Hin. apply in_map_iff in Hin as ([k w] & Ek & Hin).
    cbn [fst] in Ek. subst k.
    rewrite forallb_forall in Hchunks. specialize (Hchunks _ Hin).
    apply chunk_ok_spec in Hchunks as (_ & _ & Hr & _).
    apply reserved_false in Hr as [_ Hr]. apply Hr. reflexivity.
  - rewrite box_stream_of_frame. unfold box_text, box_line.
    rewrite Epbc. reflexivity.
  - intros name Hname.
    assert (Hw : forallb isword name = true /\ reserved name = false).
    { unfold label_name_ok in Hname. destruct name; [discriminate |].
      apply andb_true_iff in Hname as [Hw Hr].
      apply negb_true_iff in Hr. auto. }
    destruct Hw as [Hw Hr]. apply reserved_false in Hr as [_ Hr].
    rewrite label_stream_of_frame by exact Hw. f_equal.
    rewrite Elabels. unfold label_line_of. rewrite dict_get_app.
    destruct (dict_get name (frame_labels i labels)); [reflexivity |].
    cbn [dict_get]. destruct (text_eq_dec name (txt "energy")); [congruence |].
    reflexivity.
Qed.

Lemma process_written_frames indices :
  (forall i, In i indices -> i < length atom_types) ->
  forall out,
  exists out',
    returns (process_frames out (map frame indices)) out'
    /\ stream (txt "real_atom_types.npy.txt") out'
       = stream (txt "real_atom_types.npy.txt") out
         ++ concat (map (fun i => join (txt " ") (nth i atom_types []) ++ NL)
                      indices)
    /\ stream (txt "coord.npy.txt") out'
       = stream (txt "coord.npy.txt") out
         ++ concat (map (fun i => join (txt " ") (nth i coordinates []) ++ NL)
                      indices)
    /\ stream (txt "force.npy.txt") out'
       = stream (txt "force.npy.txt") out
         ++ concat (map (force_line forces) indices)
    /\ stream (txt "energy.npy.txt") out'
       = stream (txt "energy.npy.txt") out
         ++ concat (map (fun i => first_token (nth i energies []) ++ NL)
                      indices)
    /\ stream (txt "box.npy.txt") out'
       = stream (txt "box.npy.txt") out
         ++ concat (map (box_line pbc_option box) indices)
    /\ forall name,
         label_name_ok name = true ->
         stream (name ++ txt ".txt") out'
         = stream (name ++ txt ".txt") out
           ++ concat (map (fun i => label_line_of name (frame_labels i labels))
                        indices).
Proof.
  induction indices as [| i indices IH]; intros Hall out.
  - exists out. cbn [map concat]. rewrite !app_nil_r.
    repeat split; try reflexivity. intros name _. rewrite app_nil_r.
    reflexivity.
  - destruct (@process_written_frame i out)
      as (mid & Hmid & M1 & M2 & M3 & M4 & M5 & M6);
      [apply Hall; left; reflexivity |].
    destruct (IH (fun j Hj => Hall j (or_intror Hj)) mid)
      as (out' & Hout & S1 & S2 & S3 & S4 & S5 & S6).
    exists out'. cbn [map process_frames concat].
    split; [eapply returns_bind; eassumption |].
    rewrite S1, S2, S3, S4, S5, M1, M2, M3, M4, M5.
    rewrite <- !app_assoc.
    repeat split; try reflexivity.
    intros name Hname. rewrite (S6 name Hname), (M6 name Hname).
    rewrite <- !app_assoc. reflexivity.
Qed.

End RoundTrip.

Lemma map_seq_nth {A B : Type} (f : A -> B) (l : list A) d :
  map (fun i => f (nth i l d)) (seq 0 (length l)) = map f l.
Proof.
  rewrite <- (map_nth_seq l d) at 2. rewrite map_map. reflexivity.
Qed.

Lemma returns_try_except {A : Type} (c : M A) h d a :
  returns c a -> returns (try_except c h d) a.
Proof.
  unfold returns, try_except. destruct c as [l [e | x]]; simpl;
    [discriminate | auto].
Qed.

Lemma stream_nil name : stream name [] = [].
Proof. reflexivity. Qed.

Lemma concat_map_nil {A B : Type} (l : list A) :
  concat (map (fun _ => @nil B) l) = [].
Proof. induction l; [reflexivity | exact IHl]. Qed.

Lemma box_line_of_row pbc_option b i row :
  box_ok (Some b) = true ->
  pbc_option = txt "box" -> nth_error b i = Some row ->
  box_line pbc_option (Some b) i = box_row_text row.
Proof.
  intros Hb -> Hrow. unfold box_line, box_row_text.
  destruct (@pbc_value_ok (txt "box") (Some b) i Hb) as (Hne & _).
  unfold pbc_value in *. cbn [text_eqb] in *.
  change (text_eqb (txt "box") (txt "box")) with true in *. cbn iota in *.
  rewrite Hrow in *. unfold box_line_written.
  destruct (join (txt " ") row) as [| c p] eqn:E; [congruence |].
  destruct (text_eqb (c :: p) closed_pbc); reflexivity.
Qed.

Lemma box_line_closed pbc_option box i :
  pbc_value pbc_option box i = closed_pbc -> box_line pbc_option box i = [].
Proof. unfold box_line. intros ->. reflexivity. Qed.

(** *** Column files read back *)

Lemma row_ok_spec row :
  row_ok row = true -> row <> [] /\ forallb token_ok row = true.
Proof.
  destruct row; [discriminate |]. intros H. split; [discriminate | exact H].
Qed.

Lemma row_line_ok row :
  row_ok row = true -> line_ok (join (txt " ") row) = true.
Proof.
  intros H. apply row_ok_spec in H as [Hne H].
  apply join_tokens_line_ok; assumption.
Qed.

Lemma lines_from_column data :
  rows_ok data = true ->
  lines_from [] (column_text data)
  = map (fun row => join (txt " ") row ++ NL) data.
Proof.
  unfold rows_ok, column_text.
  induction data as [| row data IH]; [reflexivity |].
  cbn [forallb map concat]. intros H. apply andb_true_iff in H as [Hr Hd].
  unfold NL at 1. rewrite <- app_assoc. cbn [app].
  rewrite lines_from_line by (apply line_ok_noeol, row_line_ok, Hr).
  cbn [app]. rewrite IH by exact Hd. reflexivity.
Qed.

Lemma column_text_nocr data :
  rows_ok data = true -> forallb nocr (column_text data) = true.
Proof.
  unfold rows_ok, column_text.
  induction data as [| row data IH]; [reflexivity |].
  cbn [forallb map concat]. intros H. apply andb_true_iff in H as [Hr Hd].
  rewrite !forallb_app, IH by exact Hd.
  rewrite (noeol_nocr _ (line_ok_noeol _ (row_line_ok _ Hr))). reflexivity.
Qed.

Lemma read_rows_column file_path data :
  rows_ok data = true ->
  forall line_num,
    read_rows file_path line_num
      (map (fun row => join (txt " ") row ++ NL) data)
    = ([], inr data).
Proof.
  unfold rows_ok.
  induction data as [| row data IH]; intros H line_num; [reflexivity |].
  cbn [forallb] in H. apply andb_true_iff in H as [Hr Hd].
  cbn [map read_rows]. unfold NL.
  rewrite (strip_line_ok_eol _ (row_line_ok _ Hr)).
  pose proof (row_line_ok _ Hr) as Hline.
  destruct (join (txt " ") row) as [| c r] eqn:E; [discriminate |].
  rewrite IH by exact Hd. rewrite <- E.
  apply row_ok_spec in Hr as [_ Hr]. rewrite (split_ws_join _ Hr).
  reflexivity.
Qed.

(** The column reader on a column file returns the rows of the column,
    and skips no line. *)
Lemma read_file_column_text fs file_path data :
  rows_ok data = true ->
  fs file_path = Some (column_text data) ->
  read_file fs file_path = ([], inr data).
Proof.
  intros H E. unfold read_file, file_lines. rewrite E.
  rewrite universal_newlines_id by (apply column_text_nocr, H).
  rewrite lines_from_column by exact H.
  apply read_rows_column, H.
Qed.

(** C1, as amended.  A collection whose rows are those of the column
    reader, whose labels are named by words other than the keys of the
    metadata line and hold strings without double quotes, whose energy
    and box tokens are free of double quotes (and of equals signs for the
    box), which stays within the limits of the interpreter and of the file
    system (no atom count of more than 4300 digits, no label whose file
    name [<name>.txt] takes more than 255 bytes), and which passes the
    validator, is written by the extended serializer and read back by the
    parser, which returns an archive with: the species, position and
    force streams equal to the columns of atom types, coordinates and
    forces, so that the column reader applied to these streams returns the
    rows of the collection; the energy stream equal to the first token of
    each energy row;
    the box stream, in mode [box], equal to the box rows other than
    [F F F], and empty otherwise; the stream of each label equal to its
    values as the serializer writes them, spaces replaced by underscores
    and the empty string by [None]. *)
Theorem extended_round_trip :
  forall atom_types coordinates energies forces box labels pbc_option,
    collection_ok atom_types coordinates energies forces box labels = true ->
    within_limits atom_types labels = true ->
    returns (validate_data_consistency atom_types coordinates energies forces
               box labels) tt ->
    exists content files,
      returns (generate_extxyz_content atom_types coordinates energies forces
                 box labels pbc_option) content
      /\ returns (split_extxyz content) (Some files)
      /\ stream (txt "real_atom_types.npy.txt") files = column_text atom_types
      /\ stream (txt "coord.npy.txt") files = column_text coordinates
      /\ stream (txt "force.npy.txt") files
         = match forces with Some fs => column_text fs | None => [] end
      /\ stream (txt "energy.npy.txt") files
         = concat (map (fun row => first_token row ++ NL) energies)
      /\ stream (txt "box.npy.txt") files
         = (if text_eqb pbc_option (txt "box") then
              match box with
              | Some b => concat (map box_row_text b)
              | None => []
              end
            else [])
      /\ (forall fs file_path,
            fs file_path = Some (stream (txt "real_atom_types.npy.txt") files) ->
            read_file fs file_path = ([], inr atom_types))
      /\ (forall fs file_path,
            fs file_path = Some (stream (txt "coord.npy.txt") files) ->
            read_file fs file_path = ([], inr coordinates))
      /\ (forall fs file_path force_rows,
            forces = Some force_rows ->
            fs file_path = Some (stream (txt "force.npy.txt") files) ->
            read_file fs file_path = ([], inr force_rows))
      /\ forall name values,
           In (name, Some values) labels ->
           stream (name ++ txt ".txt") files
           = concat (map (fun v => render_label_value v ++ NL) values).
Proof.
  intros * Hok Hlim Hval.
  pose proof Hok as Hparts. apply collection_ok_parts in Hparts.
  destruct Hparts as (Ha & Hc & He & Hf & Hb & Hl).
  pose proof Hval as Hinv. apply validate_returns_inv in Hinv.
  destruct Hinv as (Hlc & Hle & Hlf & Hlb & Hll & Hframes).
  set (n := length atom_types) in *.
  exists (extxyz_text atom_types coordinates energies forces box labels
            pbc_option).
  assert (Hall : forall i, In i (seq 0 n) -> i < length atom_types).
  { intros i Hi. apply in_seq in Hi. unfold n in Hi. lia. }
  destruct (@process_written_frames atom_types coordinates energies forces
              box labels pbc_option Hok Hval Hlim (seq 0 n) Hall [])
    as (files & Hfiles & S1 & S2 & S3 & S4 & S5 & S6).
  exists files.
  split.
  { apply generate_extxyz_content_returns; [| exact Hval].
    unfold energies_ok in He. apply andb_true_iff in He as [He _]. exact He. }
  split.
  { unfold split_extxyz. apply returns_try_except.
    eapply returns_bind; [| reflexivity].
    unfold extxyz_text. fold n.
    rewrite collect_frames_written; [exact Hfiles | |].
    - apply Forall_forall. intros f Hf'. apply in_map_iff in Hf' as (i & <- & Hi).
      apply in_seq in Hi.
      refine (proj1 (@frame_clean atom_types coordinates energies forces box
                       labels pbc_option Hok Hval i _)).
      unfold n in Hi. lia.
    - apply Forall_concat. apply Forall_forall.
      intros f Hf'. apply in_map_iff in Hf' as (i & <- & Hi).
      apply in_seq in Hi.
      refine (proj2 (@frame_clean atom_types coordinates energies forces box
                       labels pbc_option Hok Hval i _)).
      unfold n in Hi. lia. }
  rewrite stream_nil in S1, S2, S3, S4, S5. cbn [app] in S1, S2, S3, S4, S5.
  assert (T1 : stream (txt "real_atom_types.npy.txt") files
               = column_text atom_types).
  { rewrite S1. unfold column_text, n. apply f_equal.
    apply (map_seq_nth (fun row => join (txt " ") row ++ NL)). }
  assert (T2 : stream (txt "coord.npy.txt") files = column_text coordinates).
  { rewrite S2. unfold column_text. rewrite <- Hlc. apply f_equal.
    apply (map_seq_nth (fun row => join (txt " ") row ++ NL)). }
  assert (T3 : stream (txt "force.npy.txt") files
               = match forces with
                 | Some fs => column_text fs
                 | None => []
                 end).
  { rewrite S3. unfold force_line. destruct forces as [fs |].
    - unfold column_text. rewrite <- (Hlf fs eq_refl). apply f_equal.
      apply (map_seq_nth (fun row => join (txt " ") row ++ NL)).
    - apply concat_map_nil. }
  split; [exact T1 |]. split; [exact T2 |]. split; [exact T3 |].
  split.
  { rewrite S4. rewrite <- Hle. apply f_equal.
    apply (map_seq_nth (fun row => first_token row ++ NL)). }
  split.
  { rewrite S5. destruct (text_eqb pbc_option (txt "box")) eqn:Emode.
    - destruct box as [b |].
      + apply text_eqb_eq in Emode. apply f_equal.
        rewrite <- (map_seq_nth box_row_text b []).
        rewrite (Hlb b eq_refl). fold n. apply map_ext_in.
        intros i Hi. apply in_seq in Hi.
        apply box_line_of_row; [exact Hb | exact Emode |].
        apply nth_error_nth'. rewrite (Hlb b eq_refl). fold n. lia.
      + rewrite <- (concat_map_nil (B := ascii) (seq 0 n)). apply f_equal.
        apply map_ext. intros i. apply box_line_closed.
        unfold pbc_value. rewrite Emode. reflexivity.
    - rewrite <- (concat_map_nil (B := ascii) (seq 0 n)). apply f_equal.
      apply map_ext. intros i. apply box_line_closed.
      unfold pbc_value. rewrite Emode. reflexivity. }
  split.
  { intros fs file_path E. rewrite T1 in E.
    apply read_file_column_text with (1 := Ha) (2 := E). }
  split.
  { intros fs file_path E. rewrite T2 in E.
    apply read_file_column_text with (1 := Hc) (2 := E). }
  split.
  { intros fs file_path force_rows -> E. rewrite T3 in E.
    apply read_file_column_text with (1 := Hf) (2 := E). }
  intros name values Hin.
  assert (Hname : label_name_ok name = true).
  { unfold labels_ok in Hl. apply andb_true_iff in Hl as [Hl _].
    rewrite forallb_forall in Hl. specialize (Hl _ Hin). cbn [fst] in Hl.
    apply andb_true_iff in Hl as [Hl _]. exact Hl. }
  assert (Hlen : length values = n).
  { rewrite Forall_forall in Hll. destruct (Hll _ Hin) as (vs & Evs & Hvs).
    cbn [snd] in Evs. inversion Evs; subst. exact Hvs. }
  specialize (S6 name Hname). rewrite stream_nil in S6.
  cbn [app] in S6. rewrite S6. apply f_equal.
  rewrite <- (map_seq_nth (fun v => render_label_value v ++ NL) values
                (LStr [])).
  rewrite Hlen. apply map_ext_in. intros i Hi. apply in_seq in Hi.
  unfold label_line_of.
  rewrite (@dict_get_frame_labels i labels name values
             (nth i values (LStr []))); [reflexivity | | exact Hin |].
  - unfold labels_ok in Hl. apply andb_true_iff in Hl as [_ Hl]. exact Hl.
  - apply nth_error_nth'. lia.
Qed.

Lemma extended_round_trip_witness :
  collection_ok
    [[txt "H"; txt "O"]; [txt "H"]]
    [map txt ["0.0"; "0.1"; "0.2"; "1.0"; "1.1"; "1.2"]%string;
     map txt ["2.0"; "2.1"; "2.2"]%string]
    [[txt "-1.5"]; [txt "-2.5"]]
    (Some [map txt ["0.3"; "0.4"; "0.5"; "1.3"; "1.4"; "1.5"]%string;
           map txt ["2.3"; "2.4"; "2.5"]%string])
    (Some [map txt ["9"; "0"; "0"]%string; map txt ["F"; "F"; "F"]%string])
    [(txt "note", Some [LStr (txt "a b"); LStr []])]
  = true
  /\ within_limits [[txt "H"; txt "O"]; [txt "H"]]
       [(txt "note", Some [LStr (txt "a b"); LStr []])]
     = true
  /\ exists content files,
       returns
         (generate_extxyz_content
            [[txt "H"; txt "O"]; [txt "H"]]
            [map txt ["0.0"; "0.1"; "0.2"; "1.0"; "1.1"; "1.2"]%string;
             map txt ["2.0"; "2.1"; "2.2"]%string]
            [[txt "-1.5"]; [txt "-2.5"]]
            (Some [map txt ["0.3"; "0.4"; "0.5"; "1.3"; "1.4"; "1.5"]%string;
                   map txt ["2.3"; "2.4"; "2.5"]%string])
            (Some [map txt ["9"; "0"; "0"]%string;
                   map txt ["F"; "F"; "F"]%string])
            [(txt "note", Some [LStr (txt "a b"); LStr []])]
            (txt "box")) content
       /\ returns (split_extxyz content) (Some files)
       /\ stream (txt "coord.npy.txt") files
          = txt "0.0 0.1 0.2 1.0 1.1 1.2" ++ NL ++ txt "2.0 2.1 2.2" ++ NL
       /\ stream (txt "force.npy.txt") files
          = txt "0.3 0.4 0.5 1.3 1.4 1.5" ++ NL ++ txt "2.3 2.4 2.5" ++ NL
       /\ stream (txt "energy.npy.txt") files
          = txt "-1.5" ++ NL ++ txt "-2.5" ++ NL
       /\ stream (txt "box.npy.txt") files = txt "9 0 0" ++ NL
       /\ stream (txt "note.txt") files
          = txt "a_b" ++ NL ++ txt "None" ++ NL.
Proof.
  split; [reflexivity |]. split; [reflexivity |].
  destruct (@extended_round_trip
              [[txt "H"; txt "O"]; [txt "H"]]
              [map txt ["0.0"; "0.1"; "0.2"; "1.0"; "1.1"; "1.2"]%string;
               map txt ["2.0"; "2.1"; "2.2"]%string]
              [[txt "-1.5"]; [txt "-2.5"]]
              (Some [map txt ["0.3"; "0.4"; "0.5"; "1.3"; "1.4"; "1.5"]%string;
                     map txt ["2.3"; "2.4"; "2.5"]%string])
              (Some [map txt ["9"; "0"; "0"]%string;
                     map txt ["F"; "F"; "F"]%string])
              [(txt "note", Some [LStr (txt "a b"); LStr []])]
              (txt "box") eq_refl eq_refl eq_refl)
    as (content & files & Hgen & Hsplit & _ & Hc & Hf & He & Hb & _ & _ & _
        & Hl).
  exists content, files.
  split; [exact Hgen |]. split; [exact Hsplit |].
  split; [rewrite Hc; reflexivity |].
  split; [rewrite Hf; reflexivity |].
  split; [rewrite He; reflexivity |].
  split; [rewrite Hb; reflexivity |].
  change (txt "note.txt") with (txt "note" ++ txt ".txt").
  rewrite (Hl (txt "note") [LStr (txt "a b"); LStr []]);
    [reflexivity | left; reflexivity].
Defined.

(** C1, the claim as stated fails.  A one-frame collection that passes
    the validator, with a label [note] whose value is [a b]: the serializer
    writes [note=a_b], the parser returns the stream [a_b], and the column
    [a b] is not reconstructed. *)
Lemma label_with_space_not_restored :
  returns
    (validate_data_consistency [[txt "H"]]
       [map txt ["0.0"; "0.1"; "0.2"]%string] [[txt "-1.5"]] None None
       [(txt "note", Some [LStr (txt "a b")])]) tt
  /\ exists content files,
       generate_extxyz_content [[txt "H"]]
         [map txt ["0.0"; "0.1"; "0.2"]%string] [[txt "-1.5"]] None None
         [(txt "note", Some [LStr (txt "a b")])] (txt "fff")
       = ([Printed (ProcessingFrame 0 1)], inr content)
       /\ content
          = txt "1" ++ NL
            ++ txt "Properties=species:S:1:pos:R:3 note=a_b energy=-1.5 pbc="
            ++ [DQ] ++ txt "F F F" ++ [DQ] ++ NL
            ++ txt "H 0.0 0.1 0.2"
       /\ split_extxyz content = ([], inr (Some files))
       /\ stream (txt "note.txt") files = txt "a_b" ++ NL
       /\ stream (txt "note.txt") files <> txt "a b" ++ NL.
Proof.
  split; [reflexivity |].
  eexists. eexists.
  split; [reflexivity |]. split; [reflexivity |].
  split; [vm_compute; reflexivity |].
  split; [reflexivity | discriminate].
Qed.

(** *** The core operations leave the objects they are given unchanged *)

Section StoreFrame.

Variable float : Type.
Variable py_float : text -> option float.

Local Abbreviation HM := (Store.HM float).
Local Abbreviation value := (Store.value float).



Lemma keeps_weaken {A : Type} n (c : HM A) (Q R : A -> Prop) :
  Store.keeps n c Q -> (forall a, Q a -> R a) -> Store.keeps n c R.
Proof.
  intros H HQR h Hn. destruct (H h Hn) as (H1 & H2 & H3).
  repeat split; auto.
Qed.

Lemma keeps_ret {A : Type} n (a : A) :
  Store.keeps n (Store.hret a : HM A) (fun _ => True).
Proof. intros h Hn. cbn. auto. Qed.

Lemma keeps_lift {A : Type} n (m : M A) :
  Store.keeps n (Store.lift m : HM A) (fun _ => True).
Proof. intros h Hn. cbn. auto. Qed.

Lemma keeps_bind {A B : Type} n (c : HM A) (k : A -> HM B) Q R :
  Store.keeps n c Q -> (forall a, Q a -> Store.keeps n (k a) R) ->
  Store.keeps n (Store.hbind c k) R.
Proof.
  intros Hc Hk h Hn. unfold Store.hbind.
  destruct (Hc h Hn) as (H1 & H2 & H3).
  destruct (c h) as [h1 [log [e | a]]]; cbn [fst snd] in *.
  - repeat split; auto. discriminate.
  - destruct (Hk a (H3 a eq_refl) h1 H1) as (K1 & K2 & K3).
    destruct (k a h1) as [h2 [log2 r]]; cbn [fst snd] in *.
    repeat split; auto. congruence.
Qed.

Lemma keeps_alloc n (o : Store.object float) : Store.keeps n (Store.alloc o) (Store.fresh n).
Proof.
  intros h Hn. unfold Store.alloc. cbn [fst snd].
  rewrite length_app. split; [lia |]. split.
  - rewrite firstn_app. replace (n - length h) with 0 by lia.
    cbn. rewrite app_nil_r. reflexivity.
  - intros a Ha. inversion Ha; subst. exists (length h). auto.
Qed.

Lemma keeps_len n (v : value) : Store.keeps n (Store.list_len v) (fun _ => True).
Proof. intros h Hn. cbn. auto. Qed.

Lemma keeps_get n (v : value) i : Store.keeps n (Store.list_get v i) (fun _ => True).
Proof. intros h Hn. cbn. auto. Qed.

Lemma keeps_items n (v : value) : Store.keeps n (Store.list_items v) (fun _ => True).
Proof. intros h Hn. cbn. auto. Qed.

Lemma keeps_dict_items n (v : value) :
  Store.keeps n (Store.dict_items v) (fun _ => True).
Proof. intros h Hn. cbn. auto. Qed.

Lemma keeps_str_of n (v : value) : Store.keeps n (Store.str_of v) (fun _ => True).
Proof. apply keeps_lift. Qed.

Lemma keeps_slice n (v : value) a b :
  Store.keeps n (Store.list_slice v a b) (fun _ => True).
Proof.
  intros h Hn. unfold Store.list_slice.
  destruct (Store.lookup h v) as [[items | entries] |]; cbn [fst snd]; auto.
  rewrite length_app. split; [lia |]. split; [| auto].
  rewrite firstn_app. replace (n - length h) with 0 by lia.
  cbn. rewrite app_nil_r. reflexivity.
Qed.

(** The one operation that changes an object: harmless on an object
    allocated after the first [n]. *)
Lemma keeps_append n (v x : value) :
  Store.fresh n v -> Store.keeps n (Store.list_append v x) (fun _ => True).
Proof.
  intros (l & -> & Hl) h Hn. unfold Store.list_append.
  destruct (nth_error h l) as [[items | entries] |] eqn:E; cbn [fst snd];
    auto.
  assert (Hlt : l < length h) by (apply nth_error_Some; congruence).
  unfold Store.update. split; [| split; [| auto]].
  - rewrite length_app, length_firstn. cbn [length]. rewrite length_skipn.
    lia.
  - rewrite firstn_app, length_firstn.
    replace (n - Nat.min l (length h)) with 0 by lia.
    cbn [firstn]. rewrite app_nil_r, firstn_firstn.
    f_equal. lia.
Qed.

Lemma keeps_for {A : Type} n (l : list A) (body : A -> HM unit) :
  (forall x, Store.keeps n (body x) (fun _ => True)) ->
  Store.keeps n (Store.for_ l body) (fun _ => True).
Proof.
  intros H. induction l as [| x l IH]; cbn [Store.for_].
  - apply keeps_ret.
  - eapply keeps_bind; [apply H | intros _ _; exact IH].
Qed.

Lemma keeps_collect {A B : Type} n (f : A -> HM B) (l : list A) :
  (forall x, Store.keeps n (f x) (fun _ => True)) ->
  Store.keeps n (Store.collect f l) (fun _ => True).
Proof.
  intros H. induction l as [| x l IH]; cbn [Store.collect].
  - apply keeps_ret.
  - eapply keeps_bind; [apply H | intros y _].
    eapply keeps_bind; [exact IH | intros ys _; apply keeps_ret].
Qed.

Lemma keeps_accumulate {A : Type} n (f : A -> HM text) (l : list A) :
  (forall x, Store.keeps n (f x) (fun _ => True)) ->
  Store.keeps n (Store.accumulate f l) (fun _ => True).
Proof.
  intros H. induction l as [| x l IH]; cbn [Store.accumulate].
  - apply keeps_ret.
  - eapply keeps_bind; [apply H | intros y _].
    eapply keeps_bind; [exact IH | intros ys _; apply keeps_ret].
Qed.

Lemma keeps_true {A : Type} n (c : HM A) Q :
  Store.keeps n c Q -> Store.keeps n c (fun _ => True).
Proof. intros H. eapply keeps_weaken; [exact H | auto]. Qed.

(** One step of a proof that a computation keeps the first [n] objects:
    sequencing, the primitives, the loops, and the tests of the code. *)
Ltac keeps_step :=
  match goal with
  | |- Store.keeps _ (Store.hbind (Store.alloc _) _) _ =>
      eapply keeps_bind; [apply keeps_alloc | intros ? ?]
  | |- Store.keeps _ (Store.hbind _ _) _ =>
      eapply keeps_bind; [| intros ? _]
  | |- Store.keeps _ (Store.hret _) _ => apply keeps_ret
  | |- Store.keeps _ (Store.lift _) _ => apply keeps_lift
  | |- Store.keeps _ (Store.list_len _) _ => apply keeps_len
  | |- Store.keeps _ (Store.list_get _ _) _ => apply keeps_get
  | |- Store.keeps _ (Store.list_items _) _ => apply keeps_items
  | |- Store.keeps _ (Store.dict_items _) _ => apply keeps_dict_items
  | |- Store.keeps _ (Store.str_of _) _ => apply keeps_str_of
  | |- Store.keeps _ (Store.list_slice _ _ _) _ => apply keeps_slice
  | |- Store.keeps _ (Store.alloc _) _ =>
      eapply keeps_true; apply keeps_alloc
  | |- Store.keeps _ (Store.list_append _ _) _ =>
      apply keeps_append; assumption
  | |- Store.keeps _ (Store.for_ _ _) _ => apply keeps_for; intros ?
  | |- Store.keeps _ (Store.collect _ _) _ => apply keeps_collect; intros ?
  | |- Store.keeps _ (Store.accumulate _ _) _ =>
      apply keeps_accumulate; intros ?
  | |- Store.keeps _ (if ?b then _ else _) _ => destruct b
  | |- Store.keeps _ (match ?x with _ => _ end) _ => destruct x
  end.

Lemma keeps_join_list n sep (v : value) :
  Store.keeps n (Store.join_list sep v) (fun _ => True).
Proof. unfold Store.join_list. repeat keeps_step. Qed.

Lemma keeps_join_str_list n sep (v : value) :
  Store.keeps n (Store.join_str_list sep v) (fun _ => True).
Proof. unfold Store.join_str_list. repeat keeps_step. Qed.

Lemma keeps_check_count n (errors : value) k num_frames m :
  Store.fresh n errors ->
  Store.keeps n (Store.check_count errors k num_frames m) (fun _ => True).
Proof. intros H. unfold Store.check_count. repeat keeps_step. Qed.

Lemma keeps_print_value n (v : value) :
  Store.keeps n (Store.print_value v) (fun _ => True).
Proof. unfold Store.print_value. repeat keeps_step. Qed.

Lemma keeps_validate n
  (atom_types coordinates energies forces box labels : value) :
  Store.keeps n
    (Store.validate_data_consistency atom_types coordinates energies forces
       box labels) (fun _ => True).
Proof.
  unfold Store.validate_data_consistency.
  repeat first [ apply keeps_check_count; assumption
               | apply keeps_print_value
               | keeps_step ].
Qed.

Lemma keeps_generate_xyz_content n
  (atom_types coordinates energies : value) :
  Store.keeps n (Store.generate_xyz_content atom_types coordinates energies)
    (fun _ => True).
Proof.
  unfold Store.generate_xyz_content.
  repeat first [ apply keeps_join_list | keeps_step ].
Qed.

Lemma keeps_render_value n (v : value) :
  Store.keeps n (Store.render_value v) (fun _ => True).
Proof.
  unfold Store.render_value.
  repeat first [ apply keeps_join_list | keeps_step ].
Qed.

Lemma keeps_label_token n i (item : text * value) :
  Store.keeps n (Store.label_token i item) (fun _ => True).
Proof.
  unfold Store.label_token.
  repeat first [ apply keeps_render_value | keeps_step ].
Qed.

Lemma keeps_pbc_token n pbc_option (box : value) i :
  Store.keeps n (Store.pbc_token pbc_option box i) (fun _ => True).
Proof.
  unfold Store.pbc_token.
  repeat first [ apply keeps_join_list | keeps_step ].
Qed.

Lemma keeps_generate_extxyz_content n
  (atom_types coordinates energies forces box labels : value) pbc_option :
  Store.keeps n
    (Store.generate_extxyz_content atom_types coordinates energies forces
       box labels pbc_option) (fun _ => True).
Proof.
  unfold Store.generate_extxyz_content.
  repeat first [ apply keeps_join_list | apply keeps_join_str_list
               | apply keeps_label_token | apply keeps_pbc_token
               | keeps_step ].
Qed.

Lemma keeps_to_float n (v : value) :
  Store.keeps n (Store.to_float py_float v) (fun _ => True).
Proof. unfold Store.to_float. repeat keeps_step. Qed.

Lemma keeps_project_frames n (atom_types coordinates : value) :
  Store.keeps n (Store.project_frames py_float atom_types coordinates)
    (fun _ => True).
Proof.
  unfold Store.project_frames.
  repeat first [ apply keeps_to_float | keeps_step ].
Qed.

Lemma keeps_unchanged {A : Type} (c : HM A) Q (h : Store.heap float) :
  Store.keeps (length h) c Q ->
  forall l o, nth_error h l = Some o -> nth_error (fst (c h)) l = Some o.
Proof.
  intros H l o Hl. destruct (H h (le_n _)) as (H1 & H2 & _).
  rewrite firstn_all in H2.
  assert (Hlt : l < length h) by (apply nth_error_Some; congruence).
  rewrite <- Hl. rewrite <- H2 at 2.
  rewrite nth_error_firstn.
  destruct (Nat.ltb_spec l (length h)); [reflexivity | lia].
Qed.

End StoreFrame.

Lemma keeps_extends {A : Type} (float : Type) (c : Store.HM float A) Q
  (h : Store.heap float) :
  Store.keeps (length h) c Q -> exists created, fst (c h) = h ++ created.
Proof.
  intros H. destruct (H h (le_n _)) as (H1 & H2 & _).
  rewrite firstn_all in H2. exists (skipn (length h) (fst (c h))).
  rewrite <- (firstn_skipn (length h) (fst (c h))) at 1.
  rewrite H2. reflexivity.
Qed.

(** C9. Each core operation, run on any store with any arguments and
    whatever its outcome, leaves every object that existed before the call
    as it was: the store it leaves is the store it was given followed by
    the objects it created (its accumulators, slices and results).  The
    collections it is given are among the objects left as they were, and
    nothing that a call leaves behind is changed by a later call. *)
Theorem core_operations_only_allocate :
  forall (float : Type) (py_float : text -> option float)
         (h : Store.heap float)
         (atom_types coordinates energies forces box labels
            : Store.value float)
         (pbc_option : text),
    (exists created,
        fst (Store.validate_data_consistency atom_types coordinates energies
               forces box labels h) = h ++ created)
    /\ (exists created,
           fst (Store.generate_xyz_content atom_types coordinates energies h)
           = h ++ created)
    /\ (exists created,
           fst (Store.generate_extxyz_content atom_types coordinates energies
                  forces box labels pbc_option h) = h ++ created)
    /\ (exists created,
           fst (Store.project_frames py_float atom_types coordinates h)
           = h ++ created).
Proof.
  intros. split; [| split; [| split]].
  - eapply keeps_extends, keeps_validate.
  - eapply keeps_extends, keeps_generate_xyz_content.
  - eapply keeps_extends, keeps_generate_extxyz_content.
  - eapply keeps_extends, keeps_project_frames.
Qed.

(** The store of the examples below: one frame [H O] with its six
    coordinates and its energy, a force row, a box row and one label. *)
Example store_operations_on_a_frame :
  let h : Store.heap nat :=
    [ Store.OList [Store.VStr (txt "H"); Store.VStr (txt "O")];
      Store.OList [Store.VRef 0];
      Store.OList (map (fun s => Store.VStr (txt s))
                     ["0"; "1"; "2"; "3"; "4"; "5"]%string);
      Store.OList [Store.VRef 2];
      Store.OList [Store.VStr (txt "-1.5")];
      Store.OList [Store.VRef 4];
      Store.OList [Store.VStr (txt "a b")];
      Store.ODict [(txt "note", Store.VRef 6)] ] in
  let atom_types := [[txt "H"; txt "O"]] in
  let coordinates := [map txt ["0"; "1"; "2"; "3"; "4"; "5"]%string] in
  let energies := [[txt "-1.5"]] in
  let labels := [(txt "note", Some [LStr (txt "a b")])] in
  snd (Store.validate_data_consistency (Store.VRef 1) (Store.VRef 3)
         (Store.VRef 5) Store.VNone Store.VNone (Store.VRef 7) h)
  = validate_data_consistency atom_types coordinates energies None None labels
  /\ snd (Store.generate_xyz_content (Store.VRef 1) (Store.VRef 3)
            (Store.VRef 5) h)
     = generate_xyz_content atom_types coordinates energies
  /\ snd (Store.generate_extxyz_content (Store.VRef 1) (Store.VRef 3)
            (Store.VRef 5) Store.VNone Store.VNone (Store.VRef 7)
            (txt "fff") h)
     = generate_extxyz_content atom_types coordinates energies None None
         labels (txt "fff")
  /\ nth_error
       (fst (Store.generate_xyz_content (Store.VRef 1) (Store.VRef 3)
               (Store.VRef 5) h)) 8
     = Some (Store.OList
               [ Store.VStr (txt "     2");
                 Store.VStr (txt " i = 0, E = -1.5");
                 Store.VStr (txt "H 0 1 2");
                 Store.VStr (txt "O 3 4 5") ]).
Proof. repeat split. Qed.

(** The projection refers to the rows of [atom_types] themselves: the
    dictionary of frame 0 holds the reference of the row, not a copy. *)
Example projection_shares_the_atom_row :
  let h : Store.heap nat :=
    [ Store.OList [Store.VStr (txt "H")];
      Store.OList [Store.VRef 0];
      Store.OList (map (fun s => Store.VStr (txt s)) ["0"; "1"; "2"]%string);
      Store.OList [Store.VRef 2] ] in
  let h' := fst (Store.project_frames (fun _ => Some 0) (Store.VRef 1)
                   (Store.VRef 3) h) in
  nth_error h' 8
  = Some (Store.ODict [ (txt "frame", Store.VInt 0);
                        (txt "atoms", Store.VRef 0);
                        (txt "coords", Store.VRef 7) ])
  /\ firstn 4 h' = h.
Proof. split; reflexivity. Qed.

(* ================================================================== *)
(** ** Further properties of the code *)
(* ================================================================== *)

(** *** The readers, line by line *)

Lemma filter_seq_shift (f : nat -> bool) n :
  filter f (seq 1 n) = map S (filter (fun k => f (S k)) (seq 0 n)).
Proof.
  rewrite <- seq_shift. induction (seq 0 n) as [| k l IH]; [reflexivity |].
  cbn [map filter]. destruct (f (S k)); cbn [map]; rewrite IH; reflexivity.
Qed.

Lemma read_rows_lines file_path lines :
  forall line_num,
    read_rows file_path line_num lines
    = (map (fun k => Printed (BlankLineSkipped file_path (line_num + k)))
         (filter (fun k => blank (nth k lines [])) (seq 0 (length lines))),
       inr (map (fun l => split_ws (strip l))
              (filter (fun l => negb (blank l)) lines))).
Proof.
  induction lines as [| line rest IH]; intros line_num; [reflexivity |].
  cbn [read_rows length seq]. rewrite IH.
  change (filter ?f (0 :: ?l))
    with (if f 0 then 0 :: filter f l else filter f l).
  rewrite filter_seq_shift. cbn [filter nth].
  destruct (strip line) as [| c r] eqn:E.
  - assert (Hb : blank line = true) by (unfold blank; rewrite E; reflexivity).
    rewrite Hb. cbn [negb map bind print ret app fst snd].
    rewrite map_map, Nat.add_0_r. do 2 f_equal.
    apply map_ext. intros k. rewrite Nat.add_succ_r. reflexivity.
  - assert (Hb : blank line = false)
      by (unfold blank; rewrite E; reflexivity).
    rewrite Hb. cbn [negb map bind print ret app fst snd].
    rewrite map_map, E, app_nil_r. f_equal.
    apply map_ext. intros k. rewrite Nat.add_succ_r. reflexivity.
Qed.

Lemma read_label_lines_lines file_path lines :
  forall line_num,
    read_label_lines file_path line_num lines
    = (map (fun k => Printed (BlankLineSkipped file_path (line_num + k)))
         (filter (fun k => blank (nth k lines [])) (seq 0 (length lines))),
       inr (map (fun l => LStr (strip l))
              (filter (fun l => negb (blank l)) lines))).
Proof.
  induction lines as [| line rest IH]; intros line_num; [reflexivity |].
  cbn [read_label_lines length seq]. rewrite IH.
  change (filter ?f (0 :: ?l))
    with (if f 0 then 0 :: filter f l else filter f l).
  rewrite filter_seq_shift. cbn [filter nth].
  destruct (strip line) as [| c r] eqn:E.
  - assert (Hb : blank line = true) by (unfold blank; rewrite E; reflexivity).
    rewrite Hb. cbn [negb map bind print ret app fst snd].
    rewrite map_map, Nat.add_0_r. do 2 f_equal.
    apply map_ext. intros k. rewrite Nat.add_succ_r. reflexivity.
  - assert (Hb : blank line = false)
      by (unfold blank; rewrite E; reflexivity).
    rewrite Hb. cbn [negb map bind print ret app fst snd].
    rewrite map_map, E, app_nil_r. f_equal.
    apply map_ext. intros k. rewrite Nat.add_succ_r. reflexivity.
Qed.

(** X1.  The column reader raises [FileNotFoundError] on a missing path;
    otherwise it returns one row per line that is not blank, in order,
    the tokens of the line, and prints one warning per blank line, with
    the number of the line counted from 1. *)
Theorem read_file_rows_and_warnings :
  forall (fs : filesystem) (file_path : text),
    read_file fs file_path
    = match fs file_path with
      | None => ([], inl (Exn FileNotFoundError (NoSuchFile file_path)))
      | Some content =>
          let lines := file_lines content in
          (map (fun k => Printed (BlankLineSkipped file_path (S k)))
             (filter (fun k => blank (nth k lines []))
                (seq 0 (length lines))),
           inr (map (fun l => split_ws (strip l))
                  (filter (fun l => negb (blank l)) lines)))
      end.
Proof.
  intros fs file_path. unfold read_file.
  destruct (fs file_path) as [content |]; [| reflexivity].
  apply read_rows_lines.
Qed.

Lemma universal_newlines_nocr_le n :
  forall s, length s <= n -> forallb nocr (universal_newlines s) = true.
Proof.
  induction n as [| n IH]; intros s Hn.
  - destruct s; [reflexivity | simpl in Hn; lia].
  - destruct s as [| c s]; [reflexivity |]. cbn [universal_newlines].
    cbn [length] in Hn.
    destruct (Ascii.eqb c CR) eqn:Ec.
    + destruct s as [| d s]; [reflexivity |]. cbn [length] in Hn.
      destruct (Ascii.eqb d LF); cbn [forallb]; apply IH;
        cbn [length]; lia.
    + cbn [forallb]. unfold nocr at 1. rewrite Ec. apply IH. lia.
Qed.

Lemma universal_newlines_nocr s :
  forallb nocr (universal_newlines s) = true.
Proof. apply (@universal_newlines_nocr_le (length s) s). apply le_n. Qed.

Lemma lines_from_incl s :
  forall cur l, In l (lines_from cur s) -> incl l (cur ++ s).
Proof.
  induction s as [| c s IH]; intros cur l Hl; cbn [lines_from] in Hl.
  - destruct cur; [contradiction |]. destruct Hl as [<- | []].
    rewrite app_nil_r. apply incl_refl.
  - destruct (Ascii.eqb c LF).
    + destruct Hl as [<- | Hl].
      * intros x Hx. apply in_app_or in Hx as [Hx | [<- | []]];
          apply in_or_app; [left; exact Hx | right; left; reflexivity].
      * apply IH in Hl. intros x Hx. apply Hl in Hx.
        apply in_or_app. right. right. exact Hx.
    + apply IH in Hl. rewrite <- app_assoc in Hl. exact Hl.
Qed.

(** A line of a file, stripped, contains no line terminator. *)
Lemma file_line_noeol content l :
  In l (file_lines content) -> forallb noeol (strip l) = true.
Proof.
  intros Hl. unfold file_lines in Hl.
  pose proof (lines_from_nolf (universal_newlines content) [] eq_refl) as H1.
  rewrite Forall_forall in H1. specialize (H1 l Hl).
  apply lines_from_incl in Hl. cbn [app] in Hl.
  assert (H2 : forallb nocr (strip l) = true).
  { eapply forallb_incl; [| apply universal_newlines_nocr].
    intros x Hx. apply Hl, strip_incl, Hx. }
  rewrite forallb_forall in *. intros x Hx. unfold noeol.
  rewrite (H1 x Hx), (H2 x Hx). reflexivity.
Qed.

Lemma lstrip_keeps_last u d :
  isspace d = false -> exists pre, lstrip (u ++ [d]) = pre ++ [d].
Proof.
  intros Hd. induction u as [| c u IH]; cbn [app lstrip].
  - rewrite Hd. exists []. reflexivity.
  - destruct (isspace c); [exact IH |]. exists (c :: u). reflexivity.
Qed.

Lemma strip_last s c r : strip s = c :: r -> isspace (last (c :: r) c) = false.
Proof.
  unfold strip, rstrip. intros H.
  destruct (lstrip (rev s)) as [| d t] eqn:E; [discriminate |].
  pose proof (lstrip_head _ E) as Hd. cbn [rev] in H.
  destruct (@lstrip_keeps_last (rev t) d Hd) as (pre & Ep).
  rewrite Ep in H. rewrite <- H. rewrite last_last. exact Hd.
Qed.

(** X2.  The label reader on a path that exists returns the lines that are
    not blank, stripped, in order: every value is a non-empty string
    without whitespace at either end and without a line terminator, which
    the extended serializer writes as it is, spaces replaced: the
    substitution of [None] for an empty value is never used for a value
    read from a file. *)
Theorem read_label_file_values :
  forall (fs : filesystem) (file_path : text) log values,
    read_label_file fs file_path = (log, inr (Some values)) ->
    exists content,
      fs file_path = Some content
      /\ values = map (fun l => LStr (strip l))
                    (filter (fun l => negb (blank l)) (file_lines content))
      /\ Forall
           (fun v =>
              exists c s,
                v = LStr (c :: s)
                /\ isspace c = false
                /\ isspace (last (c :: s) c) = false
                /\ forallb noeol (c :: s) = true
                /\ render_label_value v = replace_space (c :: s))
           values.
Proof.
  intros fs file_path log values H. unfold read_label_file in H.
  destruct (fs file_path) as [content |] eqn:Efs; [| discriminate].
  rewrite read_label_lines_lines in H. cbn in H.
  inversion H as [[Hlog Hvalues]]. clear H Hlog.
  exists content. split; [reflexivity |]. split; [reflexivity |].
  apply Forall_forall. intros v Hv.
  apply in_map_iff in Hv as (l & <- & Hl).
  apply filter_In in Hl as [Hl Hb]. unfold blank in Hb.
  destruct (strip l) as [| c s] eqn:E; [discriminate |].
  exists c, s. split; [reflexivity |].
  split; [eapply strip_head; exact E |].
  split; [eapply strip_last; exact E |].
  split; [rewrite <- E; eapply file_line_noeol; exact Hl | reflexivity].
Qed.

Lemma read_label_file_values_witness :
  exists content,
    (fun path : text =>
       if text_eqb path (txt "charge.txt")
       then Some (txt " a b " ++ [LF; LF] ++ txt "c" ++ [CR; LF])
       else None) (txt "charge.txt") = Some content
    /\ [LStr (txt "a b"); LStr (txt "c")]
       = map (fun l => LStr (strip l))
           (filter (fun l => negb (blank l)) (file_lines content)).
Proof.
  destruct (@read_label_file_values
              (fun path : text =>
                 if text_eqb path (txt "charge.txt")
                 then Some (txt " a b " ++ [LF; LF] ++ txt "c" ++ [CR; LF])
                 else None)
              (txt "charge.txt")
              [Printed (BlankLineSkipped (txt "charge.txt") 2)]
              [LStr (txt "a b"); LStr (txt "c")] eq_refl)
    as (content & E & Hv & _).
  exists content. split; [exact E | exact Hv].
Defined.

(** *** What the validator prints and accepts *)

Lemma label_count_checks_silent n labels :
  fst (label_count_checks n labels) = [].
Proof.
  induction labels as [| [name values] rest IH]; [reflexivity |].
  cbn [label_count_checks]. destruct values as [vs |]; [| reflexivity].
  destruct (label_count_checks n rest) as [l [e | errs]];
    cbn [fst] in IH; subst l; reflexivity.
Qed.

Lemma getitem_silent {A : Type} (l : list A) i : fst (getitem l i) = [].
Proof. unfold getitem. destruct (nth_error l i); reflexivity. Qed.

Lemma bind_silent {A B : Type} (c : M A) (k : A -> M B) :
  fst c = [] -> (forall a, fst (k a) = []) -> fst (bind c k) = [].
Proof.
  intros Hc Hk. unfold bind. destruct c as [l [e | a]]; cbn [fst] in *.
  - exact Hc.
  - specialize (Hk a). destruct (k a) as [l' r]. cbn [fst] in *.
    subst. reflexivity.
Qed.

Lemma for_each_silent {A B : Type} (f : A -> M B) l :
  (forall x, fst (f x) = []) -> fst (for_each f l) = [].
Proof.
  intros H. induction l as [| x l IH]; [reflexivity |].
  cbn [for_each]. apply bind_silent; [apply H |]. intros y.
  apply bind_silent; [exact IH | reflexivity].
Qed.

Lemma frame_length_checks_silent atom_types coordinates forces i :
  fst (frame_length_checks atom_types coordinates forces i) = [].
Proof.
  unfold frame_length_checks.
  apply bind_silent; [apply getitem_silent |]. intros atoms.
  apply bind_silent; [apply getitem_silent |]. intros coord.
  destruct forces as [fs |]; [| reflexivity].
  apply bind_silent; [apply getitem_silent | reflexivity].
Qed.

(** X3.  A validation that returns has printed nothing, and the collection
    is consistent: every column, and every label, has one entry per frame
    of [atom_types], and every frame has three coordinates, and three
    force components when there are forces, per atom. *)
Theorem validator_accepts_only_consistent_data :
  forall atom_types coordinates energies forces box labels log,
    validate_data_consistency atom_types coordinates energies forces box
      labels = (log, inr tt) ->
    log = []
    /\ length coordinates = length atom_types
    /\ length energies = length atom_types
    /\ (forall fs, forces = Some fs -> length fs = length atom_types)
    /\ (forall b, box = Some b -> length b = length atom_types)
    /\ (forall name values,
          In (name, values) labels ->
          exists vs, values = Some vs /\ length vs = length atom_types)
    /\ forall i atoms,
         nth_error atom_types i = Some atoms ->
         length (nth i coordinates []) = length atoms * 3
         /\ forall fs, forces = Some fs ->
                       length (nth i fs []) = length atoms * 3.
Proof.
  intros * H.
  assert (Hret : returns (validate_data_consistency atom_types coordinates
                            energies forces box labels) tt)
    by (unfold returns; rewrite H; reflexivity).
  apply validate_returns_inv in Hret
    as (Hc & He & Hf & Hb & Hl & Hframes).
  split.
  { unfold validate_data_consistency in H.
    pose proof (label_count_checks_silent (length atom_types) labels) as S1.
    pose proof (for_each_silent
                  (frame_length_checks atom_types coordinates forces)
                  (seq 0 (length atom_types))
                  (frame_length_checks_silent atom_types coordinates forces))
      as S2.
    destruct (label_count_checks _ _) as [l1 [e1 | errors1]];
      [discriminate |].
    destruct (for_each _ _) as [l2 [e2 | errors2]]; [discriminate |].
    cbn [fst] in S1, S2. subst l1 l2. cbn [bind app] in H.
    match type of H with
    | context [match ?e with [] => ret tt | _ => _ end] => destruct e
    end.
    - inversion H. reflexivity.
    - rewrite print_all_prints in H. discriminate. }
  split; [exact Hc |]. split; [exact He |]. split; [exact Hf |].
  split; [exact Hb |]. split.
  { intros name values Hin. rewrite Forall_forall in Hl.
    destruct (Hl _ Hin) as (vs & E & Hvs). exists vs. auto. }
  intros i atoms Hi.
  assert (Hlt : i < length atom_types)
    by (apply nth_error_Some; congruence).
  destruct (Hframes i Hlt) as (atoms' & coord & Ha & Hcoord & Hlen & Hfs).
  rewrite Hi in Ha. inversion Ha; subst atoms'.
  split; [rewrite (nth_error_nth _ _ _ Hcoord); exact Hlen |].
  intros fs ->. destruct Hfs as (force & Hforce & Hflen).
  rewrite (nth_error_nth _ _ _ Hforce). exact Hflen.
Qed.

Lemma validator_accepts_only_consistent_data_witness :
  validate_data_consistency
    [[txt "H"; txt "O"]]
    [map txt ["0"; "0"; "0"; "1"; "1"; "1"]%string]
    [[txt "-1.5"]]
    (Some [map txt ["0"; "0"; "0"; "1"; "1"; "1"]%string])
    None [(txt "q", Some [LStr (txt "a")])]
  = ([], inr tt)
  /\ length (nth 0 [map txt ["0"; "0"; "0"; "1"; "1"; "1"]%string] []) = 6.
Proof.
  split; [reflexivity |].
  destruct (@validator_accepts_only_consistent_data
              [[txt "H"; txt "O"]]
              [map txt ["0"; "0"; "0"; "1"; "1"; "1"]%string]
              [[txt "-1.5"]]
              (Some [map txt ["0"; "0"; "0"; "1"; "1"; "1"]%string])
              None [(txt "q", Some [LStr (txt "a")])] [] eq_refl)
    as (_ & _ & _ & _ & _ & _ & Hframes).
  exact (proj1 (Hframes 0 [txt "H"; txt "O"] eq_refl)).
Defined.

Lemma validator_reports_every_violation_witness :
  validate_data_consistency
    [[txt "H"]]
    [map txt ["0"; "0"]%string; map txt ["1"; "1"; "1"]%string]
    [] None None [(txt "q", Some [])]
  = (map Printed
       [FrameCountMismatch Coordinates 1 2;
        FrameCountMismatch Energies 1 0;
        LabelCountMismatch (txt "q") 0 1;
        CoordLengthMismatch 0 3 2],
     inl (Exn ValueError ValidationFailed)).
Proof.
  apply (@validator_reports_every_violation
           [[txt "H"]]
           [map txt ["0"; "0"]%string; map txt ["1"; "1"; "1"]%string]
           [] None None [(txt "q", Some [])]).
  - simpl. lia.
  - intros fs E. discriminate E.
  - repeat constructor. simpl. discriminate.
Defined.

(** *** The outcome of the serializers on any collection *)

Lemma silent_returns {A : Type} (c : M A) a :
  fst c = [] -> returns c a -> c = ([], inr a).
Proof.
  destruct c as [l r]. unfold returns. cbn [fst snd]. intros -> ->.
  reflexivity.
Qed.

Lemma for_each_pure {A B : Type} (f : A -> M B) (g : A -> B) l :
  (forall x, In x l -> f x = ([], inr (g x))) ->
  for_each f l = ([], inr (map g l)).
Proof.
  induction l as [| x l IH]; intros H; [reflexivity |].
  cbn [for_each map]. rewrite (H x (or_introl eq_refl)).
  rewrite IH by (intros y Hy; apply H; right; exact Hy). reflexivity.
Qed.

(** A loop over the frames stops at the first frame whose body raises,
    with what was printed up to that frame. *)
Lemma for_each_first_failure {B : Type} (f : nat -> M B)
  (lg : nat -> list event) (err : nat -> option exn) (g : nat -> B) n :
  forall a,
    (forall i, a <= i < a + n ->
               f i = (lg i, match err i with
                            | Some e => inl e
                            | None => inr (g i)
                            end)) ->
    for_each f (seq a n)
    = match first_failure err (seq a n) with
      | None => (concat (map lg (seq a n)), inr (map g (seq a n)))
      | Some (i, e) => (concat (map lg (seq a (S i - a))), inl e)
      end.
Proof.
  induction n as [| n IH]; intros a H; [reflexivity |].
  cbn [seq for_each first_failure]. rewrite (H a) by lia.
  destruct (err a) as [e |] eqn:Ea.
  - replace (S a - a) with 1 by lia. cbn. rewrite app_nil_r. reflexivity.
  - rewrite (IH (S a)) by (intros i Hi; apply H; lia).
    destruct (first_failure err (seq (S a) n)) as [[i e] |] eqn:Ef.
    + assert (Hi : S a <= i).
      { clear - Ef. revert Ef. generalize (S a) as b.
        induction n as [| n IHn]; intros b Ef; cbn in Ef; [discriminate |].
        destruct (err b); [inversion Ef; subst; lia |].
        apply IHn in Ef. lia. }
      replace (S i - a) with (S (S i - S a)) by lia.
      cbn [seq map concat bind]. reflexivity.
    + cbn [map concat bind ret]. rewrite app_nil_r. reflexivity.
Qed.

Lemma concat_map_singleton {A B : Type} (f : A -> B) l :
  concat (map (fun x => [f x]) l) = map f l.
Proof.
  induction l as [| x l IH]; [reflexivity |]. cbn. rewrite IH. reflexivity.
Qed.

Lemma xyz_atom_line_value atoms crow i j :
  j < length atoms -> length crow = length atoms * 3 ->
  xyz_atom_line atoms crow i j
  = ([], inr (join (txt " ") (atom_fields atoms crow None j))).
Proof.
  intros Hj Hc. unfold xyz_atom_line, atom_fields.
  assert (E1 : (length atoms <=? j) = false) by (apply Nat.leb_gt; lia).
  assert (E2 : (length crow <? (j + 1) * 3) = false)
    by (apply Nat.ltb_ge; lia).
  rewrite E1, (getitem_some atoms j (nth_error_nth' atoms [] Hj)).
  rewrite bind_ret_l, E2, app_nil_r.
  rewrite join_cons; [reflexivity |].
  intros E. apply (f_equal (@length text)) in E.
  rewrite slice_length in E by lia. simpl in E. lia.
Qed.

Lemma bind_print_value {B : Type} m (c : M B) r :
  c = ([], r) -> (print m ;; c) = ([Printed m], r).
Proof. intros ->. destruct r; reflexivity. Qed.

Lemma xyz_frame_outcome atom_types coordinates energies i :
  i < length atom_types ->
  xyz_frame atom_types coordinates energies i
  = ([progress atom_types i],
     match xyz_frame_error atom_types coordinates energies i with
     | Some e => inl e
     | None => inr (xyz_frame_text atom_types coordinates energies i)
     end).
Proof.
  intros Hi. unfold xyz_frame, xyz_frame_error, xyz_frame_text, progress.
  rewrite (getitem_some atom_types i (nth_error_nth' atom_types [] Hi)).
  rewrite bind_ret_l.
  set (atoms := nth i atom_types []).
  apply bind_print_value.
  destruct (nth_error energies i) as [erow |] eqn:Ee.
  2:{ apply nth_error_None in Ee. apply Nat.leb_le in Ee. rewrite Ee.
      reflexivity. }
  assert (Hle : (length energies <=? i) = false).
  { apply Nat.leb_gt. apply nth_error_Some. congruence. }
  rewrite Hle, (getitem_some energies i Ee), bind_ret_l.
  rewrite (nth_error_nth _ _ [] Ee).
  destruct erow as [| energy erow]; [reflexivity |].
  rewrite (getitem_some (energy :: erow) 0 eq_refl), bind_ret_l.
  cbn [first_token hd].
  destruct (nth_error coordinates i) as [crow |] eqn:Ec.
  2:{ apply nth_error_None in Ec. apply Nat.leb_le in Ec. rewrite Ec.
      reflexivity. }
  assert (Hlc : (length coordinates <=? i) = false).
  { apply Nat.leb_gt. apply nth_error_Some. congruence. }
  rewrite Hlc, (getitem_some coordinates i Ec), bind_ret_l.
  rewrite (nth_error_nth _ _ [] Ec).
  destruct (length crow =? length atoms * 3) eqn:El; cbn [negb];
    [| reflexivity].
  apply Nat.eqb_eq in El.
  rewrite (@for_each_pure _ _ (xyz_atom_line atoms crow i)
             (fun j => join (txt " ") (atom_fields atoms crow None j))).
  2:{ intros j Hj. apply in_seq in Hj.
      apply xyz_atom_line_value; [lia | exact El]. }
  reflexivity.
Qed.

(** X5.  The plain serializer on any three columns.  It goes through the
    frames of [atom_types] in order and prints a progress line for each
    frame it reaches.  At the first frame without an energy row, with an
    empty energy row, without a coordinate row, or whose coordinate row
    has not three tokens per atom, it raises the exception of that check
    and returns nothing; when there is no such frame it returns the
    frames written one after the other.  Rows beyond those of
    [atom_types] are not looked at. *)
Theorem plain_serializer_outcome :
  forall atom_types coordinates energies : rows,
    let n := length atom_types in
    generate_xyz_content atom_types coordinates energies
    = match first_failure
              (xyz_frame_error atom_types coordinates energies) (seq 0 n)
      with
      | None =>
          (map (progress atom_types) (seq 0 n),
           inr (xyz_text atom_types coordinates energies))
      | Some (i, e) => (map (progress atom_types) (seq 0 (S i)), inl e)
      end.
Proof.
  intros atom_types coordinates energies n. unfold generate_xyz_content.
  fold n.
  rewrite (@for_each_first_failure _
             (xyz_frame atom_types coordinates energies)
             (fun i => [progress atom_types i])
             (xyz_frame_error atom_types coordinates energies)
             (xyz_frame_text atom_types coordinates energies) n 0).
  2:{ intros i Hi. apply xyz_frame_outcome. unfold n in Hi. lia. }
  destruct (first_failure _ _) as [[i e] |].
  - rewrite Nat.sub_0_r, concat_map_singleton. reflexivity.
  - rewrite concat_map_singleton. cbn [bind ret]. rewrite app_nil_r.
    reflexivity.
Qed.

Lemma extxyz_atom_line_silent atoms crow frow i j :
  fst (extxyz_atom_line atoms crow frow i j) = [].
Proof.
  unfold extxyz_atom_line.
  destruct (length atoms <=? j); [reflexivity |].
  apply bind_silent; [apply getitem_silent |]. intros atom.
  destruct (length crow <? (j + 1) * 3); [reflexivity |].
  destruct frow as [fr |]; [| reflexivity].
  destruct (length fr <? (j + 1) * 3); reflexivity.
Qed.

Lemma extxyz_atom_lines_value atoms crow frow i :
  length crow = length atoms * 3 ->
  (forall fr, frow = Some fr -> length fr = length atoms * 3) ->
  for_each (extxyz_atom_line atoms crow frow i) (seq 0 (length atoms))
  = ([], inr (atom_lines_text atoms crow frow)).
Proof.
  intros Hc Hf. unfold atom_lines_text. apply for_each_pure.
  intros j Hj. apply in_seq in Hj.
  apply silent_returns; [apply extxyz_atom_line_silent |].
  apply extxyz_atom_line_returns; [lia | exact Hc | exact Hf].
Qed.

Lemma metadata_line_outcome energies forces box labels pbc_option i erow :
  nth_error energies i = Some erow ->
  metadata_line energies forces box labels pbc_option i
  = (label_warnings labels i,
     match erow with
     | [] => inl (Exn IndexError ListIndexOutOfRange)
     | _ :: _ => inr (metadata_text energies forces box labels pbc_option i)
     end).
Proof.
  intros He. unfold metadata_line.
  pose proof (label_tokens_returns i labels) as Hr.
  pose proof (label_tokens_eq i labels) as Hl.
  destruct (label_tokens i labels) as [l r]. unfold returns in Hr.
  cbn [snd] in Hr. subst r.
  assert (El : l = label_warnings labels i) by (inversion Hl; reflexivity).
  subst l. clear Hl.
  rewrite (getitem_some energies i He).
  unfold metadata_text, metadata_shape. rewrite (nth_error_nth _ _ [] He).
  destruct erow as [| energy erow]; cbn; rewrite ?app_nil_r; reflexivity.
Qed.

Lemma bind_print_log {B : Type} m (c : M B) l r :
  c = (l, r) -> (print m ;; c) = (Printed m :: l, r).
Proof. intros ->. destruct r; reflexivity. Qed.

Lemma bind_value_silent {A B : Type} l (a : A) (k : A -> M B) r :
  k a = ([], r) -> bind (l, inr a) k = (l, r).
Proof. intros H. unfold bind. rewrite H, app_nil_r. reflexivity. Qed.

Lemma extxyz_frame_outcome atom_types coordinates energies forces box labels
  pbc_option i :
  i < length atom_types ->
  extxyz_frame atom_types coordinates energies forces box labels pbc_option i
  = (extxyz_frame_log atom_types energies labels i,
     match extxyz_frame_error atom_types coordinates energies forces i with
     | Some e => inl e
     | None =>
         inr (frame_text atom_types coordinates energies forces box labels
                pbc_option i)
     end).
Proof.
  intros Hi.
  unfold extxyz_frame, extxyz_frame_error, extxyz_frame_log, frame_text,
    progress.
  rewrite (getitem_some atom_types i (nth_error_nth' atom_types [] Hi)).
  rewrite bind_ret_l.
  set (atoms := nth i atom_types []).
  apply bind_print_log.
  destruct (nth_error energies i) as [erow |] eqn:Ee.
  2:{ apply nth_error_None in Ee. apply Nat.leb_le in Ee. rewrite Ee.
      reflexivity. }
  assert (Hle : (length energies <=? i) = false).
  { apply Nat.leb_gt. apply nth_error_Some. congruence. }
  rewrite Hle,
    (@metadata_line_outcome energies forces box labels pbc_option i erow Ee).
  destruct erow as [| energy erow]; [reflexivity |].
  apply bind_value_silent.
  destruct (nth_error coordinates i) as [crow |] eqn:Ec.
  2:{ rewrite (getitem_none coordinates i Ec). reflexivity. }
  rewrite (getitem_some coordinates i Ec), bind_ret_l.
  rewrite (nth_error_nth _ _ [] Ec).
  destruct (length crow =? length atoms * 3) eqn:El; cbn [negb];
    [| reflexivity].
  apply Nat.eqb_eq in El.
  destruct forces as [fs |]; cbn [force_row_at].
  - destruct (nth_error fs i) as [fr |] eqn:Ef.
    2:{ rewrite (getitem_none fs i Ef). reflexivity. }
    rewrite (getitem_some fs i Ef), (nth_error_nth _ _ [] Ef), bind_ret_l.
    destruct (length fr =? length atoms * 3) eqn:Elf; cbn [negb];
      [| reflexivity].
    apply Nat.eqb_eq in Elf. rewrite bind_ret_l.
    rewrite (@extxyz_atom_lines_value atoms crow (Some fr) i El)
      by (intros fr' E; inversion E; subst; exact Elf).
    reflexivity.
  - rewrite bind_ret_l.
    rewrite (@extxyz_atom_lines_value atoms crow None i El)
      by (intros fr' E; discriminate E).
    reflexivity.
Qed.

(** *** The labels in the metadata lines of the extended serializer *)

Lemma first_failure_none err l :
  first_failure err l = None -> forall i, In i l -> err i = None.
Proof.
  induction l as [| j l IH]; intros H i Hi; [destruct Hi |].
  cbn [first_failure] in H. destruct (err j) eqn:E; [discriminate |].
  destruct Hi as [<- | Hi]; [exact E | apply IH; assumption].
Qed.

Lemma nth_error_map_seq {B : Type} (f : nat -> B) n i :
  i < n -> nth_error (map f (seq 0 n)) i = Some (f i).
Proof.
  intros Hi. rewrite nth_error_map, (nth_error_seq_0 Hi). reflexivity.
Qed.

(** C5, as amended.  When the extended serializer returns, its text is
    that of the frames of [atom_types] one after the other, and the second
    line of frame [i], the metadata line, is made of the properties, then,
    in the order of the table, one token [ name=value] per label that has
    a value in frame [i] and nothing for a label that has none (no
    sequence at all, or a shorter one), then the energy and the pbc token.
    What is printed is, frame by frame, the progress line and one warning
    per label without a value for the frame.  The value written for an
    empty string is the literal [None]; in a non-empty value every space
    is replaced by an underscore and every other character is kept. *)
Theorem label_rendering :
  forall (atom_types coordinates energies : rows) (forces box : option rows)
         (labels : label_table) (pbc_option : text) log content,
    generate_extxyz_content atom_types coordinates energies forces box
      labels pbc_option = (log, inr content) ->
    (exists frames : list (list text),
       content = join NL (concat frames)
       /\ length frames = length atom_types
       /\ forall i, i < length atom_types ->
            exists energy rest atom_lines,
              nth_error energies i = Some (energy :: rest)
              /\ nth_error frames i
                 = Some (str_of_nat (length (nth i atom_types []))
                         :: (properties_token forces
                             ++ concat
                                  (map (fun l : text * option (list label_value) =>
                                          match label_value_at (snd l) i with
                                          | Some v =>
                                              txt " " ++ fst l ++ [EQ]
                                              ++ render_label_value v
                                          | None => []
                                          end) labels)
                             ++ txt " energy=" ++ energy
                             ++ txt " pbc=" ++ [DQ]
                             ++ pbc_value pbc_option box i ++ [DQ])
                         :: atom_lines))
    /\ log
       = concat
           (map (fun i =>
                   Printed (ProcessingFrame i (length (nth i atom_types [])))
                   :: map (fun l : text * option (list label_value) =>
                             Printed (MissingLabelValue i (fst l)))
                        (filter (fun l : text * option (list label_value) =>
                                   match label_value_at (snd l) i with
                                   | Some _ => false
                                   | None => true
                                   end) labels))
              (seq 0 (length atom_types)))
    /\ render_label_value (LStr []) = txt "None"
    /\ (forall c s,
          render_label_value (LStr (c :: s)) = replace_space (c :: s)
          /\ ~ In SP (replace_space (c :: s))
          /\ forall k,
               nth_error (replace_space (c :: s)) k
               = option_map (fun c => if Ascii.eqb c SP then USCORE else c)
                   (nth_error (c :: s) k)).
Proof.
  intros atom_types coordinates energies forces box labels pbc_option log
    content H.
  unfold generate_extxyz_content in H.
  rewrite (@for_each_first_failure _
             (extxyz_frame atom_types coordinates energies forces box labels
                pbc_option)
             (extxyz_frame_log atom_types energies labels)
             (extxyz_frame_error atom_types coordinates energies forces)
             (frame_text atom_types coordinates energies forces box labels
                pbc_option) (length atom_types) 0) in H
    by (intros i Hi; apply extxyz_frame_outcome; lia).
  destruct (first_failure _ _) as [[i0 e] |] eqn:Ef; [discriminate |].
  cbn [bind ret] in H. rewrite app_nil_r in H.
  inversion H as [[Hlog Hcontent]]. clear H.
  assert (Hrows : forall i, i < length atom_types ->
                    exists energy rest,
                      nth_error energies i = Some (energy :: rest)).
  { intros i Hi.
    pose proof (first_failure_none _ _ Ef i) as Hnone.
    unfold extxyz_frame_error in Hnone.
    destruct (nth_error energies i) as [[| energy rest] |].
    - discriminate Hnone. apply in_seq. lia.
    - exists energy, rest. reflexivity.
    - discriminate Hnone. apply in_seq. lia. }
  split; [| split; [| split; [reflexivity |]]].
  - exists (map (frame_text atom_types coordinates energies forces box labels
                   pbc_option) (seq 0 (length atom_types))).
    split; [reflexivity |].
    split; [rewrite length_map, length_seq; reflexivity |].
    intros i Hi. destruct (Hrows i Hi) as (energy & rest & Ee).
    exists energy, rest,
      (atom_lines_text (nth i atom_types []) (nth i coordinates [])
         (force_row_at forces i)).
    split; [exact Ee |].
    rewrite (nth_error_map_seq _ Hi). unfold frame_text, metadata_text,
      metadata_shape.
    rewrite (nth_error_nth _ _ [] Ee). cbn [first_token hd].
    pose proof (label_tokens_returns i labels) as Hr.
    unfold returns in Hr. rewrite label_tokens_eq in Hr. cbn [snd] in Hr.
    injection Hr as Hchunks. rewrite <- Hchunks. reflexivity.
  - f_equal. apply map_ext_in. intros i Hi. apply in_seq in Hi.
    unfold extxyz_frame_log, progress, label_warnings.
    destruct (Hrows i) as (energy & rest & Ee); [lia |].
    assert (Hle : (length energies <=? i) = false).
    { apply Nat.leb_gt. apply nth_error_Some. congruence. }
    rewrite Hle. reflexivity.
  - intros c s. split; [reflexivity |].
    split; [apply replace_space_no_space | apply replace_space_nth].
Qed.

Lemma label_rendering_witness :
  generate_extxyz_content [[txt "H"]] [map txt ["0.0"; "0.1"; "0.2"]%string]
    [[txt "-1.5"]] None None
    [(txt "a", Some [LStr (txt "x y")]); (txt "b", Some [LStr []]);
     (txt "c", Some [])]
    (txt "fff")
  = ([Printed (ProcessingFrame 0 1); Printed (MissingLabelValue 0 (txt "c"))],
     inr (txt "1" ++ NL
          ++ txt "Properties=species:S:1:pos:R:3 a=x_y b=None energy=-1.5 pbc="
          ++ [DQ] ++ txt "F F F" ++ [DQ] ++ NL
          ++ txt "H 0.0 0.1 0.2"))
  /\ exists (frames : list (list text)) (atom_lines : list text),
       txt "1" ++ NL
       ++ txt "Properties=species:S:1:pos:R:3 a=x_y b=None energy=-1.5 pbc="
       ++ [DQ] ++ txt "F F F" ++ [DQ] ++ NL
       ++ txt "H 0.0 0.1 0.2"
       = join NL (concat frames)
       /\ nth_error frames 0
          = Some (txt "1"
                  :: (txt "Properties=species:S:1:pos:R:3 a=x_y b=None energy=-1.5 pbc="
                      ++ [DQ] ++ txt "F F F" ++ [DQ])
                  :: atom_lines).
Proof.
  split; [reflexivity |].
  destruct (@label_rendering [[txt "H"]]
              [map txt ["0.0"; "0.1"; "0.2"]%string]
              [[txt "-1.5"]] None None
              [(txt "a", Some [LStr (txt "x y")]); (txt "b", Some [LStr []]);
               (txt "c", Some [])]
              (txt "fff")
              [Printed (ProcessingFrame 0 1);
               Printed (MissingLabelValue 0 (txt "c"))]
              (txt "1" ++ NL
               ++ txt "Properties=species:S:1:pos:R:3 a=x_y b=None energy=-1.5 pbc="
               ++ [DQ] ++ txt "F F F" ++ [DQ] ++ NL
               ++ txt "H 0.0 0.1 0.2") eq_refl)
    as ((frames & Hc & _ & Hf) & _).
  destruct (Hf 0 (Nat.lt_0_succ 0)) as (energy & rest & atom_lines & Ee & E).
  exists frames, atom_lines. split; [exact Hc |].
  injection Ee as <- _. exact E.
Defined.

(** *** The extended serializer on any collection *)

(** X6.  The extended serializer on any collection.  It goes through the
    frames of [atom_types] in order; in each frame it reaches it prints a
    progress line and, once it has found the energy row, one warning per
    label without a value for the frame.  At the first frame without an
    energy row, with an empty energy row, without a coordinate row, with
    a coordinate row that has not three tokens per atom, or, with forces,
    without a force row or with one that has not three tokens per atom,
    it raises the exception of that check and returns nothing; when there
    is no such frame it returns the frames written one after the other.
    A label without values, or with too few, never makes it fail. *)
Theorem extended_serializer_outcome :
  forall (atom_types coordinates energies : rows) (forces box : option rows)
         (labels : label_table) (pbc_option : text),
    let n := length atom_types in
    generate_extxyz_content atom_types coordinates energies forces box
      labels pbc_option
    = match first_failure
              (extxyz_frame_error atom_types coordinates energies forces)
              (seq 0 n)
      with
      | None =>
          (concat (map (extxyz_frame_log atom_types energies labels)
                     (seq 0 n)),
           inr (extxyz_text atom_types coordinates energies forces box
                  labels pbc_option))
      | Some (i, e) =>
          (concat (map (extxyz_frame_log atom_types energies labels)
                     (seq 0 (S i))),
           inl e)
      end.
Proof.
  intros atom_types coordinates energies forces box labels pbc_option n.
  unfold generate_extxyz_content. fold n.
  rewrite (@for_each_first_failure _
             (extxyz_frame atom_types coordinates energies forces box labels
                pbc_option)
             (extxyz_frame_log atom_types energies labels)
             (extxyz_frame_error atom_types coordinates energies forces)
             (frame_text atom_types coordinates energies forces box labels
                pbc_option) n 0).
  2:{ intros i Hi. apply extxyz_frame_outcome. unfold n in Hi. lia. }
  destruct (first_failure _ _) as [[i e] |].
  - rewrite Nat.sub_0_r. reflexivity.
  - cbn [bind ret]. rewrite app_nil_r. reflexivity.
Qed.

(** *** The entry points: content generation after validation *)

Lemma validated_frame_rows atom_types coordinates energies forces box labels :
  returns (validate_data_consistency atom_types coordinates energies forces
             box labels) tt ->
  forall i, i < length atom_types ->
    length (nth i coordinates []) = length (nth i atom_types []) * 3
    /\ i < length coordinates /\ i < length energies.
Proof.
  intros Hv i Hi.
  apply validate_returns_inv in Hv as (Hc & He & _ & _ & _ & Hframes).
  destruct (Hframes i Hi) as (atoms & coord & Ha & Hcoord & Hlen & _).
  rewrite (nth_error_nth _ _ [] Ha), (nth_error_nth _ _ [] Hcoord).
  split; [exact Hlen | lia].
Qed.

Lemma validated_xyz_frame_error atom_types coordinates energies forces box
  labels :
  rows_ok energies = true ->
  returns (validate_data_consistency atom_types coordinates energies forces
             box labels) tt ->
  forall i, i < length atom_types ->
    xyz_frame_error atom_types coordinates energies i = None.
Proof.
  intros Hen Hv i Hi.
  destruct (@validated_frame_rows _ _ _ _ _ _ Hv i Hi) as (Hlen & Hic & Hie).
  unfold xyz_frame_error.
  rewrite (nth_error_nth' energies [] Hie).
  pose proof (@rows_ok_row_nonempty energies i _ Hen
                (nth_error_nth' energies [] Hie)) as Hne.
  destruct (nth i energies []) as [| energy erow]; [congruence |].
  rewrite (nth_error_nth' coordinates [] Hic).
  cbv zeta. rewrite Hlen, Nat.eqb_refl. reflexivity.
Qed.

Lemma validated_xyz_content_returns atom_types coordinates energies forces
  box labels :
  rows_ok energies = true ->
  returns (validate_data_consistency atom_types coordinates energies forces
             box labels) tt ->
  returns (generate_xyz_content atom_types coordinates energies)
    (xyz_text atom_types coordinates energies).
Proof.
  intros Hen Hv. unfold generate_xyz_content, xyz_text.
  eapply returns_bind; [| reflexivity].
  apply returns_for_each. intros i Hi. apply in_seq in Hi.
  unfold returns. rewrite xyz_frame_outcome by lia.
  rewrite (@validated_xyz_frame_error _ _ _ _ _ _ Hen Hv) by lia.
  reflexivity.
Qed.

Lemma read_file_rows_ok fs file_path log data :
  read_file fs file_path = (log, inr data) -> rows_ok data = true.
Proof.
  unfold read_file. destruct (fs file_path); [| discriminate].
  apply read_rows_ok.
Qed.

Lemma bind_not_none {A B : Type} (c : M A) (k : A -> M (option B)) :
  (forall l a, c = (l, inr a) -> snd (k a) <> inr None) ->
  snd (bind c k) <> inr None.
Proof.
  intros H. unfold bind. destruct c as [l [e | a]]; [discriminate |].
  specialize (H l a eq_refl). destruct (k a) as [l' r]. exact H.
Qed.

Lemma try_except_returns {A B : Type} (c : M A) (f : A -> B) h d a :
  returns c a ->
  exists l, try_except (x <- c ;; ret (f x)) h d = (l, inr (f a)).
Proof.
  unfold returns. destruct c as [l r]. cbn [snd]. intros ->.
  exists l. cbn. rewrite app_nil_r. reflexivity.
Qed.

Section EntryPoints.

Variable float : Type.
Variable py_float : text -> option float.

Lemma generate_xyz_not_none fs atom_types_file coordinates_file
  energies_file :
  snd (generate_xyz py_float fs atom_types_file coordinates_file
         energies_file) <> inr None.
Proof.
  unfold generate_xyz.
  apply bind_not_none. intros l1 atom_types E1.
  apply bind_not_none. intros l2 coordinates E2.
  apply bind_not_none. intros l3 energies E3.
  apply bind_not_none. intros l4 [] E4.
  assert (Hv : returns (validate_data_consistency atom_types coordinates
                          energies None None []) tt)
    by (unfold returns; rewrite E4; reflexivity).
  destruct (@try_except_returns _ _ _ (@Some text) XyzContentError None _
              (@validated_xyz_content_returns _ _ _ _ _ _
                 (@read_file_rows_ok _ _ _ _ E3) Hv))
    as (l5 & E5).
  rewrite E5. cbn [bind].
  destruct (project_frames py_float atom_types coordinates)
    as [l6 [e | frames]]; cbn; discriminate.
Qed.

(** X7.  The plain conversion never gives up on the content: once the three
    files are read and the validator has accepted them, the serializer
    returns, so that [generate_xyz] never returns [None]; the wrapper,
    which unpacks the result, therefore never fails to unpack it: it
    raises exactly when [generate_xyz] raises, and returns what it
    returns. *)
Theorem generate_xyz_never_gives_up :
  forall (fs : filesystem)
         (atom_types_file coordinates_file energies_file : text),
    snd (generate_xyz py_float fs atom_types_file coordinates_file
           energies_file) <> inr None
    /\ generate_xyz py_float fs atom_types_file coordinates_file
         energies_file
       = (r <- generate_xyz_wrapper py_float fs atom_types_file
                 coordinates_file energies_file ;;
          ret (Some r)).
Proof.
  intros fs atom_types_file coordinates_file energies_file.
  pose proof (generate_xyz_not_none fs atom_types_file coordinates_file
                energies_file) as H.
  split; [exact H |]. unfold generate_xyz_wrapper.
  destruct (generate_xyz py_float fs atom_types_file coordinates_file
              energies_file) as [log [e | [[xyz_path frames] |]]].
  - reflexivity.
  - cbn. rewrite !app_nil_r. reflexivity.
  - cbn [snd] in H. congruence.
Qed.

(** X8.  The extended conversion never gives up on the content either: once
    the files are read and the validator has accepted the collection, the
    extended serializer returns, so that [generate_extxyz] never returns
    its pair of [None]. *)
Theorem generate_extxyz_never_gives_up :
  forall (fs : filesystem)
         (atom_types_file coordinates_file energies_file : text)
         (forces_file box_file : option text)
         (label_files : option (list text)) (pbc_option : text),
    snd (generate_extxyz py_float fs atom_types_file coordinates_file
           energies_file forces_file box_file label_files pbc_option)
    <> inr None.
Proof.
  intros. unfold generate_extxyz.
  apply bind_not_none. intros l1 atom_types E1.
  apply bind_not_none. intros l2 coordinates E2.
  apply bind_not_none. intros l3 energies E3.
  apply bind_not_none. intros l4 forces E4.
  apply bind_not_none. intros l5 box E5.
  apply bind_not_none. intros l6 labels E6.
  apply bind_not_none. intros l7 [] E7.
  assert (Hv : returns (validate_data_consistency atom_types coordinates
                          energies forces box labels) tt)
    by (unfold returns; rewrite E7; reflexivity).
  destruct (@try_except_returns _ _ _ (@Some text) ExtxyzContentError None _
              (@generate_extxyz_content_returns _ _ _ _ _ _ pbc_option
                 (@read_file_rows_ok _ _ _ _ E3) Hv))
    as (l8 & E8).
  rewrite E8. cbn [bind].
  destruct (project_frames py_float atom_types coordinates)
    as [l9 [e | frames]]; cbn; discriminate.
Qed.

End EntryPoints.

(** *** The frames handed to the viewer *)

Lemma Forall2_nth_r {A B : Type} (R : A -> B -> Prop) l ys :
  Forall2 R l ys ->
  forall k y, nth_error ys k = Some y ->
              exists x, nth_error l k = Some x /\ R x y.
Proof.
  induction 1 as [| a b l ys Hab _ IH]; intros k y Hk.
  - destruct k; discriminate.
  - destruct k as [| k]; simpl in *.
    + inversion Hk; subst. exists a. auto.
    + apply IH, Hk.
Qed.

Lemma nth_error_seq_inv n k x :
  nth_error (seq 0 n) k = Some x -> x = k /\ k < n.
Proof.
  intros H.
  assert (Hk : k < n).
  { assert (Hl : k < length (seq 0 n))
      by (apply nth_error_Some; congruence).
    rewrite length_seq in Hl. exact Hl. }
  pose proof (nth_error_seq_0 Hk) as E. rewrite E in H.
  inversion H; subst. split; [reflexivity | exact Hk].
Qed.

Lemma firstn_incl {A : Type} n (l : list A) : incl (firstn n l) l.
Proof.
  revert l. induction n as [| n IH]; intros l x Hx; [contradiction |].
  destruct l as [| y l]; [contradiction |]. cbn [firstn] in Hx.
  destruct Hx as [<- | Hx]; [left; reflexivity | right; apply IH, Hx].
Qed.

Lemma skipn_incl {A : Type} n (l : list A) : incl (skipn n l) l.
Proof.
  revert l. induction n as [| n IH]; intros l x Hx; [exact Hx |].
  destruct l as [| y l]; [contradiction |]. right. apply IH, Hx.
Qed.

Lemma slice_incl {A : Type} (l : list A) a b : incl (slice l a b) l.
Proof.
  unfold slice. intros x Hx. eapply skipn_incl, firstn_incl, Hx.
Qed.

Lemma for_each_silent_outcome {A B : Type} (f : A -> M B) (E : exn -> Prop)
  l :
  (forall x, In x l ->
             (exists y, f x = ([], inr y))
             \/ (exists e, f x = ([], inl e) /\ E e)) ->
  (exists ys, for_each f l = ([], inr ys))
  \/ (exists e, for_each f l = ([], inl e) /\ E e).
Proof.
  induction l as [| x l IH]; intros H.
  - left. exists []. reflexivity.
  - cbn [for_each].
    destruct (H x (or_introl eq_refl)) as [(y & Ey) | (e & Ee & He)].
    + rewrite Ey.
      destruct IH as [(ys & Eys) | (e & Ee & He)];
        [intros z Hz; apply H; right; exact Hz | |].
      * left. exists (y :: ys). cbn. rewrite Eys. reflexivity.
      * right. exists e. cbn. rewrite Ee. auto.
    + right. exists e. rewrite Ee. auto.
Qed.

Section Frames.

Variable float : Type.
Variable py_float : text -> option float.

Lemma to_float_returns_inv tok x :
  returns (to_float py_float tok) x -> py_float tok = Some x.
Proof.
  unfold to_float, returns. destruct (py_float tok); cbn; intros H;
    inversion H. reflexivity.
Qed.

Lemma to_floats_returns_inv toks xs :
  returns (for_each (to_float py_float) toks) xs ->
  map Some xs = map py_float toks.
Proof.
  intros H. apply returns_for_each_inv in H.
  induction H as [| tok x toks xs Hx _ IH]; [reflexivity |].
  cbn [map]. rewrite IH, (@to_float_returns_inv _ _ Hx). reflexivity.
Qed.

(** The frames the projection returns: one per frame of [atom_types],
    numbered in order, with the atoms of the frame and one point per
    atom, the floats of the three tokens of the atom. *)
Lemma project_frames_shape atom_types coordinates frames :
  returns (project_frames py_float atom_types coordinates) frames ->
  length frames = length atom_types
  /\ forall i frame,
       nth_error frames i = Some frame ->
       view_frame frame = i
       /\ nth_error atom_types i = Some (view_atoms frame)
       /\ length (view_coords frame) = length (view_atoms frame)
       /\ forall j point,
            nth_error (view_coords frame) j = Some point ->
            map Some point
            = map py_float
                (slice (nth i coordinates []) (j * 3) ((j + 1) * 3)).
Proof.
  unfold project_frames. intros H. apply returns_for_each_inv in H.
  split; [rewrite <- (Forall2_length H), length_seq; reflexivity |].
  intros i frame Hi.
  destruct (Forall2_nth_r H i Hi) as (i' & Hi' & Hf).
  apply nth_error_seq_inv in Hi' as [-> Hlt].
  unfold project_frame in Hf.
  apply returns_bind_inv in Hf as (atoms & Ha & Hf).
  apply returns_getitem_inv in Ha.
  apply returns_bind_inv in Hf as (coords & Hc & Hf).
  unfold returns in Hf. cbn in Hf. inversion Hf; subst frame.
  cbn [view_frame view_atoms view_coords].
  apply returns_for_each_inv in Hc.
  split; [reflexivity |]. split; [exact Ha |].
  split; [rewrite <- (Forall2_length Hc), length_seq; reflexivity |].
  intros j point Hj.
  destruct (Forall2_nth_r Hc j Hj) as (j' & Hj' & Hp).
  apply nth_error_seq_inv in Hj' as [-> Hjlt].
  apply returns_bind_inv in Hp as (crow & Hcrow & Hp).
  apply returns_getitem_inv in Hcrow.
  rewrite (nth_error_nth _ _ [] Hcrow).
  apply to_floats_returns_inv, Hp.
Qed.

Lemma to_floats_outcome toks :
  (exists xs, for_each (to_float py_float) toks = ([], inr xs))
  \/ (exists e, for_each (to_float py_float) toks = ([], inl e)
                /\ not_a_float py_float toks e).
Proof.
  apply for_each_silent_outcome. intros tok Htok. unfold to_float.
  destruct (py_float tok) as [x |] eqn:E.
  - left. exists x. reflexivity.
  - right. eexists. split; [reflexivity |]. exists tok. auto.
Qed.

Lemma project_frames_outcome atom_types coordinates :
  length atom_types <= length coordinates ->
  (exists frames,
      project_frames py_float atom_types coordinates = ([], inr frames))
  \/ (exists e,
         project_frames py_float atom_types coordinates = ([], inl e)
         /\ not_a_float py_float (concat coordinates) e).
Proof.
  intros Hlen. unfold project_frames.
  apply for_each_silent_outcome. intros i Hi. apply in_seq in Hi.
  unfold project_frame.
  assert (Hia : i < length atom_types) by lia.
  rewrite (getitem_some atom_types i (nth_error_nth' atom_types [] Hia)).
  rewrite bind_ret_l.
  assert (Hic : i < length coordinates) by lia.
  destruct (@for_each_silent_outcome _ _
              (fun j =>
                 coord_row <- getitem coordinates i ;;
                 for_each (to_float py_float)
                   (slice coord_row (j * 3) ((j + 1) * 3)))
              (not_a_float py_float (concat coordinates))
              (seq 0 (length (nth i atom_types []))))
    as [(coords & Ec) | (e & Ee & He)].
  - intros j _.
    rewrite (getitem_some coordinates i (nth_error_nth' coordinates [] Hic)).
    rewrite bind_ret_l.
    destruct (to_floats_outcome
                (slice (nth i coordinates []) (j * 3) ((j + 1) * 3)))
      as [(xs & Exs) | (e & Ee & (bad & -> & Hbad & Hin))].
    + left. exists xs. exact Exs.
    + right. eexists. split; [exact Ee |]. exists bad.
      split; [reflexivity |]. split; [exact Hbad |].
      apply in_concat. exists (nth i coordinates []).
      split; [apply nth_In; exact Hic | eapply slice_incl; exact Hin].
  - left. eexists. rewrite Ec. reflexivity.
  - right. exists e. rewrite Ee. auto.
Qed.

End Frames.

Lemma try_except_some_inv {A : Type} (c : M A) h l a :
  try_except (x <- c ;; ret (Some x)) h None = (l, inr (Some a)) ->
  returns c a.
Proof.
  unfold try_except, bind, returns. destruct c as [lc [e | x]]; cbn;
    intros H; inversion H. reflexivity.
Qed.

Lemma returns_of_eq {A : Type} (c : M A) l a : c = (l, inr a) -> returns c a.
Proof. intros ->. reflexivity. Qed.

Section Results.

Variable float : Type.
Variable py_float : text -> option float.

Lemma generate_xyz_inv (fs : filesystem)
  (atom_types_file coordinates_file energies_file : text) log content
  frames :
  generate_xyz py_float fs atom_types_file coordinates_file energies_file
  = (log, inr (Some (content, frames))) ->
  exists atom_types coordinates energies,
    returns (read_file fs atom_types_file) atom_types
    /\ returns (read_file fs coordinates_file) coordinates
    /\ returns (read_file fs energies_file) energies
    /\ rows_ok energies = true
    /\ returns (validate_data_consistency atom_types coordinates energies
                  None None []) tt
    /\ returns (generate_xyz_content atom_types coordinates energies)
         content
    /\ returns (project_frames py_float atom_types coordinates) frames.
Proof.
  intros H. unfold generate_xyz in H.
  bind_inv H as atom_types E1 H. bind_inv H as coordinates E2 H.
  bind_inv H as energies E3 H. bind_inv H as u Ev H. destruct u.
  bind_inv H as xyz_content Ec H.
  destruct xyz_content as [c |]; [| discriminate].
  bind_inv H as frames' Ef H. apply ret_inv in H as [H _].
  inversion H; subst c frames'. clear H.
  pose proof (read_file_rows_ok _ _ E3) as Hen.
  apply returns_of_eq in E1, E2, E3, Ev, Ef.
  apply try_except_some_inv in Ec.
  exists atom_types, coordinates, energies. auto 10.
Qed.

(** The points of the frames of a validated collection have three
    coordinates. *)
Lemma projected_points atom_types coordinates energies forces box labels
  frames :
  returns (validate_data_consistency atom_types coordinates energies forces
             box labels) tt ->
  returns (project_frames py_float atom_types coordinates) frames ->
  Forall (fun frame =>
            length (view_coords frame) = length (view_atoms frame)
            /\ Forall (fun point => length point = 3) (view_coords frame))
    frames.
Proof.
  intros Ev Ef.
  destruct (@project_frames_shape _ _ _ _ _ Ef) as [Hlen Hframes].
  apply Forall_forall. intros frame Hin.
  apply In_nth_error in Hin as (i & Hi).
  destruct (Hframes i frame Hi) as (_ & Ha & Hl & Hp).
  split; [exact Hl |]. apply Forall_forall. intros point Hpt.
  apply In_nth_error in Hpt as (j & Hj). specialize (Hp j point Hj).
  assert (Hilt : i < length atom_types)
    by (apply nth_error_Some; congruence).
  assert (Hjlt : j < length (view_atoms frame)).
  { rewrite <- Hl. apply nth_error_Some. congruence. }
  destruct (@validated_frame_rows _ _ _ _ _ _ Ev i Hilt) as (Hrow & _ & _).
  rewrite (nth_error_nth _ _ [] Ha) in Hrow.
  apply (f_equal (@length (option float))) in Hp.
  rewrite !length_map, slice_length in Hp by lia. lia.
Qed.

(** X9.  What the plain conversion returns: the text of the plain serializer
    for the rows of the three files, and one frame per row of atom types
    for the viewer, numbered from 0, with the species of the row and one
    point per atom, made of the floats of the three coordinate tokens of
    that atom. *)
Theorem generate_xyz_result :
  forall (fs : filesystem)
         (atom_types_file coordinates_file energies_file : text)
         log content frames,
    generate_xyz py_float fs atom_types_file coordinates_file energies_file
    = (log, inr (Some (content, frames))) ->
    exists atom_types coordinates energies,
      returns (read_file fs atom_types_file) atom_types
      /\ returns (read_file fs coordinates_file) coordinates
      /\ returns (read_file fs energies_file) energies
      /\ content = xyz_text atom_types coordinates energies
      /\ length frames = length atom_types
      /\ forall i frame,
           nth_error frames i = Some frame ->
           view_frame frame = i
           /\ nth_error atom_types i = Some (view_atoms frame)
           /\ length (view_coords frame) = length (view_atoms frame)
           /\ forall j point,
                nth_error (view_coords frame) j = Some point ->
                length point = 3
                /\ map Some point
                   = map py_float
                       (slice (nth i coordinates []) (j * 3) ((j + 1) * 3)).
Proof.
  intros * H.
  apply generate_xyz_inv in H
    as (atom_types & coordinates & energies & E1 & E2 & E3 & Hen & Ev & Ec
        & Ef).
  exists atom_types, coordinates, energies.
  split; [exact E1 |]. split; [exact E2 |]. split; [exact E3 |].
  split.
  { eapply returns_inj; [exact Ec |].
    eapply validated_xyz_content_returns; [exact Hen | exact Ev]. }
  destruct (@project_frames_shape _ _ _ _ _ Ef) as [Hlen Hframes].
  split; [exact Hlen |].
  intros i frame Hi.
  destruct (Hframes i frame Hi) as (Hn & Ha & Hl & Hp).
  split; [exact Hn |]. split; [exact Ha |]. split; [exact Hl |].
  intros j point Hj. split; [| exact (Hp j point Hj)].
  pose proof (@projected_points _ _ _ _ _ _ _ Ev Ef) as Hshape.
  rewrite Forall_forall in Hshape.
  destruct (Hshape frame (nth_error_In _ _ Hi)) as [_ Hpts].
  rewrite Forall_forall in Hpts. apply Hpts.
  eapply nth_error_In; exact Hj.
Qed.

End Results.

Lemma generate_xyz_result_witness :
  exists atom_types,
    returns
      (read_file
         (fun path : text =>
            if text_eqb path (txt "a") then Some (txt "H O")
            else if text_eqb path (txt "c") then Some (txt "0 0 0 1 1 1")
            else if text_eqb path (txt "e") then Some (txt "-1.5")
            else None) (txt "a")) atom_types
    /\ length [FrameView 0 [txt "H"; txt "O"]
                 [map txt ["0"; "0"; "0"]%string;
                  map txt ["1"; "1"; "1"]%string]]
       = length atom_types.
Proof.
  destruct (@generate_xyz_result text (fun tok => Some tok)
              (fun path : text =>
                 if text_eqb path (txt "a") then Some (txt "H O")
                 else if text_eqb path (txt "c")
                      then Some (txt "0 0 0 1 1 1")
                      else if text_eqb path (txt "e") then Some (txt "-1.5")
                           else None)
              (txt "a") (txt "c") (txt "e")
              [Printed (ProcessingFrame 0 2)]
              (txt "     2" ++ NL ++ txt " i = 0, E = -1.5" ++ NL
               ++ txt "H 0 0 0" ++ NL ++ txt "O 1 1 1")
              [FrameView 0 [txt "H"; txt "O"]
                 [map txt ["0"; "0"; "0"]%string;
                  map txt ["1"; "1"; "1"]%string]] eq_refl)
    as (atom_types & coordinates & energies & Ha & _ & _ & _ & Hlen & _).
  exists atom_types. split; [exact Ha | exact Hlen].
Defined.

Lemma returns_eq {A : Type} (c : M A) a : returns c a -> c = (fst c, inr a).
Proof. destruct c as [l r]. unfold returns. cbn. intros ->. reflexivity. Qed.

Lemma bind_raises_after {A B : Type} (c : M A) (k : A -> M B) a e :
  returns c a -> (exists l, k a = (l, inl e)) ->
  exists l, bind c k = (l, inl e).
Proof.
  unfold returns, bind. destruct c as [lc r]. cbn [snd]. intros ->.
  intros (l & ->). eexists. reflexivity.
Qed.

Section NonNumeric.

Variable float : Type.
Variable py_float : text -> option float.

Lemma projected_tokens_are_floats atom_types coordinates energies forces box
  labels frames tok :
  returns (validate_data_consistency atom_types coordinates energies forces
             box labels) tt ->
  returns (project_frames py_float atom_types coordinates) frames ->
  In tok (concat coordinates) -> py_float tok <> None.
Proof.
  intros Hv Hf Hin.
  destruct (@project_frames_shape _ _ _ _ _ Hf) as [Hlen Hframes].
  apply in_concat in Hin as (row & Hrow & Htok).
  apply In_nth_error in Hrow as (i & Hi).
  assert (Hic : i < length coordinates)
    by (apply nth_error_Some; congruence).
  pose proof Hv as Hinv.
  apply validate_returns_inv in Hinv as (Hc & _).
  assert (Hia : i < length atom_types) by lia.
  destruct (@validated_frame_rows _ _ _ _ _ _ Hv i Hia) as (Hr & _ & _).
  rewrite (nth_error_nth _ _ [] Hi) in Hr.
  destruct (nth_error frames i) as [frame |] eqn:Ef.
  2:{ apply nth_error_None in Ef. lia. }
  destruct (Hframes i frame Ef) as (_ & Ha & Hl & Hp).
  rewrite (nth_error_nth _ _ [] Ha) in Hr.
  rewrite <- (@concat_slices _ _ row Hr) in Htok.
  apply in_concat in Htok as (s & Hs & Htok).
  apply in_map_iff in Hs as (j & <- & Hj). apply in_seq in Hj.
  destruct (nth_error (view_coords frame) j) as [point |] eqn:Ep.
  2:{ apply nth_error_None in Ep. lia. }
  specialize (Hp j point Ep). rewrite (nth_error_nth _ _ [] Hi) in Hp.
  assert (Hm : In (py_float tok) (map Some point))
    by (rewrite Hp; apply in_map, Htok).
  apply in_map_iff in Hm as (x & <- & _). discriminate.
Qed.

(** X10.  A coordinate token that is not a number is noticed neither by the
    validator nor by the plain serializer: the content is generated, and
    the conversion then raises the [ValueError] of [float] while it
    builds the frames of the viewer, outside the [try] of
    [generate_xyz]. *)
Theorem non_numeric_coordinate_raises :
  forall (fs : filesystem)
         (atom_types_file coordinates_file energies_file : text)
         atom_types coordinates energies tok,
    returns (read_file fs atom_types_file) atom_types ->
    returns (read_file fs coordinates_file) coordinates ->
    returns (read_file fs energies_file) energies ->
    returns (validate_data_consistency atom_types coordinates energies None
               None []) tt ->
    In tok (concat coordinates) -> py_float tok = None ->
    returns (generate_xyz_content atom_types coordinates energies)
      (xyz_text atom_types coordinates energies)
    /\ exists log bad,
         generate_xyz py_float fs atom_types_file coordinates_file
           energies_file
         = (log, inl (Exn ValueError (NotAFloat bad)))
         /\ py_float bad = None /\ In bad (concat coordinates).
Proof.
  intros * E1 E2 E3 Ev Hin Htok.
  assert (Hen : rows_ok energies = true).
  { apply returns_eq in E3. eapply read_file_rows_ok; exact E3. }
  pose proof (@validated_xyz_content_returns _ _ _ _ _ _ Hen Ev) as Hc.
  split; [exact Hc |].
  destruct (@try_except_returns _ _ _ (@Some text) XyzContentError None _ Hc)
    as (l5 & E5).
  assert (Hlen : length atom_types <= length coordinates).
  { pose proof Ev as Hinv.
    apply validate_returns_inv in Hinv as (Hl & _). lia. }
  destruct (@project_frames_outcome _ py_float _ _ Hlen)
    as [(frames & Ef) | (e & Ee & (bad & -> & Hbad & Hinb))].
  { exfalso.
    apply (@projected_tokens_are_floats _ _ _ _ _ _ frames tok Ev);
      [rewrite Ef; reflexivity | exact Hin | exact Htok]. }
  assert (H : exists log,
             generate_xyz py_float fs atom_types_file coordinates_file
               energies_file
             = (log, inl (Exn ValueError (NotAFloat bad)))).
  { unfold generate_xyz.
    eapply bind_raises_after; [exact E1 |].
    eapply bind_raises_after; [exact E2 |].
    eapply bind_raises_after; [exact E3 |].
    eapply bind_raises_after; [exact Ev |].
    eapply bind_raises_after; [rewrite E5; reflexivity |].
    cbn iota. rewrite Ee. eexists. reflexivity. }
  destruct H as (log & H). exists log, bad. auto.
Qed.

End NonNumeric.

Lemma non_numeric_coordinate_raises_witness :
  exists log bad,
    generate_xyz (fun tok : text => if isdigit tok then Some tok else None)
      (fun path : text =>
         if text_eqb path (txt "a") then Some (txt "H")
         else if text_eqb path (txt "c") then Some (txt "0 x 0")
         else if text_eqb path (txt "e") then Some (txt "-1.5")
         else None)
      (txt "a") (txt "c") (txt "e")
    = (log, inl (Exn ValueError (NotAFloat bad)))
    /\ bad = txt "x".
Proof.
  destruct (@non_numeric_coordinate_raises text
              (fun tok : text => if isdigit tok then Some tok else None)
              (fun path : text =>
                 if text_eqb path (txt "a") then Some (txt "H")
                 else if text_eqb path (txt "c") then Some (txt "0 x 0")
                 else if text_eqb path (txt "e") then Some (txt "-1.5")
                 else None)
              (txt "a") (txt "c") (txt "e")
              [[txt "H"]] [map txt ["0"; "x"; "0"]%string] [[txt "-1.5"]]
              (txt "x") eq_refl eq_refl eq_refl eq_refl
              (or_intror (or_introl eq_refl)) eq_refl)
    as (_ & log & bad & E & Hbad & Hin).
  exists log, bad. split; [exact E |].
  vm_compute in E. inversion E. reflexivity.
Defined.

(** *** How the parser cuts a file into frames *)

Lemma concat_flush (cur : list text) : concat (flush cur) = cur.
Proof. destruct cur; [reflexivity |]. cbn. rewrite app_nil_r. reflexivity. Qed.

Lemma flush_nonempty (cur : list text) :
  Forall (fun fr => fr <> []) (flush cur).
Proof. destruct cur; repeat constructor. discriminate. Qed.

Lemma fold_push_line_spec ls :
  forall frames cur,
    Forall (fun fr : list text => fr <> []) frames ->
    Forall (fun fr => forallb (fun l => negb (isdigit l)) (tl fr) = true)
      frames ->
    forallb (fun l => negb (isdigit l)) (tl cur) = true ->
    let st := fold_left push_line ls (frames, cur) in
    concat (fst st) ++ snd st = concat frames ++ cur ++ ls
    /\ Forall (fun fr : list text => fr <> []) (fst st)
    /\ Forall (fun fr => forallb (fun l => negb (isdigit l)) (tl fr) = true)
         (fst st)
    /\ forallb (fun l => negb (isdigit l)) (tl (snd st)) = true.
Proof.
  induction ls as [| s ls IH]; intros frames cur Hne Htl Hcur.
  - cbn. rewrite app_nil_r. auto.
  - cbn [fold_left push_line]. destruct (isdigit s) eqn:Es.
    + destruct (IH (frames ++ flush cur) [s]) as (H1 & H2 & H3 & H4).
      * apply Forall_app. split; [exact Hne | apply flush_nonempty].
      * apply Forall_app. split; [exact Htl |].
        destruct cur; repeat constructor. exact Hcur.
      * reflexivity.
      * cbv zeta. rewrite H1, concat_app, concat_flush, <- !app_assoc.
        auto.
    + destruct (IH frames (cur ++ [s])) as (H1 & H2 & H3 & H4).
      * exact Hne.
      * exact Htl.
      * destruct cur as [| c cur]; [reflexivity |].
        cbn [app tl] in *. rewrite forallb_app, Hcur. cbn. rewrite Es.
        reflexivity.
      * cbv zeta. rewrite H1, <- !app_assoc. auto.
Qed.

(** The frames are the stripped lines of the file, cut before every
    line of digits: no frame is empty, and only the first line of a frame
    can be a line of digits. *)
Lemma collect_frames_spec lines :
  concat (collect_frames lines) = map strip lines
  /\ Forall (fun fr : list text => fr <> []) (collect_frames lines)
  /\ Forall (fun fr => forallb (fun l => negb (isdigit l)) (tl fr) = true)
       (collect_frames lines).
Proof.
  unfold collect_frames. rewrite fold_scan_line.
  destruct (@fold_push_line_spec (map strip lines) [] [])
    as (H1 & H2 & H3 & H4); [constructor | constructor | reflexivity |].
  destruct (fold_left push_line (map strip lines) ([], [])) as [frames cur].
  cbn [fst snd app concat] in *.
  split; [rewrite concat_app, concat_flush; exact H1 |].
  split.
  - apply Forall_app. split; [exact H2 | apply flush_nonempty].
  - apply Forall_app. split; [exact H3 |].
    destruct cur; repeat constructor. exact H4.
Qed.

Lemma line_in_some_frame lines l :
  In l lines ->
  exists frame, In frame (collect_frames lines) /\ In (strip l) frame.
Proof.
  intros Hl. destruct (collect_frames_spec lines) as (Hc & _).
  assert (Hin : In (strip l) (concat (collect_frames lines)))
    by (rewrite Hc; apply in_map, Hl).
  apply in_concat in Hin as (frame & Hf & Hs). eauto.
Qed.

Lemma digit_line_heads_frame lines l :
  In l lines -> isdigit (strip l) = true ->
  exists rest, In (strip l :: rest) (collect_frames lines).
Proof.
  intros Hl Hd. destruct (line_in_some_frame lines l Hl) as (frame & Hf & Hs).
  destruct (collect_frames_spec lines) as (_ & _ & Htl).
  rewrite Forall_forall in Htl. specialize (Htl frame Hf).
  destruct frame as [| first rest]; [contradiction |].
  destruct Hs as [-> | Hs]; [exists rest; exact Hf |].
  cbn [tl] in Htl. rewrite forallb_forall in Htl.
  specialize (Htl _ Hs). rewrite Hd in Htl. discriminate.
Qed.

(** *** When the parser returns *)

Lemma split_on_from_no_sep sep s :
  forall cur,
    existsb (fun c => Ascii.eqb c sep) s = false ->
    split_on_from sep cur s = [cur ++ s].
Proof.
  induction s as [| c s IH]; intros cur H; cbn [split_on_from].
  - rewrite app_nil_r. reflexivity.
  - cbn [existsb] in H. apply orb_false_iff in H as [Hc Hs].
    rewrite Hc, IH by exact Hs. rewrite <- app_assoc. reflexivity.
Qed.

Lemma split_on_from_sep sep s :
  forall cur,
    existsb (fun c => Ascii.eqb c sep) s = true ->
    exists a b rest, split_on_from sep cur s = a :: b :: rest.
Proof.
  induction s as [| c s IH]; intros cur H; [discriminate |].
  cbn [split_on_from]. cbn [existsb] in H.
  destruct (Ascii.eqb c sep).
  - destruct s as [| d s]; cbn [split_on_from].
    + do 3 eexists. reflexivity.
    + destruct (Ascii.eqb d sep); [do 3 eexists; reflexivity |].
      pose proof (@split_on_from_nonempty sep s ([] ++ [d])) as Hne.
      destruct (split_on_from sep ([] ++ [d]) s) as [| x xs];
        [congruence |].
      do 3 eexists. reflexivity.
  - apply IH. exact H.
Qed.

Lemma parse_properties_outcome line :
  if existsb (fun c => Ascii.eqb c EQ) line
  then exists props, parse_properties line = ([], inr props)
  else parse_properties line
       = ([], inl (Exn IndexError ListIndexOutOfRange)).
Proof.
  unfold parse_properties, split_on.
  destruct (existsb _ line) eqn:E.
  - destruct (split_on_from_sep EQ line [] E) as (a & b & rest & ->).
    eexists. reflexivity.
  - rewrite split_on_from_no_sep by exact E. reflexivity.
Qed.

Lemma parse_atom_line_outcome atom_line :
  parse_atom_line atom_line
  = if atom_line_ok atom_line
    then ([], inr (hd [] (split_ws atom_line),
                   slice (split_ws atom_line) 1 4,
                   if 4 <? length (split_ws atom_line)
                   then slice (split_ws atom_line) 4 7 else []))
    else ([], inl (Exn IndexError ListIndexOutOfRange)).
Proof.
  unfold parse_atom_line, atom_line_ok.
  destruct (split_ws atom_line) as [| sp toks]; reflexivity.
Qed.

Lemma parse_atom_lines_outcome atom_lines :
  if forallb atom_line_ok atom_lines
  then for_each parse_atom_line atom_lines
       = ([], inr (map (fun l =>
                          (hd [] (split_ws l), slice (split_ws l) 1 4,
                           if 4 <? length (split_ws l)
                           then slice (split_ws l) 4 7 else []))
                     atom_lines))
  else for_each parse_atom_line atom_lines
       = ([], inl (Exn IndexError ListIndexOutOfRange)).
Proof.
  induction atom_lines as [| l rest IH]; [reflexivity |].
  cbn [forallb for_each map]. rewrite parse_atom_line_outcome.
  destruct (atom_line_ok l); cbn [andb]; [| reflexivity].
  destruct (forallb atom_line_ok rest); rewrite IH; reflexivity.
Qed.

(** The streams a frame adds to, from its lines. *)
Lemma process_frame_outcome out frame :
  if frame_wellformed frame
  then process_frame out frame
       = ([], inr (write_atom_streams
                     (map (fun l =>
                             (hd [] (split_ws l), slice (split_ws l) 1 4,
                              if 4 <? length (split_ws l)
                              then slice (split_ws l) 4 7 else []))
                        (skipn 2 frame))
                     (write_header_streams (frame_metadata frame) out)))
  else exists e, process_frame out frame = ([], inl e).
Proof.
  unfold process_frame, frame_wellformed, frame_metadata.
  destruct frame as [| first rest]; [eexists; reflexivity |].
  rewrite (getitem_some (first :: rest) 0 eq_refl), bind_ret_l.
  destruct rest as [| line atom_lines].
  { destruct (int_accepts first); eexists; reflexivity. }
  destruct (int_accepts first); cbn [andb]; [| eexists; reflexivity].
  rewrite bind_ret_l.
  rewrite (getitem_some (first :: line :: atom_lines) 1 eq_refl), bind_ret_l.
  pose proof (parse_properties_outcome line) as Hp.
  destruct (existsb _ line); cbn [andb].
  2:{ rewrite Hp. eexists. reflexivity. }
  destruct Hp as (props & ->). rewrite bind_pure. cbv zeta.
  pose proof (write_label_files_outcome (parse_labels line) out) as Hw.
  destruct (label_files_ok (parse_labels line)); cbn [andb].
  2:{ destruct Hw as (e & ->). exists e. reflexivity. }
  rewrite Hw, bind_pure.
  rewrite open_append_short, bind_pure by reflexivity.
  rewrite write_box_file_eq, bind_pure.
  cbn [skipn nth].
  pose proof (parse_atom_lines_outcome atom_lines) as Ha.
  destruct (forallb atom_line_ok atom_lines); rewrite Ha;
    [rewrite bind_pure; apply write_atom_files_eq | eexists; reflexivity].
Qed.

Lemma process_frames_outcome frames :
  forall out,
    if forallb frame_wellformed frames
    then exists out', process_frames out frames = ([], inr out')
    else exists e, process_frames out frames = ([], inl e).
Proof.
  induction frames as [| frame rest IH]; intros out.
  - eexists. reflexivity.
  - cbn [forallb process_frames].
    pose proof (process_frame_outcome out frame) as Hf.
    destruct (frame_wellformed frame); cbn [andb].
    + rewrite Hf, bind_pure. apply IH.
    + destruct Hf as (e & ->). exists e. reflexivity.
Qed.

(** X11.  The parser returns an archive exactly when every frame it cut has a
    first line that [int] accepts (a literal of at most 4300 digits), a
    second line with an equals sign whose labels all have a file name
    [<key>.txt] of at most 255 bytes, and no atom line without a token;
    otherwise it prints the exception and returns [None].  Whether the
    first line is the number of atom lines is not looked at. *)
Theorem split_extxyz_returns_iff_wellformed :
  forall content : text,
    let frames := collect_frames (file_lines content) in
    ((exists files, split_extxyz content = ([], inr (Some files)))
     <-> forallb frame_wellformed frames = true)
    /\ ((exists e, split_extxyz content = ([SplitError e], inr None))
        <-> forallb frame_wellformed frames = false).
Proof.
  intros content frames. unfold split_extxyz. fold frames.
  pose proof (process_frames_outcome frames []) as H.
  destruct (forallb frame_wellformed frames).
  - destruct H as (out & ->). cbn. split; split; try discriminate; auto.
    + intros _. eexists. reflexivity.
    + intros (e & He). discriminate He.
  - destruct H as (e & ->). cbn. split; split; try discriminate; auto.
    + intros (files & Hf). discriminate Hf.
    + intros _. eexists. reflexivity.
Qed.

(** *** Lines the parser cannot handle *)

(** The limits at work: a label of 251 letters is written to its file, one
    of 252 letters has a file name of 256 bytes and the parser gives up;
    a count line of 4301 digits is refused by [int]. *)
Example label_file_name_limit :
  (exists files,
     split_extxyz
       (txt "1" ++ [LF] ++ txt "Properties=species:S:1:pos:R:3 "
        ++ repeat "a"%char 251 ++ txt "=v energy=-1.5" ++ [LF]
        ++ txt "H 0 0 0" ++ [LF])
     = ([], inr (Some files))
     /\ stream (repeat "a"%char 251 ++ txt ".txt") files = txt "v" ++ NL)
  /\ split_extxyz
       (txt "1" ++ [LF] ++ txt "Properties=species:S:1:pos:R:3 "
        ++ repeat "a"%char 252 ++ txt "=v energy=-1.5" ++ [LF]
        ++ txt "H 0 0 0" ++ [LF])
     = ([SplitError
           (Exn OSError (FileNameTooLong (repeat "a"%char 252 ++ txt ".txt")))],
        inr None).
Proof.
  split; [eexists; split; vm_compute; reflexivity | vm_compute; reflexivity].
Qed.

Example count_digit_limit :
  (exists files,
     split_extxyz
       (repeat "1"%char 4300 ++ [LF]
        ++ txt "Properties=species:S:1:pos:R:3 energy=-1.5" ++ [LF])
     = ([], inr (Some files)))
  /\ split_extxyz
       (repeat "1"%char 4301 ++ [LF]
        ++ txt "Properties=species:S:1:pos:R:3 energy=-1.5" ++ [LF])
     = ([SplitError (Exn ValueError (ExceedsDigitLimit 4300 4301))],
        inr None).
Proof.
  split; [eexists; vm_compute; reflexivity | vm_compute; reflexivity].
Qed.

Lemma split_extxyz_fails content :
  forallb frame_wellformed (collect_frames (file_lines content)) = false ->
  exists e, split_extxyz content = ([SplitError e], inr None).
Proof.
  intros H. unfold split_extxyz.
  pose proof (process_frames_outcome (collect_frames (file_lines content)) [])
    as Hp.
  rewrite H in Hp. destruct Hp as (e & ->). exists e. reflexivity.
Qed.

Lemma forallb_false_in {A : Type} (p : A -> bool) l x :
  In x l -> p x = false -> forallb p l = false.
Proof.
  intros Hx Hp. destruct (forallb p l) eqn:E; [| reflexivity].
  rewrite forallb_forall in E. rewrite (E x Hx) in Hp. discriminate.
Qed.

Lemma empty_line_not_wellformed frame :
  In [] frame -> frame_wellformed frame = false.
Proof.
  destruct frame as [| first [| line atom_lines]]; [reflexivity.. |].
  cbn [frame_wellformed].
  intros [-> | [-> | H]].
  - reflexivity.
  - cbn [existsb]. rewrite andb_false_r. reflexivity.
  - rewrite (forallb_false_in atom_line_ok _ _ H eq_refl).
    apply andb_false_r.
Qed.

(** X12.  A blank line anywhere in the file makes the parser fail: the line
    becomes part of a frame, as its first line, which [int] rejects, as
    its metadata line, which has no equals sign, or as an atom line
    without a token.  A second line terminator at the end of the file is
    enough. *)
Theorem blank_line_makes_split_fail :
  forall (content l : text),
    In l (file_lines content) -> blank l = true ->
    exists e, split_extxyz content = ([SplitError e], inr None).
Proof.
  intros content l Hl Hb. apply split_extxyz_fails.
  destruct (line_in_some_frame _ _ Hl) as (frame & Hf & Hs).
  unfold blank in Hb. destruct (strip l); [| discriminate].
  apply (forallb_false_in _ _ _ Hf). apply empty_line_not_wellformed, Hs.
Qed.

Lemma blank_line_makes_split_fail_witness :
  exists e,
    split_extxyz
      (txt "1" ++ [LF] ++ txt "Properties=species:S:1:pos:R:3 energy=-1.5"
       ++ [LF] ++ txt "H 0 0 0" ++ [LF; LF])
    = ([SplitError e], inr None).
Proof.
  apply (@blank_line_makes_split_fail
           (txt "1" ++ [LF]
            ++ txt "Properties=species:S:1:pos:R:3 energy=-1.5"
            ++ [LF] ++ txt "H 0 0 0" ++ [LF; LF])
           [LF]).
  - vm_compute. right. right. right. left. reflexivity.
  - reflexivity.
Defined.

Lemma digit_not_space_int c : isdigit_char c = true -> isspace_int c = false.
Proof. ascii_cases c. Qed.

Lemma digit_not_sign c :
  isdigit_char c = true -> Ascii.eqb c "+" || Ascii.eqb c "-" = false.
Proof. ascii_cases c. Qed.

Lemma digit_not_underscore c :
  isdigit_char c = true -> Ascii.eqb c USCORE = false.
Proof. ascii_cases c. Qed.

Lemma strip_int_digits s : forallb isdigit_char s = true -> strip_int s = s.
Proof.
  intros H. destruct s as [| c s]; [reflexivity |].
  unfold strip_int.
  destruct (last_rev_head s c c) as (r & Hr). rewrite Hr.
  pose proof (forallb_last isdigit_char c s c H) as Hlast.
  cbn [lstrip_int]. rewrite (digit_not_space_int _ Hlast).
  rewrite <- Hr, rev_involutive.
  cbn [forallb] in H. apply andb_true_iff in H as [Hc _].
  cbn [lstrip_int]. rewrite (digit_not_space_int _ Hc). reflexivity.
Qed.

Lemma int_digits_superscript s :
  forallb isdigit_char s = true -> forallb isdecimal_char s = false ->
  forall prev, int_digits prev s = false.
Proof.
  induction s as [| c s IH]; [discriminate |].
  cbn [forallb int_digits]. intros H Hd prev.
  apply andb_true_iff in H as [Hc Hs].
  destruct (isdecimal_char c); cbn [andb] in Hd.
  - apply IH; assumption.
  - rewrite (digit_not_underscore _ Hc). reflexivity.
Qed.

(** [str.isdigit] accepts the superscript digits, [int] does not. *)
Lemma int_rejects_superscript s :
  isdigit s = true -> forallb isdecimal_char s = false ->
  int_accepts s = false.
Proof.
  intros Hd Hs. unfold int_accepts, int_literal, int_body.
  assert (H : forallb isdigit_char s = true)
    by (destruct s; [discriminate | exact Hd]).
  rewrite (strip_int_digits _ H).
  destruct s as [| c s]; [reflexivity |].
  cbn [forallb] in H. apply andb_true_iff in H as [Hc Hrest].
  rewrite (digit_not_sign _ Hc).
  rewrite int_digits_superscript; [reflexivity | | exact Hs].
  cbn [forallb]. rewrite Hc, Hrest. reflexivity.
Qed.

(** X13.  A line made of digits with a superscript digit among them is taken
    as the first line of a frame, since [str.isdigit] accepts it, and
    then rejected by [int]: the parser fails. *)
Theorem superscript_digit_line_makes_split_fail :
  forall (content l : text),
    In l (file_lines content) ->
    isdigit (strip l) = true ->
    forallb isdecimal_char (strip l) = false ->
    exists e, split_extxyz content = ([SplitError e], inr None).
Proof.
  intros content l Hl Hd Hs. apply split_extxyz_fails.
  destruct (digit_line_heads_frame _ _ Hl Hd) as (rest & Hf).
  apply (forallb_false_in _ _ _ Hf).
  destruct rest as [| line atom_lines]; [reflexivity |].
  cbn [frame_wellformed]. rewrite (int_rejects_superscript _ Hd Hs).
  reflexivity.
Qed.

Lemma superscript_digit_line_makes_split_fail_witness :
  exists e,
    split_extxyz
      (["178"%char; LF]
       ++ txt "Properties=species:S:1:pos:R:3 energy=-1.5" ++ [LF]
       ++ txt "H 0 0 0" ++ [LF] ++ txt "H 1 1 1")
    = ([SplitError e], inr None).
Proof.
  apply (@superscript_digit_line_makes_split_fail
           (["178"%char; LF]
            ++ txt "Properties=species:S:1:pos:R:3 energy=-1.5" ++ [LF]
            ++ txt "H 0 0 0" ++ [LF] ++ txt "H 1 1 1")
           ["178"%char; LF]).
  - vm_compute. left. reflexivity.
  - reflexivity.
  - reflexivity.
Defined.

(** *** The streams of species, positions, forces and labels *)

Lemma notspace_nolf c : notspace c = true -> nolf c = true.
Proof.
  intros H. apply notspace_noeol in H. unfold noeol in H.
  apply andb_true_iff in H as [H _]. exact H.
Qed.

Lemma split_ws_tokens_nolf s :
  Forall (fun tok => forallb nolf tok = true) (split_ws s).
Proof.
  pose proof (@split_ws_from_ok s [] eq_refl) as H. fold (split_ws s) in H.
  apply forallb_Forall in H. eapply Forall_impl; [| exact H].
  intros tok Htok. apply token_ok_spec in Htok as [_ Htok].
  eapply forallb_impl; [apply notspace_nolf | exact Htok].
Qed.

Lemma Forall_slice {A : Type} (P : A -> Prop) (l : list A) a b :
  Forall P l -> Forall P (slice l a b).
Proof.
  rewrite !Forall_forall. intros H x Hx. apply H. eapply slice_incl, Hx.
Qed.

Lemma frame_species_nolf frame :
  forallb nolf (join (txt " ") (frame_species frame)) = true.
Proof.
  apply forallb_join; [reflexivity |]. unfold frame_species.
  apply Forall_forall. intros tok Htok.
  apply in_map_iff in Htok as (l & <- & _).
  pose proof (split_ws_tokens_nolf l) as H.
  destruct (split_ws l) as [| t ts]; [reflexivity |].
  inversion H; subst. assumption.
Qed.

Lemma frame_positions_nolf frame :
  forallb nolf (join (txt " ") (frame_positions frame)) = true.
Proof.
  apply forallb_join; [reflexivity |]. unfold frame_positions.
  apply Forall_concat. apply Forall_forall. intros toks Htoks.
  apply in_map_iff in Htoks as (l & <- & _).
  apply Forall_slice, split_ws_tokens_nolf.
Qed.

Lemma process_frames_atom_streams frames :
  forall out log out',
    process_frames out frames = (log, inr out') ->
    stream (txt "real_atom_types.npy.txt") out'
    = stream (txt "real_atom_types.npy.txt") out
      ++ concat (map (fun frame =>
                        join (txt " ") (frame_species frame) ++ NL) frames)
    /\ stream (txt "coord.npy.txt") out'
       = stream (txt "coord.npy.txt") out
         ++ concat (map (fun frame =>
                           join (txt " ") (frame_positions frame) ++ NL)
                      frames)
    /\ stream (txt "force.npy.txt") out'
       = stream (txt "force.npy.txt") out
         ++ concat (map (fun frame =>
                           match frame_forces frame with
                           | [] => []
                           | forces => join (txt " ") forces ++ NL
                           end) frames).
Proof.
  induction frames as [| frame rest IH]; intros out log out' H;
    cbn [process_frames] in H.
  - apply ret_inv in H as [<- _]. cbn. rewrite !app_nil_r. auto.
  - bind_inv H as mid Hmid H.
    pose proof (process_frame_outcome out frame) as Hf.
    destruct (frame_wellformed frame).
    2:{ destruct Hf as (e & Hf). rewrite Hf in Hmid. discriminate. }
    rewrite Hf in Hmid. inversion Hmid; subst mid. clear Hmid Hf.
    apply IH in H as (Hs & Hc & Hfo). cbn [map concat].
    rewrite Hs, Hc, Hfo.
    rewrite species_stream_of_frame, coord_stream_of_frame,
      force_stream_of_frame.
    rewrite !map_map. cbn [fst snd].
    unfold frame_species, frame_positions, frame_forces.
    rewrite <- !app_assoc. auto.
Qed.

(** X14.  The three atom streams of the archive.  Each frame adds one line to
    the species stream, with the first token of each of its atom lines,
    and one line to the position stream, with the second to fourth
    tokens of each atom line; it adds a line to the force stream, with
    the fifth to seventh tokens of the atom lines that have more than
    four tokens, when there is such an atom line.  The species and
    position streams have as many lines as there are frames.  The first
    line of a frame plays no part: the atoms of a frame are its lines
    from the third on, however many it announces. *)
Theorem parser_atom_streams :
  forall (content : text) (files : dict text),
    split_extxyz content = ([], inr (Some files)) ->
    let frames := collect_frames (file_lines content) in
    stream (txt "real_atom_types.npy.txt") files
    = concat (map (fun frame => join (txt " ") (frame_species frame) ++ NL)
                frames)
    /\ stream (txt "coord.npy.txt") files
       = concat (map (fun frame =>
                        join (txt " ") (frame_positions frame) ++ NL)
                   frames)
    /\ stream (txt "force.npy.txt") files
       = concat (map (fun frame =>
                        match frame_forces frame with
                        | [] => []
                        | forces => join (txt " ") forces ++ NL
                        end) frames)
    /\ line_count (stream (txt "real_atom_types.npy.txt") files)
       = length frames
    /\ line_count (stream (txt "coord.npy.txt") files) = length frames.
Proof.
  intros content files H frames. unfold split_extxyz, try_except in H.
  destruct (bind _ _) as [l [e | r]] eqn:E; [discriminate |].
  inversion H; subst. clear H.
  bind_inv E as out Hout E. apply ret_inv in E as [E _].
  inversion E; subst. clear E.
  apply process_frames_atom_streams in Hout as (Hs & Hc & Hf).
  cbn [stream dict_get app] in Hs, Hc, Hf.
  split; [exact Hs |]. split; [exact Hc |]. split; [exact Hf |].
  split.
  - rewrite Hs.
    apply (line_count_lines
             (fun frame => join (txt " ") (frame_species frame))).
    apply Forall_forall. intros frame _. apply frame_species_nolf.
  - rewrite Hc.
    apply (line_count_lines
             (fun frame => join (txt " ") (frame_positions frame))).
    apply Forall_forall. intros frame _. apply frame_positions_nolf.
Qed.

Lemma parser_atom_streams_witness :
  exists files,
    split_extxyz
      (txt "7" ++ [LF]
       ++ txt "Properties=species:S:1:pos:R:3" ++ [LF]
       ++ txt "H 0 0 0 1 2 3" ++ [LF]
       ++ txt "O 1 1" ++ [LF])
    = ([], inr (Some files))
    /\ stream (txt "real_atom_types.npy.txt") files = txt "H O" ++ NL
    /\ stream (txt "coord.npy.txt") files = txt "0 0 0 1 1" ++ NL
    /\ stream (txt "force.npy.txt") files = txt "1 2 3" ++ NL.
Proof.
  destruct (split_extxyz _) as [log [e | [files |]]] eqn:E;
    try (vm_compute in E; discriminate).
  exists files.
  assert (El : log = []) by (vm_compute in E; inversion E; reflexivity).
  subst log.
  destruct (parser_atom_streams _ E) as (Hs & Hc & Hf & _).
  split; [reflexivity |].
  split; [rewrite Hs; reflexivity |].
  split; [rewrite Hc; reflexivity | rewrite Hf; reflexivity].
Defined.

Lemma parse_labels_not_reserved line :
  Forall (fun kv : text * text =>
            text_eqb (fst kv) (txt "Properties")
            || text_eqb (fst kv) (txt "pbc") = false)
    (parse_labels line).
Proof.
  unfold parse_labels.
  assert (Hacc : Forall (fun kv : text * text =>
                           text_eqb (fst kv) (txt "Properties")
                           || text_eqb (fst kv) (txt "pbc") = false)
                   (@nil (text * text))) by constructor.
  revert Hacc. generalize (@nil (text * text)).
  induction (findall_labels line) as [| [k v] l IH]; intros acc Hacc;
    cbn [fold_left]; [exact Hacc |].
  apply IH. destruct (_ || _) eqn:E; [exact Hacc |].
  apply (dict_set_keys
           (fun key => text_eqb key (txt "Properties")
                       || text_eqb key (txt "pbc") = false));
    assumption.
Qed.

Lemma parse_labels_reserved_absent line name :
  text_eqb name (txt "Properties") || text_eqb name (txt "pbc") = true ->
  dict_get name (parse_labels line) = None.
Proof.
  intros Hname. apply dict_get_none. intros Hin.
  apply in_map_iff in Hin as ([k v] & <- & Hkv).
  pose proof (parse_labels_not_reserved line) as H.
  rewrite Forall_forall in H. specialize (H _ Hkv). cbn [fst] in *.
  congruence.
Qed.

Lemma process_frames_label_stream name frames :
  forallb isword name = true ->
  forall out log out',
    process_frames out frames = (log, inr out') ->
    stream (name ++ txt ".txt") out'
    = stream (name ++ txt ".txt") out
      ++ concat (map (fun frame =>
                        label_line_of name
                          (parse_labels (frame_metadata frame))) frames).
Proof.
  intros Hname.
  induction frames as [| frame rest IH]; intros out log out' H;
    cbn [process_frames] in H.
  - apply ret_inv in H as [<- _]. cbn. rewrite app_nil_r. reflexivity.
  - bind_inv H as mid Hmid H.
    apply process_frame_inv in Hmid
      as (first & line & atom_lines & alog & atoms & -> & _ & _ & ->).
    apply IH in H. cbn [map concat frame_metadata nth].
    rewrite H, (label_stream_of_frame _ _ _ _ Hname).
    rewrite <- app_assoc. reflexivity.
Qed.

(** X15.  The label files of the archive.  The file of a label holds one line
    per frame whose metadata line has that label, in the order of the
    frames; a frame without the label adds nothing, so that the lines of
    the file are not aligned with the frames.  The keys [Properties] and
    [pbc] are never labels; [energy] is one, so that its values are
    written to its label file as well as to the energy stream. *)
Theorem parser_label_streams :
  forall (content : text) (files : dict text) (name : text),
    split_extxyz content = ([], inr (Some files)) ->
    forallb isword name = true ->
    let frames := collect_frames (file_lines content) in
    stream (name ++ txt ".txt") files
    = concat (map (fun frame =>
                     match dict_get name
                             (parse_labels (frame_metadata frame)) with
                     | Some value => value ++ NL
                     | None => []
                     end) frames)
    /\ stream (txt "Properties.txt") files = []
    /\ stream (txt "pbc.txt") files = []
    /\ stream (txt "energy.txt") files
       = concat (map (fun frame =>
                        match dict_get (txt "energy")
                                (parse_labels (frame_metadata frame)) with
                        | Some value => value ++ NL
                        | None => []
                        end) frames).
Proof.
  intros content files name H Hname frames.
  unfold split_extxyz, try_except in H.
  destruct (bind _ _) as [l [e | r]] eqn:E; [discriminate |].
  inversion H; subst. clear H.
  bind_inv E as out Hout E. apply ret_inv in E as [E _].
  inversion E; subst. clear E.
  assert (Hall : forall key,
             forallb isword key = true ->
             stream (key ++ txt ".txt") files
             = concat (map (fun frame =>
                              label_line_of key
                                (parse_labels (frame_metadata frame)))
                         frames)).
  { intros key Hkey.
    rewrite (process_frames_label_stream key _ Hkey _ Hout).
    reflexivity. }
  split; [apply Hall, Hname |].
  split.
  { change (txt "Properties.txt") with (txt "Properties" ++ txt ".txt").
    rewrite Hall by reflexivity.
    rewrite <- (concat_map_nil (B := ascii) frames). f_equal.
    apply map_ext. intros frame. unfold label_line_of.
    rewrite parse_labels_reserved_absent; reflexivity. }
  split.
  { change (txt "pbc.txt") with (txt "pbc" ++ txt ".txt").
    rewrite Hall by reflexivity.
    rewrite <- (concat_map_nil (B := ascii) frames). f_equal.
    apply map_ext. intros frame. unfold label_line_of.
    rewrite parse_labels_reserved_absent; reflexivity. }
  change (txt "energy.txt") with (txt "energy" ++ txt ".txt").
  apply Hall. reflexivity.
Qed.

Lemma parser_label_streams_witness :
  exists files,
    split_extxyz
      (txt "1" ++ [LF]
       ++ txt "Properties=species:S:1:pos:R:3 q=a energy=-1.5" ++ [LF]
       ++ txt "H 0 0 0" ++ [LF]
       ++ txt "1" ++ [LF]
       ++ txt "Properties=species:S:1:pos:R:3 energy=-2.5" ++ [LF]
       ++ txt "H 1 1 1" ++ [LF]
       ++ txt "1" ++ [LF]
       ++ txt "Properties=species:S:1:pos:R:3 q=c" ++ [LF]
       ++ txt "H 2 2 2" ++ [LF])
    = ([], inr (Some files))
    /\ stream (txt "q.txt") files = txt "a" ++ NL ++ txt "c" ++ NL
    /\ stream (txt "energy.txt") files = txt "-1.5" ++ NL ++ txt "-2.5" ++ NL.
Proof.
  destruct (split_extxyz _) as [log [e | [files |]]] eqn:E;
    try (vm_compute in E; discriminate).
  exists files.
  assert (El : log = []) by (vm_compute in E; inversion E; reflexivity).
  subst log.
  destruct (parser_label_streams _ (txt "q") E eq_refl) as (Hq & _ & _ & He).
  split; [reflexivity |].
  split; [exact Hq | exact He].
Defined.

(** *** The archive of the parser read by the column reader *)

Lemma tokens_line_noeol row :
  forallb token_ok row = true ->
  forallb noeol (join (txt " ") row) = true.
Proof.
  intros H. apply forallb_join; [reflexivity |].
  apply forallb_Forall in H. eapply Forall_impl; [| exact H].
  intros tok. apply token_noeol.
Qed.

Lemma lines_from_token_rows data :
  Forall (fun row => forallb token_ok row = true) data ->
  lines_from [] (column_text data)
  = map (fun row => join (txt " ") row ++ NL) data.
Proof.
  unfold column_text.
  induction 1 as [| row data Hr _ IH]; [reflexivity |].
  cbn [map concat]. unfold NL at 1. rewrite <- app_assoc. cbn [app].
  rewrite lines_from_line by (apply tokens_line_noeol, Hr).
  cbn [app]. rewrite IH. reflexivity.
Qed.

Lemma token_rows_nocr data :
  Forall (fun row => forallb token_ok row = true) data ->
  forallb nocr (column_text data) = true.
Proof.
  unfold column_text.
  induction 1 as [| row data Hr _ IH]; [reflexivity |].
  cbn [map concat]. rewrite !forallb_app, IH.
  rewrite (noeol_nocr _ (tokens_line_noeol _ Hr)). reflexivity.
Qed.

Lemma read_rows_token_rows file_path data :
  Forall (fun row => forallb token_ok row = true) data ->
  forall line_num,
    returns
      (read_rows file_path line_num
         (map (fun row => join (txt " ") row ++ NL) data))
      (filter nonempty_row data).
Proof.
  induction 1 as [| row data Hr _ IH]; intros line_num; [reflexivity |].
  cbn [map read_rows filter].
  destruct row as [| tok row].
  - cbn. apply returns_print_then, IH.
  - assert (Hrow : row_ok (tok :: row) = true) by exact Hr.
    unfold NL. rewrite (strip_line_ok_eol _ (row_line_ok _ Hrow)).
    pose proof (row_line_ok _ Hrow) as Hline.
    destruct (join (txt " ") (tok :: row)) as [| c r] eqn:E;
      [discriminate |].
    cbn [nonempty_row]. eapply returns_bind; [apply IH |].
    rewrite <- E, (split_ws_join _ Hr). reflexivity.
Qed.

Lemma read_file_token_rows fs file_path data :
  Forall (fun row => forallb token_ok row = true) data ->
  fs file_path = Some (column_text data) ->
  returns (read_file fs file_path) (filter nonempty_row data).
Proof.
  intros H E. unfold read_file, file_lines. rewrite E.
  rewrite universal_newlines_id by (apply token_rows_nocr, H).
  rewrite lines_from_token_rows by exact H.
  apply read_rows_token_rows, H.
Qed.

Lemma split_ws_tokens_ok s : forallb token_ok (split_ws s) = true.
Proof. apply (@split_ws_from_ok s [] eq_refl). Qed.

Lemma frame_positions_ok frame :
  forallb token_ok (frame_positions frame) = true.
Proof.
  unfold frame_positions. apply forallb_Forall, Forall_concat.
  apply Forall_forall. intros toks Htoks.
  apply in_map_iff in Htoks as (l & <- & _).
  apply Forall_slice, forallb_Forall, split_ws_tokens_ok.
Qed.

Lemma frame_species_ok frame :
  frame_wellformed frame = true ->
  forallb token_ok (frame_species frame) = true.
Proof.
  intros Hwf. unfold frame_species.
  destruct frame as [| first [| line atom_lines]]; try discriminate.
  cbn [frame_wellformed] in Hwf. apply andb_true_iff in Hwf as [_ Hal].
  cbn [skipn]. apply forallb_Forall, Forall_forall. intros tok Htok.
  apply in_map_iff in Htok as (l & <- & Hl).
  rewrite forallb_forall in Hal. specialize (Hal l Hl).
  unfold atom_line_ok in Hal.
  pose proof (split_ws_tokens_ok l) as Hok.
  destruct (split_ws l) as [| t ts]; [discriminate |].
  cbn [hd forallb] in *. apply andb_true_iff in Hok as [Hok _]. exact Hok.
Qed.

(** X16.  The species and position streams of the archive, given to the
    column reader: it returns, frame after frame, the species and the
    position tokens the parser took from the atom lines; a frame without
    atom lines, or without position tokens, gives a blank line, which the
    reader skips, so that the rows that follow move up by one frame. *)
Theorem parsed_columns_read_back :
  forall (content : text) (files : dict text) (fs : filesystem)
         (species_path coord_path : text),
    split_extxyz content = ([], inr (Some files)) ->
    fs species_path = Some (stream (txt "real_atom_types.npy.txt") files) ->
    fs coord_path = Some (stream (txt "coord.npy.txt") files) ->
    let frames := collect_frames (file_lines content) in
    returns (read_file fs species_path)
      (filter nonempty_row (map frame_species frames))
    /\ returns (read_file fs coord_path)
         (filter nonempty_row (map frame_positions frames)).
Proof.
  intros content files fs species_path coord_path H Es Ec frames.
  assert (Hwf : forallb frame_wellformed frames = true).
  { pose proof (process_frames_outcome frames []) as Hp.
    destruct (forallb frame_wellformed frames); [reflexivity |].
    destruct Hp as (e & Hp). unfold split_extxyz in H. fold frames in H.
    rewrite Hp in H. discriminate. }
  unfold split_extxyz, try_except in H.
  destruct (bind _ _) as [l [e | r]] eqn:E; [discriminate |].
  inversion H; subst. clear H.
  bind_inv E as out Hout E. apply ret_inv in E as [E _].
  inversion E; subst. clear E.
  apply process_frames_atom_streams in Hout as (Hs & Hc & _).
  cbn [stream dict_get app] in Hs, Hc. fold frames in Hs, Hc.
  rewrite Hs in Es. rewrite Hc in Ec.
  split.
  - apply read_file_token_rows.
    + apply Forall_forall. intros row Hrow.
      apply in_map_iff in Hrow as (frame & <- & Hf).
      apply frame_species_ok. rewrite forallb_forall in Hwf. apply Hwf, Hf.
    + rewrite Es. unfold column_text. rewrite map_map. reflexivity.
  - apply read_file_token_rows.
    + apply Forall_forall. intros row Hrow.
      apply in_map_iff in Hrow as (frame & <- & _).
      apply frame_positions_ok.
    + rewrite Ec. unfold column_text. rewrite map_map. reflexivity.
Qed.

Lemma parsed_columns_read_back_witness :
  exists files,
    split_extxyz
      (txt "0" ++ [LF] ++ txt "Properties=species:S:1:pos:R:3" ++ [LF]
       ++ txt "1" ++ [LF] ++ txt "Properties=species:S:1:pos:R:3" ++ [LF]
       ++ txt "H 0 0 0" ++ [LF])
    = ([], inr (Some files))
    /\ returns
         (read_file
            (fun path : text =>
               if text_eqb path (txt "s")
               then Some (stream (txt "real_atom_types.npy.txt") files)
               else Some (stream (txt "coord.npy.txt") files))
            (txt "s"))
         [[txt "H"]].
Proof.
  destruct (split_extxyz _) as [log [e | [files |]]] eqn:E;
    try (vm_compute in E; discriminate).
  exists files.
  assert (El : log = []) by (vm_compute in E; inversion E; reflexivity).
  subst log. split; [reflexivity |].
  exact (proj1 (@parsed_columns_read_back _ files
                  (fun path : text =>
                     if text_eqb path (txt "s")
                     then Some (stream (txt "real_atom_types.npy.txt")
                                  files)
                     else Some (stream (txt "coord.npy.txt") files))
                  (txt "s") (txt "c") E eq_refl eq_refl)).
Defined.

(** *** Label names and label files *)

Lemma basename_from_no_slash name :
  forallb notslash name = true ->
  forall cur, basename_from cur name = cur ++ name.
Proof.
  induction name as [| c name IH]; intros H cur; cbn [basename_from].
  - rewrite app_nil_r. reflexivity.
  - cbn [forallb] in H. apply andb_true_iff in H as [Hc Hn].
    unfold notslash in Hc. apply negb_true_iff in Hc. rewrite Hc.
    rewrite IH by exact Hn. rewrite <- app_assoc. reflexivity.
Qed.

Lemma basename_from_dir dir name :
  forallb notslash name = true ->
  forall cur, basename_from cur (dir ++ "/"%char :: name) = name.
Proof.
  intros Hn. induction dir as [| c dir IH]; intros cur;
    cbn [app basename_from].
  - cbn. apply (basename_from_no_slash _ Hn []).
  - destruct (Ascii.eqb c "/"); apply IH.
Qed.

Lemma span_all p s : forallb p s = true -> span p s = (s, []).
Proof.
  induction s as [| c s IH]; [reflexivity |]. cbn [forallb span].
  intros H. apply andb_true_iff in H as [-> Hs]. rewrite IH by exact Hs.
  reflexivity.
Qed.

Lemma splitext_root_ext stem ext :
  existsb notdot stem = true ->
  forallb notdot ext = true ->
  splitext_root (stem ++ "."%char :: ext) = stem.
Proof.
  intros Hs He. unfold splitext_root. unfold notdot in *.
  rewrite rev_app_distr. cbn [rev]. rewrite <- app_assoc. cbn [app].
  assert (Hr : forallb (fun c => negb (isdot c)) (rev ext) = true).
  { rewrite forallb_forall in *. intros c Hc. apply He, in_rev, Hc. }
  rewrite (@span_app _ (rev ext) ("."%char :: rev stem) Hr eq_refl).
  assert (Hx : existsb (fun c => negb (isdot c)) (rev stem) = true).
  { apply existsb_exists in Hs as (c & Hc & Hd).
    apply existsb_exists. exists c.
    split; [apply in_rev in Hc; exact Hc | exact Hd]. }
  rewrite Hx, rev_involutive. reflexivity.
Qed.

Lemma splitext_root_no_ext stem :
  forallb notdot stem = true -> splitext_root stem = stem.
Proof.
  intros Hs. unfold splitext_root. unfold notdot in *.
  assert (Hr : forallb (fun c => negb (isdot c)) (rev stem) = true).
  { rewrite forallb_forall in *. intros c Hc. apply Hs, in_rev, Hc. }
  rewrite span_all by exact Hr. reflexivity.
Qed.

(** X17.  The name of a label is the name of its file without the directories
    and without the extension: what follows the last slash, up to its
    last dot. *)
Theorem label_name_of_path :
  forall dir stem ext : text,
    forallb notslash stem = true ->
    existsb notdot stem = true ->
    forallb notslash ext = true ->
    forallb notdot ext = true ->
    label_name_of (dir ++ txt "/" ++ stem ++ txt "." ++ ext) = stem
    /\ label_name_of (stem ++ txt "." ++ ext) = stem
    /\ (forallb notdot stem = true ->
        label_name_of (dir ++ txt "/" ++ stem) = stem).
Proof.
  intros dir stem ext Hs Hd Hes Hed. unfold label_name_of, basename.
  assert (Hn : forallb notslash (stem ++ "."%char :: ext) = true).
  { rewrite forallb_app, Hs. cbn [forallb]. rewrite Hes. reflexivity. }
  split; [| split].
  - cbn [txt list_ascii_of_string app].
    rewrite (basename_from_dir dir _ Hn).
    apply splitext_root_ext; assumption.
  - cbn [txt list_ascii_of_string app].
    rewrite (basename_from_no_slash _ Hn).
    apply splitext_root_ext; assumption.
  - intros Hnd. cbn [txt list_ascii_of_string app].
    rewrite (basename_from_dir dir _ Hs).
    apply splitext_root_no_ext, Hnd.
Qed.

Lemma label_name_of_path_witness :
  label_name_of (txt "/tmp/gradio/charge.v2.txt") = txt "charge.v2".
Proof.
  apply (@label_name_of_path (txt "/tmp/gradio") (txt "charge.v2")
           (txt "txt") eq_refl eq_refl eq_refl eq_refl).
Defined.

Lemma dict_get_set_same {V : Type} k (v : V) d :
  dict_get k (dict_set k v d) = Some v.
Proof.
  induction d as [| [k' v'] d IH]; cbn [dict_set dict_get].
  - destruct (text_eq_dec k k); [reflexivity | congruence].
  - destruct (text_eq_dec k k') as [E | E]; cbn [dict_get].
    + destruct (text_eq_dec k k'); [reflexivity | congruence].
    + destruct (text_eq_dec k k'); [congruence | exact IH].
Qed.

Lemma dict_get_set_other {V : Type} k k' (v : V) d :
  k <> k' -> dict_get k (dict_set k' v d) = dict_get k d.
Proof.
  intros Hne. induction d as [| [k2 v2] d IH]; cbn [dict_set dict_get].
  - destruct (text_eq_dec k k'); [congruence | reflexivity].
  - destruct (text_eq_dec k' k2) as [E | E]; cbn [dict_get].
    + subst k2. destruct (text_eq_dec k k'); [congruence | reflexivity].
    + destruct (text_eq_dec k k2); [reflexivity | exact IH].
Qed.

(** What the loop leaves in the table when it returns: one entry per
    name, and the entries of the names it did not read are kept. *)
Lemma read_labels_inv (fs : filesystem) files :
  forall acc log labels,
    NoDup (map fst acc) ->
    read_labels fs acc files = (log, inr labels) ->
    NoDup (map fst labels)
    /\ (forall name,
          ~ In name (map label_name_of files) ->
          dict_get name labels = dict_get name acc).
Proof.
  induction files as [| file rest IH]; intros acc log labels Hacc H.
  - apply ret_inv in H as [<- _]. auto.
  - cbn [read_labels] in H. bind_inv H as values Hvalues H.
    apply IH in H as [Hnd Hget]; [| apply dict_set_NoDup, Hacc].
    split; [exact Hnd |].
    intros name Hname. cbn [map In] in Hname.
    rewrite Hget by tauto. apply dict_get_set_other.
    intros ->. tauto.
Qed.

(** X18.  The labels of a conversion.  When the loop over the label files
    returns, the table has one entry per label name, and a label whose
    name is that of several files, directory and extension removed, holds
    what was read from the last of them: the earlier ones are overwritten
    without a word. *)
Theorem read_labels_last_file_wins :
  forall (fs : filesystem) (before after : list text) (file : text) values
         log labels,
    read_labels fs [] (before ++ file :: after) = (log, inr labels) ->
    returns (read_label_file fs file) values ->
    ~ In (label_name_of file) (map label_name_of after) ->
    NoDup (map fst labels)
    /\ dict_get (label_name_of file) labels = Some values.
Proof.
  intros fs before after file values log labels H Hv Hlast.
  assert (Hgen : forall acc log,
             NoDup (map fst acc) ->
             read_labels fs acc (before ++ file :: after) = (log, inr labels) ->
             NoDup (map fst labels)
             /\ dict_get (label_name_of file) labels = Some values).
  { clear H log. induction before as [| f before IH]; intros acc log Hacc H;
      cbn [app read_labels] in H; bind_inv H as v Hread H.
    - unfold returns in Hv. rewrite Hread in Hv. cbn [snd] in Hv.
      injection Hv as ->.
      apply read_labels_inv in H as [Hnd Hget]; [| apply dict_set_NoDup, Hacc].
      split; [exact Hnd |].
      rewrite Hget by exact Hlast. apply dict_get_set_same.
    - apply IH in H; [exact H | apply dict_set_NoDup, Hacc]. }
  apply (Hgen [] log); [constructor | exact H].
Qed.

Lemma read_labels_last_file_wins_witness :
  exists log labels,
    read_labels
      (fun path : text =>
         if text_eqb path (txt "x/q.txt") then Some (txt "a")
         else if text_eqb path (txt "y/q.dat") then Some (txt "b")
         else None)
      [] [txt "x/q.txt"; txt "y/q.dat"]
    = (log, inr labels)
    /\ NoDup (map fst labels)
    /\ dict_get (txt "q") labels = Some (Some [LStr (txt "b")]).
Proof.
  eexists. eexists. split; [reflexivity |].
  apply (@read_labels_last_file_wins
           (fun path : text =>
              if text_eqb path (txt "x/q.txt") then Some (txt "a")
              else if text_eqb path (txt "y/q.dat") then Some (txt "b")
              else None)
           [txt "x/q.txt"] [] (txt "y/q.dat")
           (Some [LStr (txt "b")]) [] _ eq_refl eq_refl (fun H => H)).
Defined.

(** *** The colours of the viewer *)

Lemma nat_of_ascii_inj a b : nat_of_ascii a = nat_of_ascii b -> a = b.
Proof.
  intros H. rewrite <- (ascii_nat_embedding a), <- (ascii_nat_embedding b).
  rewrite H. reflexivity.
Qed.

Lemma text_ltb_irrefl a : text_ltb a a = false.
Proof.
  induction a as [| x a IH]; [reflexivity |]. cbn [text_ltb].
  rewrite Nat.ltb_irrefl. exact IH.
Qed.

Lemma text_ltb_trans a :
  forall b c, text_ltb a b = true -> text_ltb b c = true ->
              text_ltb a c = true.
Proof.
  induction a as [| x a IH]; intros [| y b] [| z c] Hab Hbc;
    try discriminate; try reflexivity.
  cbn [text_ltb] in *.
  destruct (nat_of_ascii x <? nat_of_ascii y) eqn:Exy.
  - apply Nat.ltb_lt in Exy.
    destruct (nat_of_ascii y <? nat_of_ascii z) eqn:Eyz.
    + apply Nat.ltb_lt in Eyz.
      assert (E : (nat_of_ascii x <? nat_of_ascii z) = true)
        by (apply Nat.ltb_lt; lia).
      rewrite E. reflexivity.
    + destruct (nat_of_ascii z <? nat_of_ascii y) eqn:Ezy; [discriminate |].
      apply Nat.ltb_ge in Eyz, Ezy.
      assert (E : (nat_of_ascii x <? nat_of_ascii z) = true)
        by (apply Nat.ltb_lt; lia).
      rewrite E. reflexivity.
  - destruct (nat_of_ascii y <? nat_of_ascii x) eqn:Eyx; [discriminate |].
    apply Nat.ltb_ge in Exy, Eyx.
    assert (Exy' : nat_of_ascii x = nat_of_ascii y) by lia.
    rewrite Exy'.
    destruct (nat_of_ascii y <? nat_of_ascii z); [reflexivity |].
    destruct (nat_of_ascii z <? nat_of_ascii y); [discriminate |].
    eapply IH; eassumption.
Qed.

Lemma text_ltb_total a :
  forall b, text_ltb a b = false -> text_ltb b a = false -> a = b.
Proof.
  induction a as [| x a IH]; intros [| y b] Hab Hba;
    try discriminate; [reflexivity |].
  cbn [text_ltb] in *.
  destruct (nat_of_ascii x <? nat_of_ascii y) eqn:Exy; [discriminate |].
  destruct (nat_of_ascii y <? nat_of_ascii x) eqn:Eyx; [discriminate |].
  apply Nat.ltb_ge in Exy, Eyx.
  assert (E : x = y) by (apply nat_of_ascii_inj; lia).
  subst y. f_equal. apply IH; assumption.
Qed.

Lemma insert_sorted_in x l s :
  In s (insert_sorted x l) <-> s = x \/ In s l.
Proof.
  induction l as [| y l IH]; cbn [insert_sorted].
  - cbn. intuition congruence.
  - destruct (text_ltb x y) eqn:Exy; [cbn; intuition congruence |].
    destruct (text_ltb y x) eqn:Eyx.
    + cbn [In]. rewrite IH. intuition congruence.
    + pose proof (text_ltb_total _ _ Exy Eyx) as ->. cbn [In].
      intuition congruence.
Qed.

Lemma insert_sorted_sorted x l :
  StronglySorted (fun a b => text_ltb a b = true) l ->
  StronglySorted (fun a b => text_ltb a b = true) (insert_sorted x l).
Proof.
  induction 1 as [| y l Hl IH Hy]; cbn [insert_sorted].
  - repeat constructor.
  - destruct (text_ltb x y) eqn:Exy.
    + constructor; [constructor; assumption |].
      constructor; [exact Exy |].
      rewrite Forall_forall in *. intros z Hz.
      eapply text_ltb_trans; [exact Exy | apply Hy, Hz].
    + destruct (text_ltb y x) eqn:Eyx; [| constructor; assumption].
      constructor; [exact IH |].
      rewrite Forall_forall in *. intros z Hz.
      apply insert_sorted_in in Hz as [-> | Hz]; [exact Eyx | apply Hy, Hz].
Qed.

Lemma sorted_set_in atoms s : In s (sorted_set atoms) <-> In s atoms.
Proof.
  unfold sorted_set. induction atoms as [| a atoms IH]; [reflexivity |].
  cbn [fold_right In]. rewrite insert_sorted_in, IH. intuition congruence.
Qed.

Lemma sorted_set_sorted atoms :
  StronglySorted (fun a b => text_ltb a b = true) (sorted_set atoms).
Proof.
  unfold sorted_set. induction atoms as [| a atoms IH]; [constructor |].
  cbn [fold_right]. apply insert_sorted_sorted, IH.
Qed.

Lemma sorted_NoDup l :
  StronglySorted (fun a b => text_ltb a b = true) l -> NoDup l.
Proof.
  induction 1 as [| y l Hl IH Hy]; constructor; [| exact IH].
  intros Hin. rewrite Forall_forall in Hy. specialize (Hy y Hin).
  rewrite text_ltb_irrefl in Hy. discriminate.
Qed.

Lemma assign_colors_other species :
  forall i color_map atom,
    ~ In atom species ->
    dict_get atom (assign_colors i species color_map)
    = dict_get atom color_map.
Proof.
  induction species as [| s species IH]; intros i color_map atom Hn;
    cbn [assign_colors]; [reflexivity |].
  cbn [In] in Hn. rewrite IH by tauto.
  apply dict_get_set_other. intros ->. tauto.
Qed.

Lemma assign_colors_nth species :
  NoDup species ->
  forall i color_map k atom,
    nth_error species k = Some atom ->
    dict_get atom (assign_colors i species color_map)
    = Some (nth ((i + k) mod length colors) colors []).
Proof.
  induction 1 as [| s species Hs Hnd IH]; intros i color_map k atom Hk.
  - destruct k; discriminate.
  - cbn [assign_colors]. destruct k as [| k]; cbn [nth_error] in Hk.
    + inversion Hk; subst atom. rewrite assign_colors_other by exact Hs.
      rewrite dict_get_set_same, Nat.add_0_r. reflexivity.
    + rewrite (IH (S i) _ k atom Hk). rewrite Nat.add_succ_r. reflexivity.
Qed.

Lemma colors_nth_in k : In (nth (k mod length colors) colors []) colors.
Proof.
  apply nth_In. apply Nat.mod_upper_bound. discriminate.
Qed.

(** X19.  The colour of a species in a frame: the species of the frame are
    put in increasing order, each once, and the species at position [k]
    is given the colour at position [k] modulo ten of the list of
    colours.  Every species of the frame has one of the ten colours, the
    colour for unknown species is never used; the colour of a species
    depends on the other species of the frame. *)
Theorem viewer_colours :
  forall atoms : list text,
    let species := sorted_set atoms in
    let color_map := assign_colors 0 species [] in
    (forall s, In s species <-> In s atoms)
    /\ StronglySorted (fun a b => text_ltb a b = true) species
    /\ (forall k atom,
          nth_error species k = Some atom ->
          color_of color_map atom = nth (k mod 10) colors [])
    /\ forall atom, In atom atoms -> In (color_of color_map atom) colors.
Proof.
  intros atoms species color_map.
  pose proof (sorted_set_sorted atoms) as Hs. fold species in Hs.
  assert (Hk : forall k atom,
             nth_error species k = Some atom ->
             color_of color_map atom = nth (k mod 10) colors []).
  { intros k atom Hnth. unfold color_of, color_map.
    rewrite (assign_colors_nth (sorted_NoDup Hs) 0 [] k Hnth).
    reflexivity. }
  split; [intros s; apply sorted_set_in |].
  split; [exact Hs |]. split; [exact Hk |].
  intros atom Hin. apply sorted_set_in in Hin. fold species in Hin.
  apply In_nth_error in Hin as (k & Hnth).
  rewrite (Hk k atom Hnth). apply (colors_nth_in k).
Qed.

(** *** The figure of a frame *)

Section Figures.

Variable float : Type.
Variable py_float : text -> option float.

Lemma add_trace_point color_map atom (x y z : float) :
  add_trace color_map (atom, [x; y; z])
  = ([], inr (Trace x y z (txt "markers") 5 (color_of color_map atom) atom)).
Proof. reflexivity. Qed.

Lemma add_traces color_map atoms :
  forall coords : list (list float),
    length coords = length atoms ->
    Forall (fun point => length point = 3) coords ->
    exists traces,
      for_each (add_trace color_map) (combine atoms coords)
      = ([], inr traces)
      /\ map (@trace_name float) traces = atoms
      /\ map (fun t => [trace_x t; trace_y t; trace_z t]) traces = coords
      /\ map (@marker_color float) traces = map (color_of color_map) atoms.
Proof.
  induction atoms as [| atom atoms IH]; intros coords Hlen Hpts.
  - destruct coords; [| discriminate]. exists []. cbn. auto.
  - destruct coords as [| point coords]; [discriminate |].
    inversion Hpts as [| ? ? Hp Hrest]; subst.
    destruct point as [| x [| y [| z [| w point]]]]; try discriminate.
    cbn [length] in Hlen.
    destruct (IH coords ltac:(lia) Hrest) as (traces & E & Hn & Hc & Hm).
    exists (Trace x y z (txt "markers") 5 (color_of color_map atom) atom
            :: traces).
    cbn [combine for_each]. rewrite add_trace_point, E.
    cbn. rewrite Hn, Hc, Hm. auto.
Qed.

Lemma visualize_frame_outcome (frames : list (frame_view float))
  (frame_number : Z) :
  Forall (fun frame =>
            length (view_coords frame) = length (view_atoms frame)
            /\ Forall (fun point => length point = 3) (view_coords frame))
    frames ->
  exists fig,
    visualize_frame frame_number frames = ([], inr fig)
    /\ ((frame_number < 0 \/ Z.of_nat (length frames) <= frame_number)%Z ->
        fig = Figure [] None)
    /\ forall frame,
         (0 <= frame_number)%Z ->
         nth_error frames (Z.to_nat frame_number) = Some frame ->
         map (@trace_name float) (figure_traces fig) = view_atoms frame
         /\ map (fun t => [trace_x t; trace_y t; trace_z t])
              (figure_traces fig) = view_coords frame
         /\ Forall (fun t => In (marker_color t) colors) (figure_traces fig)
         /\ option_map (@layout_title) (figure_layout fig)
            = Some (txt "Frame " ++ str_of_nat (Z.to_nat frame_number)).
Proof.
  intros Hshape. unfold visualize_frame.
  destruct ((frame_number <? 0)%Z
            || (Z.of_nat (length frames) <=? frame_number)%Z) eqn:Erange.
  - exists (Figure [] None). split; [reflexivity |]. split; [reflexivity |].
    intros frame Hpos Hnth. exfalso.
    apply orb_true_iff in Erange as [E | E].
    + apply Z.ltb_lt in E. lia.
    + apply Z.leb_le in E.
      assert (Z.to_nat frame_number < length frames)
        by (apply nth_error_Some; congruence).
      lia.
  - apply orb_false_iff in Erange as [E1 E2].
    apply Z.ltb_ge in E1. apply Z.leb_gt in E2.
    assert (Hlt : Z.to_nat frame_number < length frames) by lia.
    destruct (nth_error frames (Z.to_nat frame_number)) as [frame |] eqn:Ef.
    2:{ apply nth_error_None in Ef. lia. }
    rewrite (getitem_some frames _ Ef), bind_ret_l.
    rewrite Forall_forall in Hshape.
    destruct (Hshape frame (nth_error_In _ _ Ef)) as [Hl Hp].
    destruct (@add_traces
                (assign_colors 0 (sorted_set (view_atoms frame)) [])
                (view_atoms frame) (view_coords frame) Hl Hp)
      as (traces & E & Hn & Hc & Hm).
    rewrite E. eexists. split; [reflexivity |].
    split; [intros [H | H]; lia |].
    intros frame' _ Hnth. inversion Hnth; subst frame'.
    cbn [figure_traces figure_layout option_map layout_title].
    split; [exact Hn |]. split; [exact Hc |]. split; [| reflexivity].
    apply Forall_forall. intros t Ht.
    apply (in_map (@marker_color float)) in Ht. rewrite Hm in Ht.
    apply in_map_iff in Ht as (atom & <- & Hatom).
    unfold color_of.
    apply sorted_set_in in Hatom.
    apply In_nth_error in Hatom as (k & Hk).
    rewrite (@assign_colors_nth _
               (sorted_NoDup (sorted_set_sorted (view_atoms frame)))
               0 [] k atom Hk).
    apply (colors_nth_in (0 + k)).
Qed.

(** X20.  The viewer on the frames of a conversion.  Whatever frame is asked
    for, the viewer returns a figure and raises nothing: an empty figure
    for a number below zero or beyond the last frame, and otherwise a
    figure titled with the number of the frame, with one marker per atom
    of the frame in order, named by its species, placed at its three
    coordinates and in one of the ten colours. *)
Theorem viewer_on_generated_frames :
  forall (fs : filesystem)
         (atom_types_file coordinates_file energies_file : text)
         log content frames (frame_number : Z),
    generate_xyz py_float fs atom_types_file coordinates_file energies_file
    = (log, inr (Some (content, frames))) ->
    exists fig,
      visualize_frame frame_number frames = ([], inr fig)
      /\ ((frame_number < 0 \/ Z.of_nat (length frames) <= frame_number)%Z ->
          fig = Figure [] None)
      /\ forall frame,
           (0 <= frame_number)%Z ->
           nth_error frames (Z.to_nat frame_number) = Some frame ->
           map (@trace_name float) (figure_traces fig) = view_atoms frame
           /\ map (fun t => [trace_x t; trace_y t; trace_z t])
                (figure_traces fig) = view_coords frame
           /\ Forall (fun t => In (marker_color t) colors)
                (figure_traces fig)
           /\ option_map (@layout_title) (figure_layout fig)
              = Some (txt "Frame " ++ str_of_nat (Z.to_nat frame_number)).
Proof.
  intros * H.
  apply generate_xyz_inv in H
    as (atom_types & coordinates & energies & _ & _ & _ & _ & Ev & _ & Ef).
  apply visualize_frame_outcome.
  exact (@projected_points _ _ _ _ _ _ _ _ _ Ev Ef).
Qed.

End Figures.

Lemma viewer_on_generated_frames_witness :
  exists fig,
    visualize_frame 0%Z
      [FrameView 0 [txt "O"; txt "H"]
         [map txt ["0"; "0"; "0"]%string; map txt ["1"; "1"; "1"]%string]]
    = ([], inr fig)
    /\ map (@marker_color text) (figure_traces fig)
       = [txt "green"; txt "red"].
Proof.
  destruct (@viewer_on_generated_frames text (fun tok => Some tok)
              (fun path : text =>
                 if text_eqb path (txt "a") then Some (txt "O H")
                 else if text_eqb path (txt "c")
                      then Some (txt "0 0 0 1 1 1")
                      else if text_eqb path (txt "e") then Some (txt "-1.5")
                           else None)
              (txt "a") (txt "c") (txt "e")
              [Printed (ProcessingFrame 0 2)]
              (txt "     2" ++ NL ++ txt " i = 0, E = -1.5" ++ NL
               ++ txt "O 0 0 0" ++ NL ++ txt "H 1 1 1")
              [FrameView 0 [txt "O"; txt "H"]
                 [map txt ["0"; "0"; "0"]%string;
                  map txt ["1"; "1"; "1"]%string]]
              0%Z eq_refl)
    as (fig & E & _).
  exists fig. split; [exact E |].
  vm_compute in E. inversion E. reflexivity.
Defined.
